(** * kfrencher/xacml: the XACML request/response codec, the XML text
      utilities of the build script and the readiness poll, embedded in Rocq.

    Sources embedded here:
    - the AuthzForce client ([buildRequestXml], [parseXmlToDom],
      [parseDecisionResponse]): the XPath-based version, the later of the
      two versions of [authzforce-client.js] whose text follows the test
      utilities in [src/test-utils.js];
    - [scripts/build-xacml.js] ([formatXML], [transformXacmlNamespace]);
    - the calls of the client to the server ([createDomain],
      [addPolicy], [evaluateRequest], [healthCheck]);
    - [src/test-utils.js] ([XacmlTestUtils]: [waitForCondition],
      [createRequest], [assertDecision], [extractPolicyId],
      [validatePolicyXml]).

    JavaScript strings are modelled as [string] (sequences of 8-bit code
    units, i.e. the Latin-1 range of UTF-16 code units).  The packages the
    client calls (the xmldom parser and serializer, xpath, js2xmlparser)
    are not part of the repository; what they do on the document trees of
    module [Dom] is written out where it is used.  A call that throws is
    a [Throw] with the message of the error, or [None] where the message
    is the library's own. *)

From Stdlib Require Import String Ascii List ZArith NArith Lia Bool Arith.
From Stdlib Require Import Permutation.
Import ListNotations.
Open Scope string_scope.
Set Warnings "-register-all".

(** The double-quote character, as a one-character string. *)
Definition dquote : string := String (ascii_of_nat 34) EmptyString.

(* ================================================================== *)
(** ** JavaScript string primitives used by the sources *)
(* ================================================================== *)

Module JsString.

(** [s.startsWith(p)] *)
Fixpoint startsWith (p s : string) : bool :=
  match p, s with
  | EmptyString, _ => true
  | String a p', String b s' => Ascii.eqb a b && startsWith p' s'
  | String _ _, EmptyString => false
  end.

(** [s.includes(needle)] *)
Fixpoint includes (needle s : string) : bool :=
  startsWith needle s ||
  match s with
  | EmptyString => false
  | String _ s' => includes needle s'
  end.

(** Position of the first occurrence of [needle] in [s]; [None] is JS's -1. *)
Fixpoint find (needle s : string) : option nat :=
  if startsWith needle s then Some 0
  else match s with
       | EmptyString => None
       | String _ s' => option_map S (find needle s')
       end.

Fixpoint drop (n : nat) (s : string) : string :=
  match n, s with
  | O, _ => s
  | S _, EmptyString => EmptyString
  | S k, String _ s' => drop k s'
  end.

Fixpoint take (n : nat) (s : string) : string :=
  match n, s with
  | O, _ => EmptyString
  | S _, EmptyString => EmptyString
  | S k, String c s' => String c (take k s')
  end.

(** [s.indexOf(needle, from)] for a non-empty needle. *)
Definition indexOf (s needle : string) (from : nat) : option nat :=
  option_map (Nat.add from) (find needle (drop from s)).

(** [s.substring(a, b)] for [a <= b]. *)
Definition substring (s : string) (a b : nat) : string :=
  take (b - a) (drop a s).

(** [s.endsWith(p)] *)
Definition endsWith (p s : string) : bool :=
  (String.length p <=? String.length s)%nat &&
  String.eqb (drop (String.length s - String.length p) s) p.

(** [unit.repeat(n)] for [n >= 0]. *)
Fixpoint repeat (unit : string) (n : nat) : string :=
  match n with
  | O => EmptyString
  | S k => unit ++ repeat unit k
  end.

(** [lines.join(sep)] *)
Fixpoint join (sep : string) (lines : list string) : string :=
  match lines with
  | [] => EmptyString
  | [l] => l
  | l :: rest => l ++ sep ++ join sep rest
  end.

(** White space in the sense of [String.prototype.trim] and of the regular
    expression class [\s], within the Latin-1 range: TAB, LF, VT, FF, CR,
    SPACE and NBSP. *)
Definition isWhitespace (c : ascii) : bool :=
  let n := nat_of_ascii c in
  ((9 <=? n) && (n <=? 13) || (n =? 32) || (n =? 160))%nat.

Fixpoint trimStart (s : string) : string :=
  match s with
  | EmptyString => EmptyString
  | String c s' => if isWhitespace c then trimStart s' else s
  end.

Fixpoint trimEnd (s : string) : string :=
  match s with
  | EmptyString => EmptyString
  | String c s' =>
      match trimEnd s' with
      | EmptyString => if isWhitespace c then EmptyString
                       else String c EmptyString
      | r => String c r
      end
  end.

Definition trim (s : string) : string := trimEnd (trimStart s).

(** Truthiness of a JS string: every string but the empty one. *)
Definition truthy (s : string) : bool :=
  match s with EmptyString => false | _ => true end.

(** Whether some character of [s] is not white space. *)
Fixpoint hasNonWhitespace (s : string) : bool :=
  match s with
  | EmptyString => false
  | String c s' => negb (isWhitespace c) || hasNonWhitespace s'
  end.

(** The regular-expression class [\w]. *)
Definition isWordChar (c : ascii) : bool :=
  let n := nat_of_ascii c in
  ((48 <=? n) && (n <=? 57) || (65 <=? n) && (n <=? 90)
   || (97 <=? n) && (n <=? 122) || (n =? 95))%nat.

(** Whether every character of [s] satisfies [p]. *)
Fixpoint allChars (p : ascii -> bool) (s : string) : bool :=
  match s with
  | EmptyString => true
  | String c s' => p c && allChars p s'
  end.

(** Replace every (leftmost, non-overlapping) match of a pattern, as
    [s.replace(/re/g, by)] does in one left-to-right pass.  [matchAt s]
    is the length of the match of the pattern anchored at the start of
    [s], if any; all patterns used here match at least one character. *)
Fixpoint replaceAllGo (matchAt : string -> option nat) (by_ : string)
         (skip : nat) (s : string) : string :=
  match s with
  | EmptyString => EmptyString
  | String c s' =>
      match skip with
      | S k => replaceAllGo matchAt by_ k s'
      | O =>
          match matchAt s with
          | Some (S k) => by_ ++ replaceAllGo matchAt by_ k s'
          | _ => String c (replaceAllGo matchAt by_ 0 s')
          end
      end
  end.

Definition replaceAll (matchAt : string -> option nat) (by_ s : string)
  : string := replaceAllGo matchAt by_ 0 s.

(** [s.replace("literal", by)]: the first occurrence only. *)
Definition replaceFirst (lit by_ s : string) : string :=
  match find lit s with
  | Some k => take k s ++ by_ ++ drop (k + String.length lit) s
  | None => s
  end.

End JsString.

(* ================================================================== *)
(** ** XML documents as trees *)
(* ================================================================== *)

Module Dom.

(** The part of the DOM the sources look at: elements with a namespace
    prefix (empty when the tag has none), a local name, attributes in
    source order and children; and text nodes. *)
Inductive node : Type :=
| Element (prefix localName : string)
          (attributes : list (string * string)) (children : list node)
| Text (data : string).

Definition tagName (prefix localName : string) : string :=
  match prefix with
  | EmptyString => localName
  | _ => prefix ++ ":" ++ localName
  end.

(** Document order: a node, then its descendants, children left to right. *)
Fixpoint descendantsOrSelf (n : node) : list node :=
  n :: match n with
       | Element _ _ _ cs => flat_map descendantsOrSelf cs
       | Text _ => []
       end.

Definition hasLocalName (name : string) (n : node) : bool :=
  match n with
  | Element _ l _ _ => String.eqb l name
  | Text _ => false
  end.

Definition hasTagName (name : string) (n : node) : bool :=
  match n with
  | Element p l _ _ => String.eqb (tagName p l) name
  | Text _ => false
  end.

(** [doc.getElementsByTagName(name)] *)
Definition getElementsByTagName (name : string) (doc : node) : list node :=
  filter (hasTagName name) (descendantsOrSelf doc).

(** [node.textContent] *)
Fixpoint textContent (n : node) : string :=
  match n with
  | Text d => d
  | Element _ _ _ cs => String.concat EmptyString (map textContent cs)
  end.

(** [xpath.select('//*[local-name()="name"]', doc)] *)
Definition selectByLocalName (name : string) (doc : node) : list node :=
  filter (hasLocalName name) (descendantsOrSelf doc).

(** [xpath.select('//*[local-name()="name"]/text()', doc)]: the text
    children of the elements called [name], in document order.
    [under] tells whether the parent of [n] is such an element. *)
Fixpoint textsGo (name : string) (under : bool) (n : node) : list string :=
  match n with
  | Text d => if under then [d] else []
  | Element _ l _ cs => flat_map (textsGo name (String.eqb l name)) cs
  end.

Definition selectTexts (name : string) (doc : node) : list string :=
  textsGo name false doc.

Definition attributesNamed (attr : string) (n : node)
  : list (string * string) :=
  match n with
  | Element _ _ attrs _ =>
      filter (fun a => String.eqb (fst a) attr) attrs
  | Text _ => []
  end.

(** [xpath.select('//*[local-name()="name"]/@attr', doc)] *)
Definition selectAttributes (name attr : string) (doc : node)
  : list (string * string) :=
  flat_map (attributesNamed attr) (selectByLocalName name doc).

(** [xpath.select1] is the first node of the selection, or [undefined]. *)
Definition select1 {A} (l : list A) : option A := hd_error l.

(** xmldom's [Node.prototype.toString] is the XML serializer.  On a text
    node it yields the data with [<], [&] and [>] escaped; in an
    attribute value also the double quote, and TAB, LF and CR as decimal
    character references. *)
Definition xmlEncode (attr : bool) (c : ascii) : string :=
  let n := nat_of_ascii c in
  if (n =? 60)%nat then "&lt;"
  else if (n =? 62)%nat then "&gt;"
  else if (n =? 38)%nat then "&amp;"
  else if attr && (n =? 34)%nat then "&quot;"
  else if attr && (n =? 9)%nat then "&#9;"
  else if attr && (n =? 10)%nat then "&#10;"
  else if attr && (n =? 13)%nat then "&#13;"
  else String c EmptyString.

Fixpoint escape (attr : bool) (s : string) : string :=
  match s with
  | EmptyString => EmptyString
  | String c s' => xmlEncode attr c ++ escape attr s'
  end.

Definition textToString (data : string) : string := escape false data.

(** On an attribute node the serializer yields a blank, the name, and the
    escaped value between double quotes. *)
Definition attrToString (a : string * string) : string :=
  " " ++ fst a ++ "=" ++ dquote ++ escape true (snd a) ++ dquote.

End Dom.

(* ================================================================== *)
(** ** src/authzforce-client.js: the request encoder *)
(* ================================================================== *)

Module Encoder.
Import JsString Dom.

(** An attribute bag is a JS object; it is represented by the list of
    pairs that [Object.entries] enumerates, in that order. *)
Definition AttributeBag : Type := list (string * string).

(** [XacmlRequest]: every field is optional ([None] is [undefined]). *)
Record XacmlRequest : Type := {
  subject : option AttributeBag;
  resource : option AttributeBag;
  resources : option (list AttributeBag);
  action : option AttributeBag;
  environment : option AttributeBag
}.

(** The object pushed on [attributes] for one key/value pair:
    [{'@': {AttributeId, IncludeInResult},
      AttributeValue: {'@': {DataType}, '#': value}}]. *)
Record AttributeObj : Type := {
  AttributeId : string;
  IncludeInResult : string;
  DataType : string;
  value : string
}.

(** One entry of [requestObj.Attributes]. *)
Record AttributesObj : Type := {
  Category : string;
  Attribute : list AttributeObj
}.

Record RequestObj : Type := {
  xmlns : string;
  ReturnPolicyIdList : string;
  CombinedDecision : string;
  Attributes : list AttributesObj
}.

Definition subjectIdPrefix : string := "urn:oasis:names:tc:xacml:1.0:subject:".
Definition resourceIdPrefix : string := "urn:oasis:names:tc:xacml:1.0:resource:".
Definition actionIdPrefix : string := "urn:oasis:names:tc:xacml:1.0:action:".
Definition environmentIdPrefix : string :=
  "urn:oasis:names:tc:xacml:1.0:environment:".

Definition subjectCategory : string :=
  "urn:oasis:names:tc:xacml:1.0:subject-category:access-subject".
Definition resourceCategory : string :=
  "urn:oasis:names:tc:xacml:3.0:attribute-category:resource".
Definition actionCategory : string :=
  "urn:oasis:names:tc:xacml:3.0:attribute-category:action".
Definition environmentCategory : string :=
  "urn:oasis:names:tc:xacml:3.0:attribute-category:environment".

Definition xsString : string := "http://www.w3.org/2001/XMLSchema#string".

Definition mkAttribute (idPrefix : string) (kv : string * string)
  : AttributeObj :=
  {| AttributeId := idPrefix ++ fst kv;
     IncludeInResult := "false";
     DataType := xsString;
     value := snd kv |}.

(** [if (bag) Object.entries(bag).forEach(... attributes.push(...))] *)
Definition pushBag (idPrefix : string) (bag : option AttributeBag)
  : list AttributeObj :=
  match bag with
  | Some entries => map (mkAttribute idPrefix) entries
  | None => []
  end.

(** [if (request.resources) request.resources.forEach(res => ...)] *)
Definition pushBags (idPrefix : string) (bags : option (list AttributeBag))
  : list AttributeObj :=
  match bags with
  | Some l => flat_map (fun res => map (mkAttribute idPrefix) res) l
  | None => []
  end.

(** The array [attributes] once the four blocks have run. *)
Definition collectAttributes (request : XacmlRequest) : list AttributeObj :=
  pushBag subjectIdPrefix (subject request)
  ++ pushBag resourceIdPrefix (resource request)
  ++ pushBags resourceIdPrefix (resources request)
  ++ pushBag actionIdPrefix (action request).

(** [attributes.filter(attr => attr['@'].AttributeId.includes(word))] *)
Definition filterByWord (word : string) (attributes : list AttributeObj)
  : list AttributeObj :=
  filter (fun attr => includes word (AttributeId attr)) attributes.

Definition buildRequestObj (request : XacmlRequest) : RequestObj :=
  let attributes := collectAttributes request in
  {| xmlns := "urn:oasis:names:tc:xacml:3.0:core:schema:wd-17";
     ReturnPolicyIdList := "false";
     CombinedDecision := "false";
     Attributes :=
       filter (fun category =>
                 negb (Nat.eqb (List.length (Attribute category)) 0))
         [ {| Category := subjectCategory;
              Attribute := filterByWord "subject" attributes |};
           {| Category := resourceCategory;
              Attribute := filterByWord "resource" attributes |};
           {| Category := actionCategory;
              Attribute := filterByWord "action" attributes |} ] |}.

(** The text under an element: an empty text gives no text node. *)
Definition textChildren (s : string) : list node :=
  match s with
  | EmptyString => []
  | _ => [Text s]
  end.

Definition attributeElement (a : AttributeObj) : node :=
  Element EmptyString "Attribute"
    [("AttributeId", AttributeId a); ("IncludeInResult", IncludeInResult a)]
    [Element EmptyString "AttributeValue" [("DataType", DataType a)]
       (textChildren (value a))].

Definition attributesElement (c : AttributesObj) : node :=
  Element EmptyString "Attributes" [("Category", Category c)]
    (map attributeElement (Attribute c)).

(** The document that [js2xmlparser] writes for an object: the ['@']
    member of an object gives the element's attributes, ['#'] its text,
    an array one element per entry under the member's name. The document
    is kept as a tree. *)
Definition js2xml (rootName : string) (o : RequestObj) : node :=
  Element EmptyString rootName
    [("xmlns", xmlns o); ("ReturnPolicyIdList", ReturnPolicyIdList o);
     ("CombinedDecision", CombinedDecision o)]
    (map attributesElement (Attributes o)).

(** A character that XML allows in a document, among the code units
    modelled: TAB, LF, CR and everything from the blank on. *)
Definition isXmlChar (c : ascii) : bool :=
  let n := nat_of_ascii c in
  ((n =? 9) || (n =? 10) || (n =? 13) || (32 <=? n))%nat.

Definition xmlChars (s : string) : bool := allChars isXmlChar s.

(** With its default options [js2xmlparser] checks what it writes: an
    attribute value or a text with a character that XML does not allow
    makes it throw. *)
Definition validAttributeObj (a : AttributeObj) : bool :=
  xmlChars (AttributeId a) && xmlChars (IncludeInResult a)
  && xmlChars (DataType a) && xmlChars (value a).

Definition validAttributesObj (c : AttributesObj) : bool :=
  xmlChars (Category c) && forallb validAttributeObj (Attribute c).

Definition validRequestObj (o : RequestObj) : bool :=
  xmlChars (xmlns o) && xmlChars (ReturnPolicyIdList o)
  && xmlChars (CombinedDecision o)
  && forallb validAttributesObj (Attributes o).

(** [js2xmlparser.parse(rootName, o)]: the document, or [None] when the
    library throws (its own error, which no caller here catches or
    rewrites before it leaves the function that called [parse]). *)
Definition js2xmlparserParse (rootName : string) (o : RequestObj)
  : option node :=
  if validRequestObj o then Some (js2xml rootName o) else None.

(** [buildRequestXml]: [None] when [js2xmlparser.parse] throws. *)
Definition buildRequestXml (request : XacmlRequest) : option node :=
  js2xmlparserParse "Request" (buildRequestObj request).

(** The document of a request that [js2xmlparser] accepts. *)
Definition requestDocument (request : XacmlRequest) : node :=
  js2xml "Request" (buildRequestObj request).

(** *** Reading the produced document back *)

Definition childrenOf (n : node) : list node :=
  match n with
  | Element _ _ _ cs => cs
  | Text _ => []
  end.

Definition getAttribute (name : string) (n : node) : option string :=
  option_map snd (select1 (attributesNamed name n)).

(** The [<Attributes>] elements of a request document. *)
Definition wrappers (doc : node) : list node :=
  filter (hasTagName "Attributes") (childrenOf doc).

(** The [<Attributes>] elements of a given category. *)
Definition wrappersOf (category : string) (doc : node) : list node :=
  filter (fun w => match getAttribute "Category" w with
                   | Some c => String.eqb c category
                   | None => false
                   end) (wrappers doc).

(** The [<Attribute>] children of a wrapper. *)
Definition attributeElements (w : node) : list node :=
  filter (hasTagName "Attribute") (childrenOf w).

(** The text of the [<AttributeValue>] of an [<Attribute>] element. *)
Definition attributeValueText (a : node) : string :=
  String.concat EmptyString
    (map textContent (filter (hasTagName "AttributeValue") (childrenOf a))).

(** The query of the end-to-end example of the specification. *)
Definition exampleQuery : XacmlRequest :=
  {| subject := None;
     resource := None;
     resources := Some [ [("resource-id", "urn:klf:ds:person")];
                         [("resource-id", "urn:klf:ds:field:person.name")] ];
     action := Some [("action-id", "read")];
     environment := None |}.

(** *** The vocabulary of the claims about the encoder *)

Inductive category : Type := CSubject | CResource | CAction | CEnvironment.

Definition categoryUrn (c : category) : string :=
  match c with
  | CSubject => subjectCategory
  | CResource => resourceCategory
  | CAction => actionCategory
  | CEnvironment => environmentCategory
  end.

Definition bagEntries (bag : option AttributeBag) : list (string * string) :=
  match bag with
  | Some entries => entries
  | None => []
  end.

(** The key/value pairs a query holds for a category: the resource
    category has the pairs of [resource] and of every bag of [resources]. *)
Definition categoryEntries (q : XacmlRequest) (c : category)
  : list (string * string) :=
  match c with
  | CSubject => bagEntries (subject q)
  | CResource =>
      bagEntries (resource q)
      ++ match resources q with
         | Some l => List.concat l
         | None => []
         end
  | CAction => bagEntries (action q)
  | CEnvironment => bagEntries (environment q)
  end.

(** The attributes made from the pairs of one category. *)
Definition attributesOf (p : string) (q : XacmlRequest) (c : category)
  : list AttributeObj :=
  map (mkAttribute p) (categoryEntries q c).

Definition isEmpty {A} (l : list A) : bool :=
  match l with [] => true | _ => false end.

Definition hasNonEmptyBag (q : XacmlRequest) : bool :=
  existsb (fun c => negb (isEmpty (categoryEntries q c)))
    [CSubject; CResource; CAction; CEnvironment].

(** One [<Attributes>] element for a category with a pair, none for a
    category without. *)
Definition oneWrapperPerNonEmptyCategory (q : XacmlRequest) : Prop :=
  forall doc,
    buildRequestXml q = Some doc ->
    forall c,
      List.length (wrappersOf (categoryUrn c) doc)
      = if isEmpty (categoryEntries q c) then 0 else 1.

(** Every key and value of the subject, resource and action bags is made
    of characters that XML allows. *)
Definition xmlSafe (q : XacmlRequest) : bool :=
  forallb (fun c =>
             forallb (fun kv => xmlChars (fst kv) && xmlChars (snd kv))
               (categoryEntries q c))
    [CSubject; CResource; CAction].

(** What holds of the outcome of encoding a query: [P] of the document
    when there is one; and there is none only for a query with a
    character that XML does not allow in a key or value of the subject,
    resource or action bags. *)
Definition encoded (q : XacmlRequest) (P : node -> Prop) : Prop :=
  match buildRequestXml q with
  | Some doc => P doc
  | None => xmlSafe q = false
  end.

(** No key of the bag contains one of the words. *)
Definition keysAvoid (words : list string) (entries : list (string * string))
  : bool :=
  forallb (fun kv => forallb (fun w => negb (includes w (fst kv))) words)
    entries.

(** No key contains the name of a category other than its own. *)
Definition plainKeys (q : XacmlRequest) : bool :=
  keysAvoid ["resource"; "action"] (categoryEntries q CSubject)
  && keysAvoid ["subject"; "action"] (categoryEntries q CResource)
  && keysAvoid ["subject"; "resource"] (categoryEntries q CAction).

(** The AttributeIds under each wrapper of a document, with the
    wrapper's category. *)
Definition wrapperContents (doc : node)
  : list (option string * list (option string)) :=
  map (fun w => (getAttribute "Category" w,
                 map (getAttribute "AttributeId") (attributeElements w)))
    (wrappers doc).

Definition withEnvironment (q : XacmlRequest) (e : option AttributeBag)
  : XacmlRequest :=
  {| subject := subject q; resource := resource q;
     resources := resources q; action := action q; environment := e |}.

Definition crossKeyQuery : XacmlRequest :=
  {| subject := Some [("resource-owner", "alice")];
     resource := None; resources := None; action := None;
     environment := None |}.

Definition environmentOnlyQuery : XacmlRequest :=
  {| subject := None; resource := None; resources := None; action := None;
     environment := Some [("currentTime", "2024-01-01T00:00:00Z")] |}.

End Encoder.

(** How a JS function call completes: it returns a value or throws. *)
Inductive completion (A : Type) : Type :=
| Return (a : A)
| Throw (message : string).
Arguments Return {A} a.
Arguments Throw {A} message.

(* ================================================================== *)
(** ** src/authzforce-client.js: the response decoder *)
(* ================================================================== *)

Module Decoder.
Import JsString Dom.

(** [XacmlDecisionResponse]; [status = None] is JS's [null]. The
    obligations and advice are the selected DOM elements themselves. *)
Record XacmlDecisionResponse : Type := {
  decision : string;
  status : option string;
  obligations : list node;
  advice : list node
}.

(** [parseXmlToDom]: the response text is represented by the tree the
    DOM parser builds from it; the function rejects a tree that holds a
    [parsererror] element. *)
Definition parseXmlToDom (xmlString : node) : completion node :=
  let doc := xmlString in
  match getElementsByTagName "parsererror" doc with
  | parseError :: _ =>
      Throw ("XML parsing error: " ++ textContent parseError)
  | [] => Return doc
  end.

(** [x || null] on an optional string. *)
Definition orNull (x : option string) : option string :=
  match x with
  | Some s => if truthy s then Some s else None
  | None => None
  end.

Definition parseDecisionResponse (responseXml : node)
  : completion XacmlDecisionResponse :=
  match parseXmlToDom responseXml with
  | Throw m => Throw m
  | Return doc =>
      let decision :=
        option_map textToString (select1 (selectTexts "Decision" doc)) in
      let statusCode :=
        option_map attrToString
          (select1 (selectAttributes "StatusCode" "Value" doc)) in
      match orNull decision with
      | None => Throw "No Decision element found in response"
      | Some decision =>
          let obligations := selectByLocalName "Obligation" doc in
          let advice := selectByLocalName "Advice" doc in
          Return {| decision := decision;
                    status := orNull statusCode;
                    obligations := obligations;
                    advice := advice |}
      end
  end.

(** Put the namespace prefix [f p] on every element that has prefix [p]. *)
Fixpoint mapPrefix (f : string -> string) (n : node) : node :=
  match n with
  | Element p l attrs cs => Element (f p) l attrs (map (mapPrefix f) cs)
  | Text d => Text d
  end.

(** An attribute put on the root element, unless the element has an
    attribute of that name. *)
Definition declare (d : string * string) (n : node) : node :=
  match n with
  | Element p l attrs cs =>
      Element p l
        (if existsb (fun a => String.eqb (fst a) (fst d)) attrs
         then attrs else (attrs ++ [d])%list)
        cs
  | Text _ => n
  end.

Definition xacmlNamespace : string :=
  "urn:oasis:names:tc:xacml:3.0:core:schema:wd-17".

(** The variant of a document in which every tag carries [ns3:], the
    prefix being declared on the root element ([xmlns:ns3]), as the
    parser requires of a prefix; and the variant without any prefix. *)
Definition withNs3 (doc : node) : node :=
  declare ("xmlns:ns3", xacmlNamespace) (mapPrefix (fun _ => "ns3") doc).
Definition withoutPrefix (doc : node) : node :=
  mapPrefix (fun _ => EmptyString) doc.

(** The same outcome, with [g] applied to the elements it holds. *)
Definition mapNodes (g : node -> node)
           (c : completion XacmlDecisionResponse)
  : completion XacmlDecisionResponse :=
  match c with
  | Return r => Return {| decision := decision r;
                          status := status r;
                          obligations := map g (obligations r);
                          advice := map g (advice r) |}
  | Throw m => Throw m
  end.

(** The status of a returned result. *)
Definition status_of (c : completion XacmlDecisionResponse)
  : option (option string) :=
  match c with
  | Return r => Some (status r)
  | Throw _ => None
  end.

Definition statusOk : string := "urn:oasis:names:tc:xacml:1.0:status:ok".

(** [<Response><Result><Decision>Permit</Decision>
     <Status><StatusCode Value="...:status:ok"/></Status></Result></Response>] *)
Definition permitResponse : node :=
  Element EmptyString "Response" []
    [Element EmptyString "Result" []
       [Element EmptyString "Decision" [] [Text "Permit"];
        Element EmptyString "Status" []
          [Element EmptyString "StatusCode" [("Value", statusOk)] []]]].

(** A Permit response that carries one obligation. *)
Definition obligationResponse : node :=
  Element EmptyString "Response" []
    [Element EmptyString "Result" []
       [Element EmptyString "Decision" [] [Text "Permit"];
        Element EmptyString "Obligations" []
          [Element EmptyString "Obligation" [("ObligationId", "log")] []]]].

End Decoder.

(* ================================================================== *)
(** ** scripts/build-xacml.js *)
(* ================================================================== *)

Module BuildXacml.
Import JsString.

Definition newline : string := String (ascii_of_nat 10) EmptyString.

(** What one pass through the body of the [while] loop does. *)
Inductive iteration : Type :=
| Next (i : nat) (indentLevel : nat) (result : list string)
| Break
| Raise (message : string).

Definition isNameChar (c : ascii) : bool :=
  isWordChar c || Ascii.eqb c ":" || Ascii.eqb c "-".

Fixpoint takeWhile (p : ascii -> bool) (s : string) : string :=
  match s with
  | EmptyString => EmptyString
  | String c s' => if p c then String c (takeWhile p s') else EmptyString
  end.

(** [fullTag.match(/^<([\w:-]+)/)]: the captured name, or [None] for
    [null]. *)
Definition matchTagName (fullTag : string) : option string :=
  match fullTag with
  | String c rest =>
      if Ascii.eqb c "<" then
        match takeWhile isNameChar rest with
        | EmptyString => None
        | name => Some name
        end
      else None
  | EmptyString => None
  end.

Definition indent (indentLevel : nat) : string := repeat "  " indentLevel.

(** The loop body of [formatXML] at scan position [i]. *)
Definition iterate (xmlString : string) (i indentLevel : nat)
           (result : list string) : iteration :=
  match indexOf xmlString "<" i with
  | None => Break
  | Some tagStart =>
      match indexOf xmlString ">" tagStart with
      | None => Break
      | Some tagEnd =>
          let fullTag := substring xmlString tagStart (tagEnd + 1) in
          if startsWith "<?" fullTag || startsWith "<!--" fullTag then
            Next (tagEnd + 1) indentLevel (result ++ [fullTag])
          else if startsWith "</" fullTag then
            (* indentLevel--; below zero, repeat throws a RangeError *)
            match indentLevel with
            | O => Raise "Invalid count value: -1"
            | S indentLevel' =>
                Next (tagEnd + 1) indentLevel'
                  (result ++ [indent indentLevel' ++ fullTag])
            end
          else if endsWith "/>" fullTag then
            Next (tagEnd + 1) indentLevel
              (result ++ [indent indentLevel ++ fullTag])
          else
            match matchTagName fullTag with
            | None => Raise "Failed to extract tag name from XML."
            | Some tagName =>
                let closingTag := "</" ++ tagName ++ ">" in
                let regular :=
                  Next (tagEnd + 1) (S indentLevel)
                    (result ++ [indent indentLevel ++ fullTag]) in
                match indexOf xmlString closingTag (tagEnd + 1) with
                | Some closingTagStart =>
                    let innerContent :=
                      substring xmlString (tagEnd + 1) closingTagStart in
                    let hasOnlyText := negb (includes "<" innerContent) in
                    if hasOnlyText && truthy (trim innerContent) then
                      Next (closingTagStart + String.length closingTag)
                        indentLevel
                        (result ++ [indent indentLevel ++ fullTag
                                      ++ innerContent ++ closingTag])
                    else regular
                | None => regular
                end
            end
      end
  end.

(** The [while (i < xmlString.length)] loop; [None] when [fuel] passes
    are not enough. *)
Fixpoint formatLoop (fuel : nat) (xmlString : string) (i indentLevel : nat)
         (result : list string) : option (completion (list string)) :=
  match fuel with
  | O => None
  | S fuel' =>
      if (i <? String.length xmlString)%nat then
        match iterate xmlString i indentLevel result with
        | Next i' indentLevel' result' =>
            formatLoop fuel' xmlString i' indentLevel' result'
        | Break => Some (Return result)
        | Raise m => Some (Throw m)
        end
      else Some (Return result)
  end.

(** Every pass moves [i] forward, so [length + 1] passes are enough
    (see [formatLoop_enough_fuel]). *)
Definition formatXML (xmlString : string) : option (completion string) :=
  match formatLoop (S (String.length xmlString)) xmlString 0 0 [] with
  | Some (Return result) => Some (Return (join newline result))
  | Some (Throw m) => Some (Throw m)
  | None => None
  end.

(** The pattern for a double-quoted [xmlns:xacml3] declaration (the
    name, [=], a double quote, any characters but a double quote, a double
    quote), anchored at the start of [s]. *)
Definition matchXmlnsXacml3 (s : string) : option nat :=
  let opening := "xmlns:xacml3=" ++ dquote in
  if startsWith opening s then
    option_map (fun k => String.length opening + k + 1)
      (find dquote (drop (String.length opening) s))
  else None.

(** [/xacml3:/] anchored at the start of [s]. *)
Definition matchXacml3Prefix (s : string) : option nat :=
  if startsWith "xacml3:" s then Some 7 else None.

Fixpoint whitespaceRun (s : string) : nat :=
  match s with
  | EmptyString => 0
  | String c s' => if isWhitespace c then S (whitespaceRun s') else 0
  end.

(** [/\s+/] anchored at the start of [s]. *)
Definition matchWhitespace (s : string) : option nat :=
  match whitespaceRun s with
  | O => None
  | n => Some n
  end.

(** The guards that make [iterate] treat [fullTag] as an opening tag. *)
Definition isOpeningTag (fullTag : string) : bool :=
  negb (startsWith "<?" fullTag || startsWith "<!--" fullTag)
  && negb (startsWith "</" fullTag)
  && negb (endsWith "/>" fullTag).

Definition xacmlCoreNamespace : string :=
  "urn:oasis:names:tc:xacml:3.0:core:schema:wd-17".

Definition defaultNamespaceDecl : string :=
  "xmlns=" ++ dquote ++ xacmlCoreNamespace ++ dquote.

Definition transformXacmlNamespace (xmlContent : string) : string :=
  let transformed := replaceAll matchXmlnsXacml3 EmptyString xmlContent in
  let transformed := replaceAll matchXacml3Prefix EmptyString transformed in
  let transformed :=
    replaceFirst "<PolicySet " ("<PolicySet " ++ defaultNamespaceDecl ++ " ")
      transformed in
  let transformed := replaceAll matchWhitespace " " transformed in
  transformed.

(** A policy set as a generator lays it out, with the attributes of the
    root element on lines of their own. *)
Definition multilinePolicySet : string :=
  "<xacml3:PolicySet" ++ newline
  ++ "    xmlns:xacml3=" ++ dquote ++ xacmlCoreNamespace ++ dquote ++ newline
  ++ "    PolicySetId=" ++ dquote ++ "root" ++ dquote
  ++ " Version=" ++ dquote ++ "1.0" ++ dquote ++ ">"
  ++ "<xacml3:Target/></xacml3:PolicySet>".

(** The same policy set with the root tag on one line. *)
Definition oneLinePolicySet : string :=
  "<xacml3:PolicySet xmlns:xacml3=" ++ dquote ++ xacmlCoreNamespace ++ dquote
  ++ " PolicySetId=" ++ dquote ++ "root" ++ dquote
  ++ " Version=" ++ dquote ++ "1.0" ++ dquote ++ ">"
  ++ "<xacml3:Target/></xacml3:PolicySet>".

End BuildXacml.

(* ================================================================== *)
(** ** src/test-utils.js: XacmlTestUtils.waitForCondition *)
(* ================================================================== *)

Module XacmlTestUtils.

(** What awaiting one call of the condition gives: a truthy value, a
    falsy value, or an exception (a rejected promise). *)
Inductive pollResult : Type :=
| Truthy
| Falsy
| Rejects (reason : string).

(** What [waitForCondition] does, in order: it calls the condition (the
    event records the elapsed time at which the loop test let the call
    happen, and what the call gave), or it sleeps. *)
Inductive event : Type :=
| Poll (elapsed : Z) (r : pollResult)
| Sleep (ms : Z).

Section WaitForCondition.
(** The state of everything outside the function: the clock and
    whatever the condition looks at. *)
Variable World : Type.
(** [Date.now()] *)
Variable now : World -> Z.
(** [await condition()] *)
Variable condition : World -> pollResult * World.
(** [await new Promise(resolve => setTimeout(resolve, ms))] *)
Variable sleep : Z -> World -> World.

(** The [while] loop; [None] when [fuel] passes are not enough. *)
Fixpoint waitLoop (fuel : nat) (startTime timeout interval : Z)
         (w : World) (trace : list event)
  : option (completion bool * list event * World) :=
  match fuel with
  | O => None
  | S fuel' =>
      let elapsed := (now w - startTime)%Z in
      if (elapsed <? timeout)%Z then
        match condition w with
        | (Truthy, w') =>
            Some (Return true, (trace ++ [Poll elapsed Truthy])%list, w')
        | (Rejects e, w') =>
            Some (Throw e, (trace ++ [Poll elapsed (Rejects e)])%list, w')
        | (Falsy, w') =>
            waitLoop fuel' startTime timeout interval (sleep interval w')
              (trace ++ [Poll elapsed Falsy; Sleep interval])%list
        end
      else Some (Return false, trace, w)
  end.

Definition waitForCondition (fuel : nat) (timeout interval : Z)
           (w : World)
  : option (completion bool * list event * World) :=
  let startTime := now w in
  waitLoop fuel startTime timeout interval w [].

End WaitForCondition.

(** *** The vocabulary of the claim about the poll *)

(** A well-paced run: every call of the condition happens while the
    elapsed time is below the timeout; a call that gives a falsy value is
    followed by exactly one sleep of [interval], and only then may the
    next call come; a call that gives a truthy value or throws ends the
    run. *)
Fixpoint paced (timeout interval : Z) (trace : list event) : Prop :=
  match trace with
  | [] => True
  | Poll elapsed r :: rest =>
      (elapsed < timeout)%Z
      /\ match r, rest with
         | Falsy, Sleep ms :: rest' =>
             ms = interval /\ paced timeout interval rest'
         | Truthy, [] => True
         | Rejects _, [] => True
         | _, _ => False
         end
  | Sleep _ :: _ => False
  end.

(** What a run must complete with: [true] at a truthy call, the
    condition's own exception if it throws, [false] if every call gave a
    falsy value. *)
Fixpoint verdict (trace : list event) : completion bool :=
  match trace with
  | [] => Return false
  | Poll _ Truthy :: _ => Return true
  | Poll _ (Rejects e) :: _ => Throw e
  | _ :: rest => verdict rest
  end.

Section Calls.
Variable World : Type.
Variable now : World -> Z.
Variable condition : World -> pollResult * World.
Variable sleep : Z -> World -> World.

(** The world after one call of the condition and one sleep of
    [interval]. *)
Definition afterFalsy (interval : Z) (w : World) : World :=
  sleep interval (snd (condition w)).

(** The world in which call number [k] of the condition (from 0) is made,
    from the world [w] of the first call on, when one sleep of [interval]
    and nothing else lies between two calls. *)
Fixpoint worldAt (interval : Z) (k : nat) (w : World) : World :=
  match k with
  | O => w
  | S k' => worldAt interval k' (afterFalsy interval w)
  end.

(** The events of [n] calls that give a falsy value, each followed by its
    sleep. *)
Fixpoint falsyPolls (startTime interval : Z) (n : nat) (w : World)
  : list event :=
  match n with
  | O => []
  | S n' =>
      Poll (now w - startTime) Falsy :: Sleep interval
        :: falsyPolls startTime interval n' (afterFalsy interval w)
  end.

(** A run of [n] falsy calls and what ends it, told by the condition
    and the clock themselves: every call is made in the world that the
    call before and one sleep left, below the timeout; the run ends with
    call number [n] giving a truthy value ([true]) or throwing (the same
    exception), or with the clock at or past the timeout ([false], and no
    further call). *)
Definition runOf (startTime timeout interval : Z) (w : World) (n : nat)
           (out : completion bool) (trace : list event) (w' : World)
  : Prop :=
  (forall k, (k < n)%nat ->
             (now (worldAt interval k w) - startTime < timeout)%Z
             /\ fst (condition (worldAt interval k w)) = Falsy)
  /\ let wn := worldAt interval n w in
     let elapsed := (now wn - startTime)%Z in
     ((timeout <= elapsed)%Z
      /\ out = Return false /\ w' = wn
      /\ trace = falsyPolls startTime interval n w)
     \/ ((elapsed < timeout)%Z
         /\ condition wn = (Truthy, w') /\ out = Return true
         /\ trace = (falsyPolls startTime interval n w
                     ++ [Poll elapsed Truthy])%list)
     \/ (exists e,
            (elapsed < timeout)%Z
            /\ condition wn = (Rejects e, w') /\ out = Throw e
            /\ trace = (falsyPolls startTime interval n w
                        ++ [Poll elapsed (Rejects e)])%list).

End Calls.

(** A clock in milliseconds as the world, a condition that holds from
    the instant [readyAt] on, and timers that fire on time (at least one
    millisecond late for a delay below one). *)
Definition readyFrom (readyAt : Z) (w : Z) : pollResult * Z :=
  (if (readyAt <=? w)%Z then Truthy else Falsy, w).

Definition timerSleep (ms : Z) (w : Z) : Z := (w + Z.max ms 1)%Z.

End XacmlTestUtils.

(* ================================================================== *)
(** ** src/test-utils.js: policy texts and test requests *)
(* ================================================================== *)

Module PolicyText.
Import JsString.

(** [s.match(re)] for the pattern made of [NAME=], a double quote, one or
    more characters other than a double quote (the capture) and a double
    quote: the capture of the leftmost match, or [None] for [null].  At a
    position where [NAME=] and a double quote stand, the pattern matches
    when the next double quote comes after at least one other character. *)
Fixpoint matchQuoted (name : string) (s : string) : option string :=
  match s with
  | EmptyString => None
  | String _ s' =>
      if startsWith (name ++ "=" ++ dquote) s then
        let rest := drop (String.length (name ++ "=" ++ dquote)) s in
        match find dquote rest with
        | Some (S k) => Some (take (S k) rest)
        | _ => matchQuoted name s'
        end
      else matchQuoted name s'
  end.

(** [XacmlTestUtils.extractPolicyId] *)
Definition extractPolicyId (policyXml : string) : option string :=
  match matchQuoted "PolicySetId" policyXml with
  | Some policySetId => Some policySetId
  | None => matchQuoted "PolicyId" policyXml
  end.

Record ValidationResult : Type := {
  isValid : bool;
  errors : list string;
  warnings : list string
}.

(** [XacmlTestUtils.validatePolicyXml]: the three checks update the
    result one after the other. *)
Definition validatePolicyXml (policyXml : string) : ValidationResult :=
  let validation := {| isValid := true; errors := []; warnings := [] |} in
  let validation :=
    if negb (includes "<Policy" policyXml)
       && negb (includes "<PolicySet" policyXml)
    then {| isValid := false;
            errors := errors validation
                      ++ ["Missing Policy or PolicySet root element"];
            warnings := warnings validation |}
    else validation in
  let validation :=
    if negb (includes "xmlns" policyXml)
    then {| isValid := isValid validation;
            errors := errors validation;
            warnings := warnings validation
                        ++ ["Missing XML namespace declaration"] |}
    else validation in
  let validation :=
    if negb (includes "PolicyId" policyXml)
    then {| isValid := false;
            errors := errors validation ++ ["Missing PolicyId attribute"];
            warnings := warnings validation |}
    else validation in
  validation.

(** The text [NAME="value"]. *)
Definition quotedAttribute (name value : string) : string :=
  name ++ "=" ++ dquote ++ value ++ dquote.

End PolicyText.

Module TestRequest.
Import JsString Encoder.

(** A JS object with string values, as the list of its own properties in
    the order of their creation. *)
Definition JsObject : Type := list (string * string).

(** [o[key]]; [None] is [undefined]. *)
Fixpoint getProperty (key : string) (o : JsObject) : option string :=
  match o with
  | [] => None
  | (k, v) :: rest => if String.eqb k key then Some v else getProperty key rest
  end.

(** Defining [key: v] on [o]: a key that exists keeps its place and gets
    the new value, a new key goes last. *)
Fixpoint setProperty (key v : string) (o : JsObject) : JsObject :=
  match o with
  | [] => [(key, v)]
  | (k, v') :: rest =>
      if String.eqb k key then (k, v) :: rest
      else (k, v') :: setProperty key v rest
  end.

Definition isDigit (c : ascii) : bool :=
  let n := nat_of_ascii c in ((48 <=? n) && (n <=? 57))%nat.

Fixpoint decimal (acc : N) (s : string) : N :=
  match s with
  | EmptyString => acc
  | String c s' =>
      decimal (acc * 10 + N.of_nat (nat_of_ascii c - 48)) s'
  end.

(** The number of a key that is an array index: the canonical decimal
    form (no sign, no leading zero) of an integer below [2^32 - 1]. *)
Definition arrayIndex (key : string) : option N :=
  match key with
  | EmptyString => None
  | String c rest =>
      if allChars isDigit key
         && (negb (Ascii.eqb c "0") || negb (truthy rest))
      then
        let n := decimal 0 key in
        if (n <? 4294967295)%N then Some n else None
      else None
  end.

Fixpoint insertIndexed (n : N) (kv : string * string)
         (l : list (N * (string * string))) : list (N * (string * string)) :=
  match l with
  | [] => [(n, kv)]
  | (m, e) :: l' =>
      if (n <=? m)%N then (n, kv) :: l else (m, e) :: insertIndexed n kv l'
  end.

(** The properties whose keys are array indices, by ascending index. *)
Fixpoint indexed (o : JsObject) : list (N * (string * string)) :=
  match o with
  | [] => []
  | kv :: rest =>
      match arrayIndex (fst kv) with
      | Some n => insertIndexed n kv (indexed rest)
      | None => indexed rest
      end
  end.

(** The other properties, in the order of their creation. *)
Definition named (o : JsObject) : JsObject :=
  filter (fun kv => match arrayIndex (fst kv) with
                    | None => true
                    | Some _ => false
                    end) o.

(** [Object.entries(o)], which is also the order in which a spread reads
    [o]: the array indices first, in ascending order, then the other
    keys in the order of their creation. *)
Definition entries (o : JsObject) : JsObject :=
  (map snd (indexed o) ++ named o)%list.

(** [{...literal, ...source}]: the properties of [source] are defined on
    the literal's, in order. *)
Definition spread (literal source : JsObject) : JsObject :=
  fold_left (fun o kv => setProperty (fst kv) (snd kv) o) (entries source)
    literal.

(** [x || fallback] on an optional string. *)
Definition orElse (x : option string) (fallback : string) : string :=
  match x with
  | Some s => if truthy s then s else fallback
  | None => fallback
  end.

(** [TestCaseRequest]: a part that is left out ([None]) is taken as [{}]
    by the parameter defaults. *)
Record TestCaseRequest : Type := {
  tcSubject : option JsObject;
  tcResource : option JsObject;
  tcAction : option JsObject;
  tcEnvironment : option JsObject
}.

Definition orEmpty (o : option JsObject) : JsObject :=
  match o with
  | Some obj => obj
  | None => []
  end.

(** [XacmlTestUtils.createRequest]; [nowIso] is what
    [new Date().toISOString()] gives.  The bags of the request are given
    as [Object.entries] lists them. *)
Definition createRequest (nowIso : string) (options : TestCaseRequest)
  : XacmlRequest :=
  let subject := orEmpty (tcSubject options) in
  let resource := orEmpty (tcResource options) in
  let action := orEmpty (tcAction options) in
  let environment := orEmpty (tcEnvironment options) in
  {| Encoder.subject :=
       Some (entries
               (spread [("id", orElse (getProperty "id" subject) "anonymous");
                        ("role", orElse (getProperty "role" subject)
                                   EmptyString)]
                  subject));
     Encoder.resource :=
       Some (entries
               (spread [("id", orElse (getProperty "id" resource)
                                 "default-resource");
                        ("type", orElse (getProperty "type" resource)
                                   "document")]
                  resource));
     Encoder.resources := None;
     Encoder.action :=
       Some (entries
               (spread [("id", orElse (getProperty "id" action) "read")]
                  action));
     Encoder.environment :=
       Some (entries
               (spread [("currentTime",
                         orElse (getProperty "currentTime" environment) nowIso)]
                  environment)) |}.

Definition keys (o : JsObject) : list string := map fst o.

(** Reading a request document back: the pairs under the wrapper of a
    category, with the AttributeId prefix of the category taken off. *)
Definition idPrefix (c : category) : string :=
  match c with
  | CSubject => subjectIdPrefix
  | CResource => resourceIdPrefix
  | CAction => actionIdPrefix
  | CEnvironment => environmentIdPrefix
  end.

(** The word that fills the wrapper of a category. *)
Definition categoryWord (c : category) : string :=
  match c with
  | CSubject => "subject"
  | CResource => "resource"
  | CAction => "action"
  | CEnvironment => "environment"
  end.

Definition readPair (c : category) (a : Dom.node) : string * string :=
  (match getAttribute "AttributeId" a with
   | Some i => drop (String.length (idPrefix c)) i
   | None => EmptyString
   end,
   attributeValueText a).

Definition readBack (doc : Dom.node) (c : category) : list (string * string) :=
  flat_map (fun w => map (readPair c) (attributeElements w))
    (wrappersOf (categoryUrn c) doc).

End TestRequest.

Module Assertions.
Import JsString Dom Decoder.

(** [ExpectedDecision]: what a test expects of a decision; [None] is a
    property that is not given.  [E] is the kind of value the test data
    lists as an expected obligation or advice. *)
Record ExpectedDecision (E : Type) : Type := {
  expectedDecision : string;
  expectedStatus : option string;
  expectedObligations : option (list E);
  expectedAdvice : option (list E)
}.
Arguments expectedDecision {E} _.
Arguments expectedStatus {E} _.
Arguments expectedObligations {E} _.
Arguments expectedAdvice {E} _.

(** How [assertDecision] ends: it returns, or one of its four [expect]
    calls throws Jest's assertion error. *)
Inductive verdict : Type :=
| Passed
| DecisionDiffers
| StatusDiffers
| ObligationsMissing
| AdviceMissing.

(** [expect(received).toBe(expected)] for a string or [null] against a
    string. *)
Definition toBe (received : option string) (expected : string) : bool :=
  match received with
  | Some s => String.eqb s expected
  | None => false
  end.

Section Expect.
Variable E : Type.
(** Jest's recursive equality of a received element and an expected
    value. *)
Variable equals : node -> E -> bool.

(** [expect(received).toEqual(expect.arrayContaining(expected))]: every
    expected value equals some received element. *)
Definition arrayContaining (received : list node) (expected : list E)
  : bool :=
  forallb (fun e => existsb (fun n => equals n e) received) expected.

(** [assertDecision(actual, expected)]; its third argument only makes a
    prefix that is not used. *)
Definition assertDecision (actual : XacmlDecisionResponse)
           (expected : ExpectedDecision E) : verdict :=
  if negb (toBe (Some (decision actual)) (expectedDecision expected)) then
    DecisionDiffers
  else if match expectedStatus expected with
          | Some s => truthy s && negb (toBe (status actual) s)
          | None => false
          end then
    StatusDiffers
  else if match expectedObligations expected with
          | Some l => negb (arrayContaining (obligations actual) l)
          | None => false
          end then
    ObligationsMissing
  else if match expectedAdvice expected with
          | Some l => negb (arrayContaining (advice actual) l)
          | None => false
          end then
    AdviceMissing
  else Passed.

End Expect.

End Assertions.

(* ================================================================== *)
(** ** src/authzforce-client.js: the calls to the server *)
(* ================================================================== *)

Module Lifecycle.
Import JsString Dom Encoder Decoder.

(** What is sent as the body of a request: a document made by
    [js2xmlparser], or a text given by the caller. *)
Inductive requestBody : Type :=
| XmlTree (n : node)
| XmlText (s : string).

(** [s.split(sep)] for a one-character separator. *)
Fixpoint splitOn (sep : ascii) (s : string) : list string :=
  match s with
  | EmptyString => [EmptyString]
  | String c s' =>
      if Ascii.eqb c sep then EmptyString :: splitOn sep s'
      else match splitOn sep s' with
           | first :: others => String c first :: others
           | [] => [String c EmptyString]
           end
  end.

(** [href.split('/').pop()] *)
Definition lastSegment (href : string) : string :=
  List.last (splitOn "/" href) EmptyString.

(** A [catch] that throws a new error made of a prefix and the message
    of the error caught. *)
Definition rethrow {A} (prefix : string) (c : completion A) : completion A :=
  match c with
  | Return a => Return a
  | Throw m => Throw (prefix ++ m)
  end.

(** What [createDomain] and [addPolicy] do with the data of the
    response: the part after the last [/] of the [href] of the first
    [link] element, whatever its prefix. *)
Definition linkTail (data : node) (noLink noTail : string)
  : completion string :=
  match parseXmlToDom data with
  | Throw m => Throw m
  | Return doc =>
      match select1 (selectAttributes "link" "href" doc) with
      | None => Throw noLink
      | Some hrefAttribute =>
          let href := snd hrefAttribute in
          let tail := if truthy href then Some (lastSegment href) else None in
          match orNull tail with
          | None => Throw noTail
          | Some t => Return t
          end
      end
  end.

Definition authzNamespace : string :=
  "http://authzforce.github.io/rest-api-model/xmlns/authz/5".

(** The document of the body of the request that creates a domain. *)
Definition domainProperties (domainId : option string) : node :=
  Element EmptyString "domainProperties"
    (("xmlns", authzNamespace)
       :: match orNull domainId with
          | Some id => [("externalId", id)]
          | None => []
          end)
    [Element EmptyString "description" []
       [Text "Test domain for XACML policy evaluation"]].

(** [js2xmlparser.parse('domainProperties', domainProperties)]: [None]
    when the library throws, which it does for an [externalId] with a
    character that XML does not allow. *)
Definition domainPropertiesXml (domainId : option string) : option node :=
  if match orNull domainId with
     | Some id => xmlChars id
     | None => true
     end
  then Some (domainProperties domainId)
  else None.

(** [response.data] as the client uses it.  [formatError] tells what
    [formatXml(data)] does, whose result is only logged: it calls
    [data.replace], which works on every string ([None]) and throws
    a TypeError of the given message on a value that is not a string.
    [parsed] is what [new DOMParser().parseFromString(data, 'text/xml')]
    does: the tree it builds, or the error it throws. *)
Record responseData : Type := {
  formatError : option string;
  parsed : completion node
}.

(** The data of a response whose text parses to [doc]. *)
Definition xmlData (doc : node) : responseData :=
  {| formatError := None; parsed := Return doc |}.

(** What awaiting a request of [axios] gives: a response, or an error
    with its message; [response] is [Some d] when the error object has a
    [response] property, [d] being what [error.response?.data] is. *)
Inductive reply : Type :=
| Replied (status : nat) (data : responseData)
| Failed (message : string) (response : option responseData).

(** [formatXml(data)], for the text it returns is only logged. *)
Definition formatXml (data : responseData) : completion unit :=
  match formatError data with
  | Some e => Throw e
  | None => Return tt
  end.

(** [linkTail] on the data of a response. *)
Definition linkTailOf (data : responseData) (noLink noTail : string)
  : completion string :=
  match parsed data with
  | Throw m => Throw m
  | Return tree => linkTail tree noLink noTail
  end.

Section Client.
(** The server and the network between the client and it. *)
Variable World : Type.
(** [await this.axios.post(url, body)] *)
Variable post : string -> requestBody -> World -> reply * World.
(** [await this.axios.get(url)] *)
Variable get : string -> World -> reply * World.
(** [await this.axios.delete(url)] *)
Variable delete : string -> World -> completion unit * World.
(** The message of the error that [js2xmlparser] throws for the body of
    [createDomain], and for the request of [evaluateRequest]. *)
Variable bodyError : option string -> string.
Variable requestError : XacmlRequest -> string.

(** The body is made before the [try]: an error of [js2xmlparser]
    leaves the function as it is, and nothing is sent. *)
Definition createDomain (domainId : option string) (w : World)
  : completion string * World :=
  match domainPropertiesXml domainId with
  | None => (Throw (bodyError domainId), w)
  | Some requestBody =>
      let (response, w') := post "/domains" (XmlTree requestBody) w in
      (rethrow "Failed to create domain: "
         match response with
         | Failed m _ => Throw m
         | Replied _ data =>
             linkTailOf data
               "No link element found in create domain response. Link element is required to extract domain ID."
               "Could not extract domain ID from response"
         end, w')
  end.

Definition deleteDomain (domainId : string) (w : World)
  : completion unit * World :=
  let (response, w') := delete ("/domains/" ++ domainId) w in
  (rethrow ("Failed to delete domain " ++ domainId ++ ": ") response, w').

(** In the [try], [formatXml(response.data)] is called for the log
    before the data is parsed.  The [catch] calls
    [formatXml(axiosError.response?.data)] when the error has a
    [response] property: a TypeError of that call leaves the function
    instead of the error with the prefix. *)
Definition addPolicy (domainId policyXml policyId : string) (w : World)
  : completion string * World :=
  let prefix := "Failed to add policy " ++ policyId ++ ": " in
  let (response, w') :=
    post ("/domains/" ++ domainId ++ "/pap/policies") (XmlText policyXml) w in
  (match response with
   | Replied _ data =>
       rethrow prefix
         match formatXml data with
         | Throw e => Throw e
         | Return _ =>
             linkTailOf data
               "No link element found in add policy response. Link element is required to extract policy version."
               "Could not extract policy version from response"
         end
   | Failed m (Some errorData) =>
       match formatXml errorData with
       | Throw e => Throw e
       | Return _ => Throw (prefix ++ m)
       end
   | Failed m None => Throw (prefix ++ m)
   end, w').

(** The request document is made before the [try]. *)
Definition evaluateRequest (domainId : string) (request : XacmlRequest)
           (w : World) : completion XacmlDecisionResponse * World :=
  match buildRequestXml request with
  | None => (Throw (requestError request), w)
  | Some requestXml =>
      let (response, w') :=
        post ("/domains/" ++ domainId ++ "/pdp") (XmlTree requestXml) w in
      (rethrow "Failed to evaluate request: "
         match response with
         | Failed m _ => Throw m
         | Replied _ data =>
             match formatXml data with
             | Throw e => Throw e
             | Return _ =>
                 match parsed data with
                 | Throw m => Throw m
                 | Return tree => parseDecisionResponse tree
                 end
             end
         end, w')
  end.

(** [formatXml(response.data)] is called for the log inside the [try],
    so a response whose data is not a string gives [false]. *)
Definition healthCheck (w : World) : completion bool * World :=
  let (response, w') := get "/domains" w in
  (match response with
   | Replied status data =>
       match formatXml data with
       | Throw _ => Return false
       | Return _ => Return (Nat.eqb status 200)
       end
   | Failed _ _ => Return false
   end, w').

(** [() => client.healthCheck()] as the condition of
    [XacmlTestUtils.waitForCondition]. *)
Definition healthCondition (w : World) : XacmlTestUtils.pollResult * World :=
  let (r, w') := healthCheck w in
  (match r with
   | Return true => XacmlTestUtils.Truthy
   | Return false => XacmlTestUtils.Falsy
   | Throw e => XacmlTestUtils.Rejects e
   end, w').

End Client.

(** A response that holds one link; the prefixes [ns2] and [ns5] are
    declared on it. *)
Definition linkResponse (href : string) : node :=
  Element "ns2" "link"
    [("xmlns:ns2", "http://www.w3.org/2005/Atom");
     ("xmlns:ns5", "http://www.w3.org/2005/Atom");
     ("href", href)] [].

End Lifecycle.

(* ================================================================== *)
(** ** More vocabulary for the readiness poll and the build script *)
(* ================================================================== *)

Module Readiness.
Import XacmlTestUtils.

(** The elapsed times at which the condition was called, in order. *)
Fixpoint pollTimes (trace : list event) : list Z :=
  match trace with
  | [] => []
  | Poll elapsed _ :: rest => elapsed :: pollTimes rest
  | Sleep _ :: rest => pollTimes rest
  end.

(** The calls of the condition, counted from [n], come no earlier than
    their number times [interval]. *)
Fixpoint spaced (interval n : Z) (trace : list event) : Prop :=
  match trace with
  | [] => True
  | Poll elapsed _ :: rest =>
      (n * interval <= elapsed)%Z /\ spaced interval (n + 1) rest
  | Sleep _ :: rest => spaced interval n rest
  end.

End Readiness.

Module BuildXacmlMore.
Import JsString BuildXacml.

(** [transformXacmlNamespace] up to the removal of the prefix. *)
Definition stripXacml3 (xmlContent : string) : string :=
  replaceAll matchXacml3Prefix EmptyString
    (replaceAll matchXmlnsXacml3 EmptyString xmlContent).

(** A text in which every white space character is a blank that stands
    alone. *)
Fixpoint singleBlanks (s : string) : bool :=
  match s with
  | EmptyString => true
  | String c s' =>
      (if isWhitespace c
       then Ascii.eqb c " "
            && match s' with
               | EmptyString => true
               | String d _ => negb (isWhitespace d)
               end
       else true)
      && singleBlanks s'
  end.

(** A text that does not begin with white space. *)
Definition headNotWhitespace (s : string) : bool :=
  match s with
  | EmptyString => true
  | String d _ => negb (isWhitespace d)
  end.

(** A line that is made of blanks and then a tag. *)
Definition isTagLine (line : string) : bool :=
  startsWith "<" (trimStart line).

(** The lines of a text: [out.split] at the line breaks. *)
Definition linesOf (out : string) : list string :=
  Lifecycle.splitOn (ascii_of_nat 10) out.

(** An entry that is blanks and then a tag, without a line break. *)
Definition tagLine (line : string) : Prop :=
  isTagLine line = true /\ includes newline line = false.

(** A pass that is made on the text from position [base] on, seen from
    the whole text. *)
Definition shift (base : nat) (it : iteration) : iteration :=
  match it with
  | Next i lvl res => Next (base + i) lvl res
  | other => other
  end.

(** A tag as a pass cuts it out of the text: it begins with [<], and its
    first [>] is its last character. *)
Definition isCutTag (tag : string) : Prop :=
  startsWith "<" tag = true /\ find ">" tag = Some (String.length tag - 1).

(** The line that one pass adds, with the level before and after it. *)
Inductive emits : nat -> string -> nat -> Prop :=
| emits_declaration lvl tag :
    isCutTag tag ->
    startsWith "<?" tag || startsWith "<!--" tag = true ->
    emits lvl tag lvl
| emits_closing lvl tag :
    isCutTag tag ->
    startsWith "<?" tag || startsWith "<!--" tag = false ->
    startsWith "</" tag = true ->
    emits (S lvl) (indent lvl ++ tag) lvl
| emits_selfClosing lvl tag :
    isCutTag tag ->
    startsWith "<?" tag || startsWith "<!--" tag = false ->
    startsWith "</" tag = false ->
    endsWith "/>" tag = true ->
    emits lvl (indent lvl ++ tag) lvl
| emits_inline lvl tag name inner :
    isCutTag tag ->
    isOpeningTag tag = true ->
    matchTagName tag = Some name ->
    includes "<" inner = false ->
    hasNonWhitespace inner = true ->
    emits lvl (indent lvl ++ tag ++ inner ++ "</" ++ name ++ ">") lvl
| emits_regular lvl tag name :
    isCutTag tag ->
    isOpeningTag tag = true ->
    matchTagName tag = Some name ->
    emits lvl (indent lvl ++ tag) (S lvl).

(** Lines that passes add one after the other, from a level on. *)
Fixpoint chain (lvl : nat) (lines : list string) : Prop :=
  match lines with
  | [] => True
  | line :: rest => exists lvl', emits lvl line lvl' /\ chain lvl' rest
  end.

(** A text that is empty, or in which only white space comes before the
    first [<]. *)
Definition headBlank (text : string) : Prop :=
  text = EmptyString
  \/ exists blank r,
      text = blank ++ String "<" r /\ hasNonWhitespace blank = false.

(** What follows a line in the joined text. *)
Definition continuation (rest : list string) : string :=
  match rest with
  | [] => EmptyString
  | _ => newline ++ join newline rest
  end.

(** A tag name that the pattern for tag names reads in full: letters,
    digits, [_], [:] and [-], at least one. *)
Definition isPlainName (name : string) : bool :=
  truthy name && allChars isNameChar name.

(** What stands between the name and the [>] of an opening tag that is
    not self closing: nothing, or a text that does not continue the name,
    has no [>] and does not end with [/]. *)
Definition isTagRest (attrs : string) : bool :=
  match attrs with
  | EmptyString => true
  | String c _ => negb (isNameChar c)
  end
  && negb (includes ">" attrs) && negb (endsWith "/" attrs).

(** A content that is only text, and not only white space. *)
Definition isInlineText (text : string) : bool :=
  negb (includes "<" text) && hasNonWhitespace text.

Definition openingTag (name attrs : string) : string :=
  "<" ++ name ++ attrs ++ ">".

Definition closingTag (name : string) : string := "</" ++ name ++ ">".

(** An element that holds a text and nothing else. *)
Definition textLeaf (name attrs text : string) : string :=
  openingTag name attrs ++ text ++ closingTag name.

(** A leaf whose tag name has a dot, inside a parent element. *)
Definition dottedLeafInParent : string := "<B><a.b>text</a.b></B>".

End BuildXacmlMore.

(* ================================================================== *)
(** * Properties *)
(* ================================================================== *)

(** ** Strings *)

Module StringFacts.

Lemma length_append a b :
  String.length (a ++ b) = String.length a + String.length b.
Proof.
  induction a as [|c a IH]; [reflexivity|]. simpl. rewrite IH. reflexivity.
Qed.

End StringFacts.

(** ** Lists *)

Module ListFacts.
Local Open Scope list_scope.

Lemma filter_map_comm {A B} (f : B -> bool) (g : A -> B) (l : list A) :
  filter f (map g l) = map g (filter (fun a => f (g a)) l).
Proof.
  induction l as [|a l IH]; simpl; [reflexivity|].
  destruct (f (g a)); simpl; rewrite IH; reflexivity.
Qed.

Lemma filter_all {A} (f : A -> bool) (l : list A) :
  (forall a, f a = true) -> filter f l = l.
Proof.
  intros H. induction l as [|a l IH]; simpl; [reflexivity|].
  rewrite H, IH. reflexivity.
Qed.

Lemma flat_map_nil {A B} (f : A -> list B) (l : list A) :
  Forall (fun a => f a = []) l -> flat_map f l = [].
Proof.
  induction 1 as [|a l Ha _ IH]; simpl; [reflexivity|].
  rewrite Ha, IH. reflexivity.
Qed.

Lemma filter_flat_map_nil {A B} (p : B -> bool) (f : A -> list B) l :
  filter p (flat_map f l) = [] -> Forall (fun a => filter p (f a) = []) l.
Proof.
  induction l as [|a l IH]; simpl; intros H; constructor.
  - rewrite filter_app in H. apply app_eq_nil in H. apply H.
  - apply IH. rewrite filter_app in H. apply app_eq_nil in H. apply H.
Qed.

End ListFacts.

(** ** The encoder *)

Module EncoderFacts.
Import JsString Dom Encoder TestRequest ListFacts.
Local Open Scope list_scope.

(** *** How the category words occur in the three AttributeId prefixes *)

Lemma subject_in_subjectId k :
  includes "subject" (subjectIdPrefix ++ k)%string = true.
Proof. reflexivity. Qed.

Lemma resource_in_resourceId k :
  includes "resource" (resourceIdPrefix ++ k)%string = true.
Proof. reflexivity. Qed.

Lemma action_in_actionId k :
  includes "action" (actionIdPrefix ++ k)%string = true.
Proof. reflexivity. Qed.

Lemma subject_in_resourceId k :
  includes "subject" (resourceIdPrefix ++ k)%string = includes "subject" k.
Proof. reflexivity. Qed.

Lemma subject_in_actionId k :
  includes "subject" (actionIdPrefix ++ k)%string = includes "subject" k.
Proof. reflexivity. Qed.

Lemma resource_in_subjectId k :
  includes "resource" (subjectIdPrefix ++ k)%string = includes "resource" k.
Proof. reflexivity. Qed.

Lemma resource_in_actionId k :
  includes "resource" (actionIdPrefix ++ k)%string = includes "resource" k.
Proof. reflexivity. Qed.

Lemma action_in_subjectId k :
  includes "action" (subjectIdPrefix ++ k)%string = includes "action" k.
Proof. reflexivity. Qed.

Lemma action_in_resourceId k :
  includes "action" (resourceIdPrefix ++ k)%string = includes "action" k.
Proof. reflexivity. Qed.

Lemma environmentId_not_prefix_subject k :
  startsWith environmentIdPrefix (subjectIdPrefix ++ k)%string = false.
Proof. reflexivity. Qed.

Lemma environmentId_not_prefix_resource k :
  startsWith environmentIdPrefix (resourceIdPrefix ++ k)%string = false.
Proof. reflexivity. Qed.

Lemma environmentId_not_prefix_action k :
  startsWith environmentIdPrefix (actionIdPrefix ++ k)%string = false.
Proof. reflexivity. Qed.

(** *** Filtering the attributes made from one list of pairs *)

Lemma filterByWord_app w l1 l2 :
  filterByWord w (l1 ++ l2) = filterByWord w l1 ++ filterByWord w l2.
Proof. apply filter_app. Qed.

Lemma filterByWord_keep w p (entries : list (string * string)) :
  (forall k, includes w (p ++ k)%string = true) ->
  filterByWord w (map (mkAttribute p) entries) = map (mkAttribute p) entries.
Proof.
  intros Hin. induction entries as [|kv rest IH]; simpl; [reflexivity|].
  rewrite Hin. f_equal. exact IH.
Qed.

Lemma filterByWord_drop w p ws (entries : list (string * string)) :
  (forall k, includes w (p ++ k)%string = includes w k) ->
  In w ws ->
  keysAvoid ws entries = true ->
  filterByWord w (map (mkAttribute p) entries) = [].
Proof.
  intros Hin Hw. induction entries as [|kv rest IH]; simpl; [reflexivity|].
  intros Hav. apply andb_true_iff in Hav. destruct Hav as [Hkv Hrest].
  rewrite Hin.
  rewrite forallb_forall in Hkv. specialize (Hkv w Hw).
  apply negb_true_iff in Hkv. rewrite Hkv. auto.
Qed.

Lemma flat_map_mkAttribute p (l : list AttributeBag) :
  flat_map (fun res => map (mkAttribute p) res) l
  = map (mkAttribute p) (List.concat l).
Proof.
  induction l as [|b l IH]; simpl; [reflexivity|].
  rewrite map_app, IH. reflexivity.
Qed.

Lemma keysAvoid_app ws l1 l2 :
  keysAvoid ws (l1 ++ l2) = keysAvoid ws l1 && keysAvoid ws l2.
Proof. apply forallb_app. Qed.

Lemma collectAttributes_by_category q :
  collectAttributes q
  = attributesOf subjectIdPrefix q CSubject
    ++ attributesOf resourceIdPrefix q CResource
    ++ attributesOf actionIdPrefix q CAction.
Proof.
  unfold collectAttributes, attributesOf, categoryEntries, pushBag, pushBags,
    bagEntries.
  destruct (subject q), (resource q), (resources q), (action q); simpl;
    rewrite ?flat_map_mkAttribute, ?map_app, ?app_nil_r, <- ?app_assoc;
    reflexivity.
Qed.

Ltac split_plain H :=
  unfold plainKeys in H;
  repeat (apply andb_true_iff in H;
          let H' := fresh "Hk" in destruct H as [H H']).

Lemma subject_filter_plain q :
  plainKeys q = true ->
  filterByWord "subject" (collectAttributes q)
  = attributesOf subjectIdPrefix q CSubject.
Proof.
  intros H. split_plain H.
  rewrite collectAttributes_by_category, !filterByWord_app.
  unfold attributesOf.
  rewrite (filterByWord_keep _ _ _ subject_in_subjectId).
  rewrite (filterByWord_drop "subject" resourceIdPrefix
             ["subject"; "action"] _ subject_in_resourceId);
    [|simpl; auto|assumption].
  rewrite (filterByWord_drop "subject" actionIdPrefix
             ["subject"; "resource"] _ subject_in_actionId);
    [|simpl; auto|assumption].
  apply app_nil_r.
Qed.

Lemma resource_filter_plain q :
  plainKeys q = true ->
  filterByWord "resource" (collectAttributes q)
  = attributesOf resourceIdPrefix q CResource.
Proof.
  intros H. split_plain H.
  rewrite collectAttributes_by_category, !filterByWord_app.
  unfold attributesOf.
  rewrite (filterByWord_keep _ _ _ resource_in_resourceId).
  rewrite (filterByWord_drop "resource" subjectIdPrefix
             ["resource"; "action"] _ resource_in_subjectId);
    [|simpl; auto|assumption].
  rewrite (filterByWord_drop "resource" actionIdPrefix
             ["subject"; "resource"] _ resource_in_actionId);
    [|simpl; auto|assumption].
  simpl. apply app_nil_r.
Qed.

Lemma action_filter_plain q :
  plainKeys q = true ->
  filterByWord "action" (collectAttributes q)
  = attributesOf actionIdPrefix q CAction.
Proof.
  intros H. split_plain H.
  rewrite collectAttributes_by_category, !filterByWord_app.
  unfold attributesOf.
  rewrite (filterByWord_keep _ _ _ action_in_actionId).
  rewrite (filterByWord_drop "action" subjectIdPrefix
             ["resource"; "action"] _ action_in_subjectId);
    [|simpl; auto|assumption].
  rewrite (filterByWord_drop "action" resourceIdPrefix
             ["subject"; "action"] _ action_in_resourceId);
    [|simpl; auto|assumption].
  reflexivity.
Qed.

(** *** The produced document read back *)

Lemma wrappers_build q :
  wrappers (requestDocument q)
  = map attributesElement (Attributes (buildRequestObj q)).
Proof.
  unfold wrappers, requestDocument, js2xml, childrenOf.
  rewrite filter_map_comm. f_equal. apply filter_all. reflexivity.
Qed.

Lemma wrappersOf_build c q :
  wrappersOf c (requestDocument q)
  = map attributesElement
      (filter (fun o => String.eqb (Category o) c)
         (Attributes (buildRequestObj q))).
Proof.
  unfold wrappersOf. rewrite wrappers_build, filter_map_comm. reflexivity.
Qed.

Lemma attributeElements_wrapper o :
  attributeElements (attributesElement o)
  = map attributeElement (Attribute o).
Proof.
  unfold attributeElements, attributesElement, childrenOf.
  rewrite filter_map_comm. f_equal. apply filter_all. reflexivity.
Qed.

Lemma wrapperContents_build q :
  wrapperContents (requestDocument q)
  = map (fun o => (Some (Category o),
                   map (fun a => Some (AttributeId a)) (Attribute o)))
      (Attributes (buildRequestObj q)).
Proof.
  unfold wrapperContents. rewrite wrappers_build, map_map.
  apply map_ext. intros o. rewrite attributeElements_wrapper, map_map.
  reflexivity.
Qed.

(** The three candidate wrappers, before the empty ones are dropped. *)
Lemma wrappersOf_resource q :
  wrappersOf resourceCategory (requestDocument q)
  = match filterByWord "resource" (collectAttributes q) with
    | [] => []
    | l => [attributesElement {| Category := resourceCategory;
                                 Attribute := l |}]
    end.
Proof.
  rewrite wrappersOf_build. unfold buildRequestObj. simpl Attributes.
  destruct (filterByWord "subject" (collectAttributes q)),
    (filterByWord "resource" (collectAttributes q)),
    (filterByWord "action" (collectAttributes q)); reflexivity.
Qed.

Lemma in_filterByWord_resource q a :
  In a (attributesOf resourceIdPrefix q CResource) ->
  In a (filterByWord "resource" (collectAttributes q)).
Proof.
  intros Ha. unfold filterByWord. apply filter_In. split.
  - rewrite collectAttributes_by_category.
    apply in_or_app. right. apply in_or_app. left. exact Ha.
  - unfold attributesOf in Ha. apply in_map_iff in Ha.
    destruct Ha as [kv [<- _]]. apply resource_in_resourceId.
Qed.

Lemma collected_ids_not_environment q :
  Forall (fun a => startsWith environmentIdPrefix (AttributeId a) = false)
    (collectAttributes q).
Proof.
  rewrite collectAttributes_by_category. unfold attributesOf.
  repeat (apply Forall_app; split);
    apply Forall_forall; intros a Ha; apply in_map_iff in Ha;
    destruct Ha as [kv [<- _]]; reflexivity.
Qed.

Lemma Forall_filterByWord (P : AttributeObj -> Prop) w l :
  Forall P l -> Forall P (filterByWord w l).
Proof.
  intros H. apply Forall_forall. intros a Ha.
  apply filter_In in Ha. rewrite Forall_forall in H. apply H, Ha.
Qed.

Lemma own_word_in_id c k :
  c <> CEnvironment ->
  includes (categoryWord c) (idPrefix c ++ k)%string = true.
Proof. destruct c; intros H; reflexivity. Qed.

Lemma in_collectAttributes q c a :
  c <> CEnvironment ->
  In a (attributesOf (idPrefix c) q c) -> In a (collectAttributes q).
Proof.
  intros Hc Ha. rewrite collectAttributes_by_category.
  destruct c; [ | | |contradiction Hc; reflexivity].
  - apply in_or_app. left. exact Ha.
  - apply in_or_app. right. apply in_or_app. left. exact Ha.
  - apply in_or_app. right. apply in_or_app. right. exact Ha.
Qed.

Lemma in_own_filter q c a :
  c <> CEnvironment ->
  In a (attributesOf (idPrefix c) q c) ->
  In a (filterByWord (categoryWord c) (collectAttributes q)).
Proof.
  intros Hc Ha. unfold filterByWord. apply filter_In. split.
  - apply in_collectAttributes with c; assumption.
  - unfold attributesOf in Ha. apply in_map_iff in Ha.
    destruct Ha as [kv [<- _]]. apply own_word_in_id, Hc.
Qed.

(** *** When [js2xmlparser] accepts the request *)

Lemma allChars_app p a b :
  allChars p (a ++ b)%string = allChars p a && allChars p b.
Proof.
  induction a as [|c a IH]; [reflexivity|].
  cbn [append allChars]. rewrite IH. apply andb_assoc.
Qed.

Lemma validAttributeObj_mk c kv :
  c <> CEnvironment ->
  validAttributeObj (mkAttribute (idPrefix c) kv)
  = xmlChars (fst kv) && xmlChars (snd kv).
Proof.
  intros Hc. unfold validAttributeObj, mkAttribute, xmlChars.
  cbn [AttributeId IncludeInResult DataType value].
  rewrite allChars_app.
  replace (allChars isXmlChar (idPrefix c)) with true
    by (destruct c; [ | | |contradiction Hc]; reflexivity).
  replace (allChars isXmlChar "false") with true by reflexivity.
  replace (allChars isXmlChar xsString) with true by reflexivity.
  cbn [andb]. rewrite !andb_true_r. reflexivity.
Qed.

Lemma forallb_valid_attributesOf q c :
  c <> CEnvironment ->
  forallb validAttributeObj (attributesOf (idPrefix c) q c)
  = forallb (fun kv => xmlChars (fst kv) && xmlChars (snd kv))
      (categoryEntries q c).
Proof.
  intros Hc. unfold attributesOf.
  induction (categoryEntries q c) as [|kv l IH]; [reflexivity|].
  cbn [map forallb]. rewrite IH, (validAttributeObj_mk c kv Hc).
  reflexivity.
Qed.

Lemma collected_valid q :
  forallb validAttributeObj (collectAttributes q) = xmlSafe q.
Proof.
  rewrite collectAttributes_by_category, !forallb_app.
  change subjectIdPrefix with (idPrefix CSubject).
  change resourceIdPrefix with (idPrefix CResource).
  change actionIdPrefix with (idPrefix CAction).
  rewrite (forallb_valid_attributesOf q CSubject) by discriminate.
  rewrite (forallb_valid_attributesOf q CResource) by discriminate.
  rewrite (forallb_valid_attributesOf q CAction) by discriminate.
  unfold xmlSafe. cbn [forallb]. rewrite andb_true_r. reflexivity.
Qed.

(** Every attribute is written at least once, under the wrapper of its
    own category; so the request is accepted exactly when every
    attribute is. *)
Lemma validRequestObj_build q :
  validRequestObj (buildRequestObj q)
  = forallb validAttributeObj (collectAttributes q).
Proof.
  set (attrs := collectAttributes q).
  assert (E : validRequestObj (buildRequestObj q)
              = forallb validAttributeObj (filterByWord "subject" attrs)
                && forallb validAttributeObj (filterByWord "resource" attrs)
                && forallb validAttributeObj (filterByWord "action" attrs)).
  { unfold validRequestObj, buildRequestObj. fold attrs.
    cbn [xmlns ReturnPolicyIdList CombinedDecision Attributes].
    replace (xmlChars "urn:oasis:names:tc:xacml:3.0:core:schema:wd-17")
      with true by reflexivity.
    replace (xmlChars "false") with true by reflexivity.
    cbn [andb].
    destruct (filterByWord "subject" attrs) as [|s1 ls],
      (filterByWord "resource" attrs) as [|r1 lr],
      (filterByWord "action" attrs) as [|a1 la];
      cbn [filter Attribute List.length Nat.eqb negb forallb];
      unfold validAttributesObj; cbn [Category Attribute forallb];
      replace (xmlChars subjectCategory) with true by reflexivity;
      replace (xmlChars resourceCategory) with true by reflexivity;
      replace (xmlChars actionCategory) with true by reflexivity;
      cbn [andb]; rewrite ?andb_true_r, ?andb_assoc; reflexivity. }
  rewrite E. apply Bool.eq_iff_eq_true.
  rewrite !andb_true_iff, !forallb_forall. split.
  - intros [[HS HR] HA] a Ha. unfold attrs in Ha.
    rewrite collectAttributes_by_category in Ha.
    apply in_app_or in Ha. destruct Ha as [Ha | Ha];
      [|apply in_app_or in Ha; destruct Ha as [Ha | Ha]].
    + apply HS. apply (in_own_filter q CSubject); [discriminate | exact Ha].
    + apply HR. apply (in_own_filter q CResource); [discriminate | exact Ha].
    + apply HA. apply (in_own_filter q CAction); [discriminate | exact Ha].
  - intros H. repeat split; intros a Ha; apply H;
      apply filter_In in Ha; apply Ha.
Qed.

(** The outcome of [buildRequestXml]. *)
Lemma buildRequestXml_outcome q :
  buildRequestXml q = if xmlSafe q then Some (requestDocument q) else None.
Proof.
  unfold buildRequestXml, js2xmlparserParse.
  rewrite validRequestObj_build, collected_valid. reflexivity.
Qed.

Lemma encoded_intro q (P : node -> Prop) :
  P (requestDocument q) -> encoded q P.
Proof.
  intros H. unfold encoded. rewrite buildRequestXml_outcome.
  destruct (xmlSafe q); [exact H | reflexivity].
Qed.

Lemma buildRequestXml_returns q doc :
  buildRequestXml q = Some doc -> doc = requestDocument q.
Proof.
  rewrite buildRequestXml_outcome. destruct (xmlSafe q); [|discriminate].
  intros H. injection H as <-. reflexivity.
Qed.

(** *** The claims about the encoder *)

(** C2, evaluated at the query [{subject: {'resource-owner': 'alice'}}]:
    the one attribute of the subject bag is emitted twice, under the
    access-subject wrapper and under the resource wrapper, because the
    wrappers are filled by looking for the words subject, resource and
    action anywhere in the AttributeId, the caller's key included. *)
Theorem cross_category_key_emitted_twice :
  option_map wrapperContents (buildRequestXml crossKeyQuery)
  = Some [ (Some subjectCategory,
            [Some "urn:oasis:names:tc:xacml:1.0:subject:resource-owner"]);
           (Some resourceCategory,
            [Some "urn:oasis:names:tc:xacml:1.0:subject:resource-owner"]) ].
Proof. reflexivity. Qed.

(** C3 as stated fails: the query whose only non-empty bag is the
    environment bag has an attribute in the environment category, but
    document that is returned for it has no [<Attributes>] element of
    that category (it has none at all). *)
Lemma environment_only_query_refutes_one_wrapper_per_category :
  hasNonEmptyBag environmentOnlyQuery = true
  /\ option_map wrappers (buildRequestXml environmentOnlyQuery) = Some []
  /\ ~ oneWrapperPerNonEmptyCategory environmentOnlyQuery.
Proof.
  split; [reflexivity|]. split; [reflexivity|].
  intros H. specialize (H _ eq_refl CEnvironment). discriminate H.
Qed.

(** C3, amended: for every query in which no key contains the name of
    another category, the document has exactly one [<Attributes>]
    element for each of the subject, resource and action categories that
    has at least one attribute, none for those that have no attribute,
    and never one for the environment category.  This holds of every
    document that [buildRequestXml] returns, and it returns one unless a
    key or value has a character that XML does not allow ([encoded]). *)
Theorem one_wrapper_per_encoded_category (q : XacmlRequest) :
  plainKeys q = true ->
  encoded q (fun doc =>
    (forall c, c <> CEnvironment ->
       List.length (wrappersOf (categoryUrn c) doc)
       = if isEmpty (categoryEntries q c) then 0 else 1)
    /\ wrappersOf (categoryUrn CEnvironment) doc = []
    /\ List.length (wrappers doc)
       = List.length
           (filter (fun c => negb (isEmpty (categoryEntries q c)))
              [CSubject; CResource; CAction])).
Proof.
  intros Hplain. apply encoded_intro.
  assert (Hobj : Attributes (buildRequestObj q)
                 = filter (fun o => negb (Nat.eqb (List.length (Attribute o)) 0))
                     [ {| Category := subjectCategory;
                          Attribute := attributesOf subjectIdPrefix q CSubject |};
                       {| Category := resourceCategory;
                          Attribute := attributesOf resourceIdPrefix q CResource |};
                       {| Category := actionCategory;
                          Attribute := attributesOf actionIdPrefix q CAction |} ]).
  { unfold buildRequestObj. simpl Attributes.
    rewrite (subject_filter_plain q Hplain), (resource_filter_plain q Hplain),
      (action_filter_plain q Hplain). reflexivity. }
  repeat split.
  - intros c Hc. rewrite wrappersOf_build, Hobj, length_map.
    unfold attributesOf.
    destruct c; [ | | | contradiction Hc; reflexivity];
      destruct (categoryEntries q CSubject), (categoryEntries q CResource),
        (categoryEntries q CAction); reflexivity.
  - rewrite wrappersOf_build, Hobj. unfold attributesOf.
    destruct (categoryEntries q CSubject), (categoryEntries q CResource),
      (categoryEntries q CAction); reflexivity.
  - rewrite wrappers_build, Hobj, length_map. unfold attributesOf.
    cbn [filter].
    destruct (categoryEntries q CSubject), (categoryEntries q CResource),
      (categoryEntries q CAction); reflexivity.
Qed.

Lemma one_wrapper_per_encoded_category_witness :
  plainKeys exampleQuery = true
  /\ exists doc,
      buildRequestXml exampleQuery = Some doc
      /\ List.length (wrappers doc) = 2.
Proof.
  split; [reflexivity|].
  pose proof (one_wrapper_per_encoded_category exampleQuery eq_refl) as H.
  unfold encoded in H.
  destruct (buildRequestXml exampleQuery) as [doc|]; [|discriminate H].
  exists doc. split; [reflexivity|]. apply H.
Defined.

(** C5: the query with two [resource-id] bags in [resources] and the
    action [read] gives one resource-category [<Attributes>] element
    with exactly two [<Attribute>] elements, both with the resource-id
    AttributeId, and the two values as their texts; and for every query
    whose document is returned there is at most one resource wrapper,
    which holds the attributes of the [resource] bag and of every bag of
    [resources] alike. *)
Theorem resources_merged_in_one_wrapper :
  (exists doc w,
      buildRequestXml exampleQuery = Some doc
      /\ wrappersOf resourceCategory doc = [w]
      /\ map (fun a => (getAttribute "AttributeId" a, attributeValueText a))
           (attributeElements w)
         = [ (Some "urn:oasis:names:tc:xacml:1.0:resource:resource-id",
              "urn:klf:ds:person");
             (Some "urn:oasis:names:tc:xacml:1.0:resource:resource-id",
              "urn:klf:ds:field:person.name") ])
  /\ forall q,
      encoded q (fun doc =>
        let fromBags := attributesOf resourceIdPrefix q CResource in
        List.length (wrappersOf resourceCategory doc) <= 1
        /\ (fromBags = []
            \/ exists w,
                wrappersOf resourceCategory doc = [w]
                /\ incl (map attributeElement fromBags)
                     (attributeElements w))).
Proof.
  split.
  - eexists. eexists. split; [reflexivity|]. split; reflexivity.
  - intros q. apply encoded_intro. intros fromBags.
    rewrite wrappersOf_resource.
    pose proof (in_filterByWord_resource q) as Hin. fold fromBags in Hin.
    destruct (filterByWord "resource" (collectAttributes q)) as [|a l] eqn:E.
    + split; [simpl; lia|]. left.
      destruct fromBags as [|b rest]; [reflexivity|].
      destruct (Hin b (or_introl eq_refl)).
    + split; [simpl; lia|]. right. eexists. split; [reflexivity|].
      rewrite attributeElements_wrapper. simpl Attribute.
      intros x Hx. apply in_map_iff in Hx. destruct Hx as [b [<- Hb]].
      apply in_map, Hin, Hb.
Qed.

(** C10: what [buildRequestXml] does (the document it returns, or the
    error of [js2xmlparser]) does not depend on the environment bag; a
    document that it returns has no [<Attributes>] element of the
    environment category, and no [<Attribute>] in it has an AttributeId
    that starts with the environment prefix. *)
Theorem environment_never_encoded (q : XacmlRequest)
        (e : option AttributeBag) :
  buildRequestXml (withEnvironment q e) = buildRequestXml q
  /\ encoded q (fun doc =>
       wrappersOf environmentCategory doc = []
       /\ Forall (fun wc =>
                    Forall (fun id =>
                              match id with
                              | Some i =>
                                  startsWith environmentIdPrefix i = false
                              | None => False
                              end) (snd wc))
            (wrapperContents doc)).
Proof.
  split; [reflexivity|]. apply encoded_intro. split.
  - rewrite wrappersOf_build. unfold buildRequestObj. simpl Attributes.
    destruct (filterByWord "subject" (collectAttributes q)),
      (filterByWord "resource" (collectAttributes q)),
      (filterByWord "action" (collectAttributes q)); reflexivity.
  - rewrite wrapperContents_build. apply Forall_map.
    assert (Hw : forall w,
               Forall (fun id => match id with
                                 | Some i =>
                                     startsWith environmentIdPrefix i = false
                                 | None => False
                                 end)
                 (map (fun a => Some (AttributeId a))
                    (filterByWord w (collectAttributes q)))).
    { intros w. apply Forall_map, Forall_filterByWord,
        collected_ids_not_environment. }
    unfold buildRequestObj. cbn [Attributes].
    apply Forall_forall. intros o Ho. apply filter_In in Ho.
    destruct Ho as [Ho _]. simpl in Ho.
    destruct Ho as [<- | [<- | [<- | []]]]; apply Hw.
Qed.

End EncoderFacts.

(** ** The decoder *)

Module DecoderFacts.
Import JsString Dom Decoder ListFacts.
Local Open Scope list_scope.

(** Induction on documents, with the property known for the children. *)
Lemma node_induction (P : node -> Prop) :
  (forall d, P (Text d)) ->
  (forall p l attrs cs, Forall P cs -> P (Element p l attrs cs)) ->
  forall n, P n.
Proof.
  intros HText HElement.
  fix IH 1. intros [p l attrs cs | d].
  - apply HElement. induction cs as [|c cs IHcs].
    + constructor.
    + constructor; [apply IH | exact IHcs].
  - apply HText.
Qed.

(** Without an element called [name] there is no text of such an
    element. *)
Lemma selectTexts_without_element name doc :
  selectByLocalName name doc = [] -> selectTexts name doc = [].
Proof.
  unfold selectByLocalName, selectTexts.
  induction doc as [d | p l attrs cs IH] using node_induction;
    [reflexivity|].
  simpl. destruct (String.eqb l name) eqn:E; [discriminate|].
  intros H. apply filter_flat_map_nil in H.
  apply flat_map_nil. rewrite Forall_forall in *.
  intros c Hc. apply (IH c Hc), (H c Hc).
Qed.

(** The serialized form of an attribute node is never the empty string,
    so [statusCode || null] keeps it. *)
Lemma orNull_attrToString a :
  orNull (Some (attrToString a)) = Some (attrToString a).
Proof. reflexivity. Qed.

(** *** Prefixes and the selections *)

Lemma descendantsOrSelf_mapPrefix f n :
  descendantsOrSelf (mapPrefix f n) = map (mapPrefix f) (descendantsOrSelf n).
Proof.
  induction n as [d | p l attrs cs IH] using node_induction;
    [reflexivity|].
  simpl. f_equal. induction IH as [|c cs Hc _ IHcs]; simpl; [reflexivity|].
  rewrite map_app, Hc, IHcs. reflexivity.
Qed.

Lemma hasLocalName_mapPrefix f name n :
  hasLocalName name (mapPrefix f n) = hasLocalName name n.
Proof. destruct n; reflexivity. Qed.

Lemma selectByLocalName_mapPrefix f name doc :
  selectByLocalName name (mapPrefix f doc)
  = map (mapPrefix f) (selectByLocalName name doc).
Proof.
  unfold selectByLocalName.
  rewrite descendantsOrSelf_mapPrefix, filter_map_comm.
  f_equal. apply filter_ext. intros n. apply hasLocalName_mapPrefix.
Qed.

Lemma textsGo_mapPrefix f name under n :
  textsGo name under (mapPrefix f n) = textsGo name under n.
Proof.
  revert under.
  induction n as [d | p l attrs cs IH] using node_induction;
    intros under; [reflexivity|].
  simpl. induction IH as [|c cs Hc _ IHcs]; simpl; [reflexivity|].
  rewrite Hc, IHcs. reflexivity.
Qed.

Lemma attributesNamed_mapPrefix f attr n :
  attributesNamed attr (mapPrefix f n) = attributesNamed attr n.
Proof. destruct n; reflexivity. Qed.

Lemma selectAttributes_mapPrefix f name attr doc :
  selectAttributes name attr (mapPrefix f doc) = selectAttributes name attr doc.
Proof.
  unfold selectAttributes. rewrite selectByLocalName_mapPrefix.
  induction (selectByLocalName name doc) as [|n l IH]; simpl;
    [reflexivity|].
  rewrite attributesNamed_mapPrefix, IH. reflexivity.
Qed.

Lemma mapPrefix_mapPrefix f g n :
  mapPrefix f (mapPrefix g n) = mapPrefix (fun p => f (g p)) n.
Proof.
  induction n as [d | p l attrs cs IH] using node_induction;
    [reflexivity|].
  simpl. f_equal. rewrite map_map. apply map_ext_Forall. exact IH.
Qed.

(** No tag that carries the prefix [ns3] is called [parsererror]. *)
Lemma ns3_no_parsererror doc :
  getElementsByTagName "parsererror" (mapPrefix (fun _ => "ns3") doc) = [].
Proof.
  unfold getElementsByTagName.
  rewrite descendantsOrSelf_mapPrefix, filter_map_comm.
  replace (filter _ (descendantsOrSelf doc)) with (@nil node);
    [reflexivity|].
  symmetry. induction (descendantsOrSelf doc) as [|n l IH];
    [reflexivity|].
  simpl. destruct n; exact IH.
Qed.

(** Once both documents pass the parser-error check, decoding commutes
    with any renaming of prefixes. *)
Lemma decode_mapPrefix f doc :
  getElementsByTagName "parsererror" doc = [] ->
  getElementsByTagName "parsererror" (mapPrefix f doc) = [] ->
  parseDecisionResponse (mapPrefix f doc)
  = mapNodes (mapPrefix f) (parseDecisionResponse doc).
Proof.
  intros H0 H1. unfold parseDecisionResponse, parseXmlToDom.
  rewrite H0, H1. unfold selectTexts.
  rewrite textsGo_mapPrefix, selectAttributes_mapPrefix,
    !selectByLocalName_mapPrefix.
  destruct (orNull _); reflexivity.
Qed.

(** *** The claims about the decoder *)

(** C1: a response document without any element whose local name is
    [Decision] makes [parseDecisionResponse] throw; no decision, default
    or other, is returned. *)
Theorem missing_decision_throws (doc : node) :
  selectByLocalName "Decision" doc = [] ->
  (exists m, parseDecisionResponse doc = Throw m)
  /\ forall r, parseDecisionResponse doc <> Return r.
Proof.
  intros H. apply selectTexts_without_element in H.
  unfold parseDecisionResponse.
  destruct (parseXmlToDom doc) as [d | m] eqn:E.
  - assert (d = doc) as ->.
    { unfold parseXmlToDom in E.
      destruct (getElementsByTagName "parsererror" doc);
        [injection E; auto | discriminate]. }
    rewrite H. simpl. split; [eexists; reflexivity | discriminate].
  - split; [eexists; reflexivity | discriminate].
Qed.

Lemma missing_decision_throws_witness :
  selectByLocalName "Decision" (Element EmptyString "Response" [] []) = []
  /\ exists m,
      parseDecisionResponse (Element EmptyString "Response" [] []) = Throw m.
Proof.
  split; [reflexivity|].
  apply (missing_decision_throws (Element EmptyString "Response" [] [])).
  reflexivity.
Defined.

(** Declaring the prefix on a root element [ns3:Response] changes
    nothing of what is decoded: the root is none of the elements that
    are selected. *)
Lemma decode_declared_response d attrs cs :
  parseDecisionResponse (declare d (Element "ns3" "Response" attrs cs))
  = parseDecisionResponse (Element "ns3" "Response" attrs cs).
Proof.
  unfold declare.
  generalize (if existsb (fun a => String.eqb (fst a) (fst d)) attrs
              then attrs else (attrs ++ [d])%list).
  intros attrs'.
  unfold parseDecisionResponse, parseXmlToDom, getElementsByTagName,
    selectTexts, selectAttributes, selectByLocalName.
  cbn [descendantsOrSelf filter hasTagName hasLocalName tagName].
  change ("ns3" ++ ":" ++ "Response" =? "parsererror")%string with false.
  cbv iota.
  destruct (filter (hasTagName "parsererror") (flat_map descendantsOrSelf cs));
    [|reflexivity].
  cbn [textsGo descendantsOrSelf filter hasLocalName].
  change ("Response" =? "Decision")%string with false.
  change ("Response" =? "StatusCode")%string with false.
  change ("Response" =? "Obligation")%string with false.
  change ("Response" =? "Advice")%string with false.
  reflexivity.
Qed.

(** C4 as stated fails: for a Permit response with one obligation, the
    [ns3:] variant (with the prefix declared on the root element) and the
    variant without prefixes do not decode to the same result, since the
    obligations are the selected elements themselves, tags included. *)
Lemma ns3_obligation_refutes_identical_result :
  parseDecisionResponse (withNs3 obligationResponse)
  <> parseDecisionResponse (withoutPrefix obligationResponse).
Proof. vm_compute. discriminate. Qed.

(** C4, amended: for every document whose root element is a Response
    and whose variant without prefixes passes the parser-error check,
    decoding the [ns3:] variant gives the outcome of decoding the variant
    without prefixes (the same error, or the same decision and status),
    with the obligation and advice elements being those of the other
    variant with [ns3] as the prefix of every tag. *)
Theorem ns3_variant_decodes_alike (doc : node) :
  hasLocalName "Response" doc = true ->
  getElementsByTagName "parsererror" (withoutPrefix doc) = [] ->
  parseDecisionResponse (withNs3 doc)
  = mapNodes (mapPrefix (fun _ => "ns3"))
      (parseDecisionResponse (withoutPrefix doc)).
Proof.
  intros Hroot H.
  assert (E : mapPrefix (fun _ => "ns3") doc
              = mapPrefix (fun _ => "ns3") (withoutPrefix doc)).
  { unfold withoutPrefix. rewrite mapPrefix_mapPrefix. reflexivity. }
  rewrite <- decode_mapPrefix; [|exact H|apply ns3_no_parsererror].
  rewrite <- E. unfold withNs3.
  destruct doc as [p l attrs cs | d]; [|discriminate].
  apply String.eqb_eq in Hroot. subst l.
  apply decode_declared_response.
Qed.

Lemma ns3_variant_decodes_alike_witness :
  parseDecisionResponse (withNs3 permitResponse)
  = mapNodes (mapPrefix (fun _ => "ns3"))
      (parseDecisionResponse (withoutPrefix permitResponse)).
Proof.
  apply (ns3_variant_decodes_alike permitResponse); reflexivity.
Defined.

(** C6, evaluated at the response of the specification's example, and
    in general: the status that is returned is the serialized attribute
    node (a blank, the name [Value], and the quoted value), not the value
    of the attribute; it is null only when no StatusCode element has a
    [Value] attribute. The decision is the escaped text, and the
    obligations and advice are the selected elements. *)
Theorem status_is_serialized_attribute :
  parseDecisionResponse permitResponse
  = Return {| decision := "Permit";
              status := Some (" Value=" ++ dquote ++ statusOk ++ dquote)%string;
              obligations := [];
              advice := [] |}
  /\ status_of (parseDecisionResponse permitResponse) <> Some (Some statusOk).
Proof. split; [reflexivity | vm_compute; discriminate]. Qed.

(** Escaping never shortens a string. *)
Lemma escape_length attr v :
  (String.length v <= String.length (escape attr v))%nat.
Proof.
  induction v as [|c v IH]; [apply Nat.le_refl|].
  cbn [escape]. rewrite StringFacts.length_append.
  assert (1 <= String.length (xmlEncode attr c))%nat.
  { unfold xmlEncode.
    repeat match goal with
           | |- context [if ?b then _ else _] => destruct b
           end; simpl; lia. }
  simpl. lia.
Qed.

(** The serialized attribute is longer than the value it holds. *)
Lemma attrToString_longer a :
  (String.length (snd a) < String.length (attrToString a))%nat.
Proof.
  unfold attrToString.
  rewrite !StringFacts.length_append.
  pose proof (escape_length true (snd a)). simpl. lia.
Qed.

(** Whenever a StatusCode element has a [Value] attribute, the status
    that is returned differs from that value. *)
Lemma status_never_the_value doc r a :
  parseDecisionResponse doc = Return r ->
  select1 (selectAttributes "StatusCode" "Value" doc) = Some a ->
  status r <> Some (snd a).
Proof.
  unfold parseDecisionResponse, parseXmlToDom.
  destruct (getElementsByTagName "parsererror" doc); [|discriminate].
  destruct (orNull _); [|discriminate].
  intros H Ha. injection H as <-. rewrite Ha. simpl.
  intros E. injection E as E.
  pose proof (attrToString_longer a) as Hlen. rewrite E in Hlen. lia.
Qed.

(** The fields of every result that is returned. *)
Lemma returned_fields doc r :
  parseDecisionResponse doc = Return r ->
  status r = option_map attrToString
               (select1 (selectAttributes "StatusCode" "Value" doc))
  /\ obligations r = selectByLocalName "Obligation" doc
  /\ advice r = selectByLocalName "Advice" doc.
Proof.
  unfold parseDecisionResponse, parseXmlToDom.
  destruct (getElementsByTagName "parsererror" doc); [|discriminate].
  destruct (orNull _); [|discriminate].
  intros H. injection H as <-. simpl.
  destruct (select1 (selectAttributes "StatusCode" "Value" doc));
    repeat split; reflexivity.
Qed.

End DecoderFacts.

(** ** The build script *)

Module BuildXacmlFacts.
Import JsString BuildXacml StringFacts.

Lemma indexOf_ge s needle from k :
  indexOf s needle from = Some k -> from <= k.
Proof.
  unfold indexOf. destruct (find needle (drop from s)); simpl;
    [|discriminate].
  intros H. injection H as <-. lia.
Qed.

Lemma iterate_progress s i lvl res i' lvl' res' :
  iterate s i lvl res = Next i' lvl' res' -> i < i'.
Proof.
  unfold iterate.
  destruct (indexOf s "<" i) as [tagStart|] eqn:E1; [|discriminate].
  destruct (indexOf s ">" tagStart) as [tagEnd|] eqn:E2; [|discriminate].
  apply indexOf_ge in E1, E2.
  destruct (startsWith "<?" _ || startsWith "<!--" _).
  { intros H. injection H as <- _ _. lia. }
  destruct (startsWith "</" _).
  { destruct lvl; [discriminate|]. intros H. injection H as <- _ _. lia. }
  destruct (endsWith "/>" _).
  { intros H. injection H as <- _ _. lia. }
  destruct (matchTagName _) as [name|]; [|discriminate].
  destruct (indexOf s _ (tagEnd + 1)) as [closingTagStart|] eqn:E3.
  - apply indexOf_ge in E3.
    destruct (_ && _); intros H; injection H as <- _ _; lia.
  - intros H. injection H as <- _ _. lia.
Qed.

Lemma formatLoop_enough_fuel s fuel :
  forall i lvl res,
    String.length s - i < fuel ->
    formatLoop fuel s i lvl res <> None.
Proof.
  induction fuel as [|fuel IH]; intros i lvl res Hfuel; [lia|].
  simpl. destruct (i <? String.length s)%nat eqn:Hi; [|discriminate].
  apply Nat.ltb_lt in Hi.
  destruct (iterate s i lvl res) as [i' lvl' res'| |m] eqn:E;
    [|discriminate|discriminate].
  apply iterate_progress in E. apply IH. lia.
Qed.

Lemma trimEnd_nonWhitespace_head c s :
  isWhitespace c = false -> truthy (trimEnd (String c s)) = true.
Proof.
  intros Hc. simpl. destruct (trimEnd s); [rewrite Hc|]; reflexivity.
Qed.

Lemma truthy_trim s : truthy (trim s) = hasNonWhitespace s.
Proof.
  unfold trim. induction s as [|c s IH]; [reflexivity|].
  cbn [trimStart hasNonWhitespace].
  destruct (isWhitespace c) eqn:Hc; simpl negb; simpl orb.
  - exact IH.
  - apply trimEnd_nonWhitespace_head, Hc.
Qed.

Lemma inline_step s i lvl res tagStart tagEnd name closingTagStart :
  indexOf s "<" i = Some tagStart ->
  indexOf s ">" tagStart = Some tagEnd ->
  isOpeningTag (substring s tagStart (tagEnd + 1)) = true ->
  matchTagName (substring s tagStart (tagEnd + 1)) = Some name ->
  indexOf s ("</" ++ name ++ ">") (tagEnd + 1) = Some closingTagStart ->
  includes "<" (substring s (tagEnd + 1) closingTagStart) = false ->
  hasNonWhitespace (substring s (tagEnd + 1) closingTagStart) = true ->
  iterate s i lvl res
  = Next (closingTagStart + String.length ("</" ++ name ++ ">")) lvl
      (res ++ [repeat "  " lvl ++ substring s tagStart (tagEnd + 1)
                 ++ substring s (tagEnd + 1) closingTagStart
                 ++ "</" ++ name ++ ">"]).
Proof.
  intros H1 H2 Hopen Hname Hclose Htext Hblank.
  unfold isOpeningTag in Hopen.
  apply andb_true_iff in Hopen. destruct Hopen as [Hopen Hself].
  apply andb_true_iff in Hopen. destruct Hopen as [Hdecl Hclosing].
  apply negb_true_iff in Hdecl, Hclosing, Hself.
  unfold iterate. rewrite H1, H2, Hdecl, Hclosing, Hself, Hname, Hclose.
  rewrite Htext, truthy_trim, Hblank. reflexivity.
Qed.

Lemma startsWith_lt_false n c t :
  Ascii.eqb "<" c = false -> startsWith (String "<" n) (String c t) = false.
Proof. intros H. cbn [startsWith]. rewrite H. reflexivity. Qed.

Lemma includes_lt_cons c t :
  includes "<" (String c t) = false ->
  Ascii.eqb "<" c = false /\ includes "<" t = false.
Proof.
  cbn [includes startsWith]. intros H.
  apply orb_false_iff in H. destruct H as [H1 H2].
  rewrite andb_true_r in H1. auto.
Qed.

(** A needle that starts with [<] is not found inside a text without [<]. *)
Lemma find_past_text n t r :
  includes "<" t = false ->
  find (String "<" n) (t ++ r)
  = option_map (fun k => k + String.length t) (find (String "<" n) r).
Proof.
  induction t as [|c t IH]; intros H.
  - cbn [append String.length]. destruct (find _ r) as [k|]; [|reflexivity].
    simpl. rewrite Nat.add_0_r. reflexivity.
  - apply includes_lt_cons in H. destruct H as [Hc Ht].
    change (String c t ++ r) with (String c (t ++ r)).
    cbn [find]. rewrite (startsWith_lt_false n c _ Hc), (IH Ht).
    destruct (find _ r) as [k|]; [|reflexivity].
    simpl. rewrite Nat.add_succ_r. reflexivity.
Qed.

Lemma drop_past_text n t r :
  drop (n + String.length t) (t ++ r) = drop n r.
Proof.
  induction t as [|c t IH]; simpl.
  - rewrite Nat.add_0_r. reflexivity.
  - rewrite Nat.add_succ_r. exact IH.
Qed.

Lemma take_text t r : take (String.length t) (t ++ r) = t.
Proof.
  induction t as [|c t IH]; [reflexivity|]. simpl. rewrite IH. reflexivity.
Qed.

Lemma formatLoop_next fuel s i lvl res i' lvl' res' :
  i < String.length s ->
  iterate s i lvl res = Next i' lvl' res' ->
  formatLoop (S fuel) s i lvl res = formatLoop fuel s i' lvl' res'.
Proof.
  intros Hi E. cbn [formatLoop].
  apply Nat.ltb_lt in Hi. rewrite Hi, E. reflexivity.
Qed.

Lemma formatLoop_done fuel s i lvl res :
  String.length s <= i ->
  formatLoop (S fuel) s i lvl res = Some (Return res).
Proof.
  intros Hi. cbn [formatLoop].
  apply Nat.ltb_ge in Hi. rewrite Hi. reflexivity.
Qed.


(** The loop of [formatXML] never runs out of passes: the function
    returns or throws on every input. *)
Lemma formatXML_total s : formatXML s <> None.
Proof.
  unfold formatXML.
  pose proof (formatLoop_enough_fuel s (S (String.length s)) 0 0 []) as H.
  destruct (formatLoop _ s 0 0 []) as [[r|m]|]; try discriminate.
  exfalso. apply H; [lia | reflexivity].
Qed.

(** *** The claims about the build script *)

(** C8, evaluated at a policy set whose root tag has its attributes on
    lines of their own: the prefix and its declaration are removed, but
    no default namespace is put on the root element, because the tag
    name is followed by a line break and not by a blank when the
    namespace is to be added.  With the root tag on one line the
    namespace is added. *)
Theorem multiline_root_gets_no_default_namespace :
  transformXacmlNamespace multilinePolicySet
  = "<PolicySet PolicySetId=" ++ dquote ++ "root" ++ dquote
    ++ " Version=" ++ dquote ++ "1.0" ++ dquote ++ ">"
    ++ "<Target/></PolicySet>"
  /\ includes "xmlns" (transformXacmlNamespace multilinePolicySet) = false
  /\ transformXacmlNamespace oneLinePolicySet
     = "<PolicySet " ++ defaultNamespaceDecl
       ++ " PolicySetId=" ++ dquote ++ "root" ++ dquote
       ++ " Version=" ++ dquote ++ "1.0" ++ dquote ++ ">"
       ++ "<Target/></PolicySet>".
Proof. repeat split; vm_compute; reflexivity. Qed.

End BuildXacmlFacts.

(** ** The readiness poll *)

Module XacmlTestUtilsFacts.
Import XacmlTestUtils.
Local Open Scope list_scope.
Local Open Scope Z_scope.

Section Poll.
Variable World : Type.
Variable now : World -> Z.
Variable condition : World -> pollResult * World.
Variable sleep : Z -> World -> World.

Local Abbreviation waitLoop := (waitLoop World now condition sleep).
Local Abbreviation waitForCondition := (waitForCondition World now condition sleep).

(** What a run adds to the trace, and what it completes with. *)
Lemma waitLoop_run fuel startTime timeout interval :
  forall w trace out trace' w',
    waitLoop fuel startTime timeout interval w trace
    = Some (out, trace', w') ->
    exists suffix,
      trace' = trace ++ suffix
      /\ paced timeout interval suffix
      /\ out = verdict suffix
      /\ (out = Return false -> timeout <= now w' - startTime).
Proof.
  induction fuel as [|fuel IH]; intros w trace out trace' w' H;
    [discriminate|].
  cbn [XacmlTestUtils.waitLoop] in H. cbv zeta in H.
  destruct (now w - startTime <? timeout) eqn:Hlt.
  - apply Z.ltb_lt in Hlt.
    destruct (condition w) as [[| |e] w1].
    + injection H as <- <- <-. eexists. split; [reflexivity|].
      simpl. repeat split; auto. discriminate.
    + apply IH in H. destruct H as [suffix [-> [Hp [Hv Hf]]]].
      exists ([Poll (now w - startTime) Falsy; Sleep interval] ++ suffix).
      rewrite <- app_assoc. split; [reflexivity|].
      simpl. repeat split; auto.
    + injection H as <- <- <-. eexists. split; [reflexivity|].
      simpl. repeat split; auto. discriminate.
  - apply Z.ltb_ge in Hlt. injection H as <- <- <-.
    exists []. rewrite app_nil_r. simpl. repeat split; auto.
Qed.

(** The calls of a run are those of the condition itself, in the worlds
    that the calls and sleeps before them left. *)
Lemma waitLoop_calls fuel startTime timeout interval :
  forall w trace out trace' w',
    waitLoop fuel startTime timeout interval w trace
    = Some (out, trace', w') ->
    exists n suffix,
      trace' = trace ++ suffix
      /\ runOf World now condition sleep startTime timeout interval
           w n out suffix w'.
Proof.
  induction fuel as [|fuel IH]; intros w trace out trace' w' H;
    [discriminate|].
  cbn [XacmlTestUtils.waitLoop] in H. cbv zeta in H.
  destruct (now w - startTime <? timeout) eqn:Hlt.
  - apply Z.ltb_lt in Hlt.
    destruct (condition w) as [[| |e] w1] eqn:Hc.
    + injection H as <- <- <-. exists 0%nat. eexists.
      split; [reflexivity|]. split; [intros k Hk; lia|].
      cbn [worldAt falsyPolls]. right. left. auto.
    + apply IH in H. destruct H as [n [suffix [-> [Hcalls Hend]]]].
      assert (Hw : afterFalsy World condition sleep interval w
                   = sleep interval w1).
      { unfold afterFalsy. rewrite Hc. reflexivity. }
      exists (S n).
      exists ([Poll (now w - startTime) Falsy; Sleep interval] ++ suffix).
      rewrite <- app_assoc. split; [reflexivity|]. split.
      * intros [|k] Hk; cbn [worldAt].
        -- rewrite Hc. auto.
        -- rewrite Hw. apply Hcalls. lia.
      * cbn [worldAt falsyPolls]. rewrite Hw. cbv zeta in Hend.
        destruct Hend as [[H1 [H2 [H3 H4]]]
                         | [[H1 [H2 [H3 H4]]] | [e [H1 [H2 [H3 H4]]]]]];
          subst suffix.
        -- left. auto.
        -- right. left. auto.
        -- right. right. exists e. auto.
    + injection H as <- <- <-. exists 0%nat. eexists.
      split; [reflexivity|]. split; [intros k Hk; lia|].
      cbn [worldAt falsyPolls]. right. right. exists e. auto.
  - apply Z.ltb_ge in Hlt. injection H as <- <- <-.
    exists 0%nat, []. rewrite app_nil_r. split; [reflexivity|].
    split; [intros k Hk; lia|]. cbn [worldAt falsyPolls]. left. auto.
Qed.

(** A run that completes does so in the same way with more passes
    allowed. *)
Lemma waitLoop_more_fuel fuel extra startTime timeout interval :
  forall w trace r,
    waitLoop fuel startTime timeout interval w trace = Some r ->
    waitLoop (fuel + extra) startTime timeout interval w trace = Some r.
Proof.
  induction fuel as [|fuel IH]; intros w trace r H; [discriminate|].
  cbn [XacmlTestUtils.waitLoop Nat.add] in *. cbv zeta in *.
  destruct (now w - startTime <? timeout); [|exact H].
  destruct (condition w) as [[| |e] w1]; try exact H.
  apply IH, H.
Qed.

(** The clock does not go back while the condition runs, and a sleep
    takes time. *)
Hypothesis condition_clock : forall w, now w <= now (snd (condition w)).
Hypothesis sleep_clock : forall ms w, now w < now (sleep ms w).

(** With one pass per millisecond of the timeout, and one more, the
    loop ends. *)
Lemma waitLoop_enough_fuel fuel startTime timeout interval :
  forall w trace,
    Z.max 0 (timeout - (now w - startTime)) < Z.of_nat fuel ->
    waitLoop fuel startTime timeout interval w trace <> None.
Proof.
  induction fuel as [|fuel IH]; intros w trace Hfuel; [lia|].
  cbn [XacmlTestUtils.waitLoop]. cbv zeta.
  destruct (now w - startTime <? timeout) eqn:Hlt; [|discriminate].
  apply Z.ltb_lt in Hlt.
  pose proof (condition_clock w) as Hc.
  destruct (condition w) as [[| |e] w1]; try discriminate.
  simpl in Hc. pose proof (sleep_clock interval w1) as Hs.
  apply IH. lia.
Qed.

End Poll.



(** A condition that holds at its third call, polled every 100 ms:
    two sleeps, then [true]. *)
Example third_poll_succeeds :
  waitForCondition Z (fun w => w) (readyFrom 200) timerSleep
    1001 1000 100 0
  = Some (Return true,
          [Poll 0 Falsy; Sleep 100; Poll 100 Falsy; Sleep 100;
           Poll 200 Truthy], 200).
Proof. vm_compute. reflexivity. Qed.

(** A condition that never holds, with a timeout of 300 ms: [false],
    once 300 ms have gone by. *)
Example never_ready_times_out :
  waitForCondition Z (fun w => w) (readyFrom 100000) timerSleep
    301 300 100 0
  = Some (Return false,
          [Poll 0 Falsy; Sleep 100; Poll 100 Falsy; Sleep 100;
           Poll 200 Falsy; Sleep 100], 300).
Proof. vm_compute. reflexivity. Qed.

End XacmlTestUtilsFacts.

(** ** More on strings *)

Module StringMoreFacts.

Lemma append_assoc (a b c : string) : ((a ++ b) ++ c = a ++ b ++ c)%string.
Proof.
  induction a as [|x a IH]; [reflexivity|]. simpl. rewrite IH. reflexivity.
Qed.

Lemma append_empty_r (a : string) : (a ++ EmptyString)%string = a.
Proof.
  induction a as [|x a IH]; [reflexivity|]. simpl. rewrite IH. reflexivity.
Qed.

End StringMoreFacts.

(** ** More on the encoder, and the test requests *)

Module EncoderMoreFacts.
Import JsString Dom Encoder TestRequest ListFacts EncoderFacts.
Local Open Scope list_scope.

(** The wrapper of a category, if it is there, holds what the filter on
    the category's word keeps. *)
Lemma wrappersOf_category q c :
  c <> CEnvironment ->
  wrappersOf (categoryUrn c) (requestDocument q)
  = match filterByWord (categoryWord c) (collectAttributes q) with
    | [] => []
    | l => [attributesElement {| Category := categoryUrn c;
                                 Attribute := l |}]
    end.
Proof.
  intros Hc. rewrite wrappersOf_build. unfold buildRequestObj.
  simpl Attributes.
  destruct c; [ | | |contradiction Hc; reflexivity];
    cbn [categoryWord categoryUrn];
    destruct (filterByWord "subject" (collectAttributes q)),
      (filterByWord "resource" (collectAttributes q)),
      (filterByWord "action" (collectAttributes q)); reflexivity.
Qed.

(** X1: no pair of a subject, resource or action bag is lost: whenever
    [buildRequestXml] returns a document, the [<Attribute>] element of the
    pair is in it, under the one wrapper of its category; and it returns
    one unless a key or value of these bags has a character that XML
    does not allow, in which case [js2xmlparser] throws. *)
Theorem every_pair_is_encoded (q : XacmlRequest) (c : category)
        (kv : string * string) :
  c <> CEnvironment ->
  In kv (categoryEntries q c) ->
  encoded q (fun doc =>
    exists w,
      wrappersOf (categoryUrn c) doc = [w]
      /\ In (attributeElement (mkAttribute (idPrefix c) kv))
           (attributeElements w)).
Proof.
  intros Hc Hkv. apply encoded_intro.
  assert (Ha : In (mkAttribute (idPrefix c) kv)
                 (filterByWord (categoryWord c) (collectAttributes q))).
  { apply in_own_filter; [exact Hc|]. apply in_map, Hkv. }
  rewrite (wrappersOf_category q c Hc).
  destruct (filterByWord (categoryWord c) (collectAttributes q)) as [|a l];
    [destruct Ha|].
  eexists. split; [reflexivity|].
  rewrite attributeElements_wrapper. apply in_map, Ha.
Qed.

Lemma every_pair_is_encoded_witness :
  encoded exampleQuery (fun doc =>
    exists w,
      wrappersOf actionCategory doc = [w]
      /\ In (attributeElement (mkAttribute actionIdPrefix ("action-id", "read")))
           (attributeElements w)).
Proof.
  apply (every_pair_is_encoded exampleQuery CAction ("action-id", "read")).
  - discriminate.
  - simpl. left. reflexivity.
Defined.

Lemma attributeValueText_element a :
  attributeValueText (attributeElement a) = value a.
Proof.
  unfold attributeValueText, attributeElement. simpl.
  destruct (value a); reflexivity.
Qed.

Lemma readPair_element c kv :
  c <> CEnvironment ->
  readPair c (attributeElement (mkAttribute (idPrefix c) kv)) = kv.
Proof.
  intros Hc. unfold readPair. rewrite attributeValueText_element.
  destruct kv as [k v].
  destruct c; [ | | |contradiction Hc; reflexivity]; reflexivity.
Qed.

Lemma filter_own_plain q c :
  plainKeys q = true ->
  c <> CEnvironment ->
  filterByWord (categoryWord c) (collectAttributes q)
  = attributesOf (idPrefix c) q c.
Proof.
  intros Hp Hc. destruct c; [ | | |contradiction Hc; reflexivity].
  - apply subject_filter_plain, Hp.
  - apply resource_filter_plain, Hp.
  - apply action_filter_plain, Hp.
Qed.

(** X2: when no key contains the name of another category, reading the
    pairs back from the wrapper of a category (the AttributeId without the
    category's prefix, and the text of the value) gives the pairs of the
    query for that category, in order; nothing is lost, changed or added.
    This holds of every document that [buildRequestXml] returns, and it
    returns one unless a key or value has a character that XML does not
    allow. *)
Theorem encoded_pairs_read_back (q : XacmlRequest) (c : category) :
  plainKeys q = true ->
  c <> CEnvironment ->
  encoded q (fun doc => readBack doc c = categoryEntries q c).
Proof.
  intros Hp Hc. apply encoded_intro. unfold readBack.
  rewrite (wrappersOf_category q c Hc), (filter_own_plain q c Hp Hc).
  unfold attributesOf.
  destruct (categoryEntries q c) as [|kv rest] eqn:E; [reflexivity|].
  rewrite <- E. clear E.
  destruct (map (mkAttribute (idPrefix c)) (categoryEntries q c)) eqn:E.
  - destruct (categoryEntries q c); [reflexivity | discriminate E].
  - rewrite <- E. cbn [flat_map]. rewrite app_nil_r.
    rewrite attributeElements_wrapper. cbn [Attribute].
    rewrite !map_map.
    rewrite <- (map_id (categoryEntries q c)) at 2.
    apply map_ext. intros x. apply readPair_element, Hc.
Qed.

Lemma encoded_pairs_read_back_witness :
  encoded exampleQuery (fun doc =>
    readBack doc CResource
    = [("resource-id", "urn:klf:ds:person");
       ("resource-id", "urn:klf:ds:field:person.name")]).
Proof.
  apply (encoded_pairs_read_back exampleQuery CResource).
  - reflexivity.
  - discriminate.
Defined.

(** X23: whatever the query, a document that [buildRequestXml] returns
    has at most one wrapper for each of the subject, resource and action
    categories, always in this order, and no wrapper without an
    [<Attribute>] element. *)
Theorem wrappers_ordered_and_never_empty (q : XacmlRequest) :
  encoded q (fun doc =>
    (exists s r a : bool,
        map (getAttribute "Category") (wrappers doc)
        = (if s then [Some subjectCategory] else [])
          ++ (if r then [Some resourceCategory] else [])
          ++ (if a then [Some actionCategory] else []))
    /\ Forall (fun w => attributeElements w <> []) (wrappers doc)).
Proof.
  apply encoded_intro. rewrite wrappers_build. unfold buildRequestObj. simpl Attributes.
  destruct (filterByWord "subject" (collectAttributes q)) as [|s1 ls] eqn:Es,
    (filterByWord "resource" (collectAttributes q)) as [|r1 lr] eqn:Er,
    (filterByWord "action" (collectAttributes q)) as [|a1 la] eqn:Ea;
    cbn [filter Attribute List.length Nat.eqb negb map];
    (split;
     [ (exists false, false, false; reflexivity)
       || (exists false, false, true; reflexivity)
       || (exists false, true, false; reflexivity)
       || (exists false, true, true; reflexivity)
       || (exists true, false, false; reflexivity)
       || (exists true, false, true; reflexivity)
       || (exists true, true, false; reflexivity)
       || (exists true, true, true; reflexivity)
     | repeat constructor; rewrite attributeElements_wrapper;
       cbn [Attribute map]; discriminate ]).
Qed.

(** *** Test requests *)

Lemma indexed_keys o :
  Forall (fun e => arrayIndex (fst (snd e)) = Some (fst e)) (indexed o).
Proof.
  induction o as [|kv o IH]; [constructor|].
  cbn [indexed]. destruct (arrayIndex (fst kv)) as [n|] eqn:E; [|exact IH].
  clear - IH E. induction (indexed o) as [|[m e] l IHl].
  - repeat constructor. exact E.
  - cbn [insertIndexed]. apply Forall_cons_iff in IH. destruct IH as [H1 H2].
    destruct (n <=? m)%N.
    + constructor; [exact E|]. constructor; assumption.
    + constructor; [exact H1 | apply IHl, H2].
Qed.

Lemma Permutation_insertIndexed n kv l :
  Permutation (insertIndexed n kv l) ((n, kv) :: l).
Proof.
  induction l as [|[m e] l IH]; [reflexivity|].
  cbn [insertIndexed]. destruct (n <=? m)%N; [reflexivity|].
  rewrite IH. apply perm_swap.
Qed.

Lemma Permutation_entries o : Permutation (entries o) o.
Proof.
  unfold entries, named.
  induction o as [|kv o IH]; [reflexivity|].
  cbn [indexed filter].
  destruct (arrayIndex (fst kv)) as [n|].
  - rewrite Permutation_insertIndexed. cbn [map snd app].
    constructor. exact IH.
  - rewrite <- Permutation_middle. constructor. exact IH.
Qed.

Lemma getProperty_app key a b :
  getProperty key (a ++ b)
  = match getProperty key a with
    | Some v => Some v
    | None => getProperty key b
    end.
Proof.
  induction a as [|[k v] a IH]; [reflexivity|].
  cbn [app getProperty]. destruct (String.eqb k key); [reflexivity | exact IH].
Qed.

Lemma getProperty_insertIndexed key n kv l :
  arrayIndex (fst kv) = Some n ->
  Forall (fun e => arrayIndex (fst (snd e)) = Some (fst e)) l ->
  getProperty key (map snd (insertIndexed n kv l))
  = if String.eqb (fst kv) key then Some (snd kv)
    else getProperty key (map snd l).
Proof.
  intros Hn. induction l as [|[m [k v]] l IH]; intros Hl.
  - destruct kv as [k0 v0]. reflexivity.
  - apply Forall_cons_iff in Hl. destruct Hl as [Hm Hl]. cbn [fst snd] in Hm.
    cbn [insertIndexed]. destruct (n <=? m)%N eqn:E.
    + destruct kv as [k0 v0]. reflexivity.
    + cbn [map snd getProperty]. rewrite (IH Hl).
      destruct (String.eqb k key) eqn:Ek; [|reflexivity].
      apply String.eqb_eq in Ek. subst k.
      destruct (String.eqb (fst kv) key) eqn:Ek0; [|reflexivity].
      apply String.eqb_eq in Ek0. rewrite Ek0 in Hn.
      rewrite Hn in Hm. injection Hm as ->.
      rewrite N.leb_refl in E. discriminate.
Qed.

Lemma getProperty_indexed key o :
  getProperty key (map snd (indexed o))
  = match arrayIndex key with
    | Some _ => getProperty key o
    | None => None
    end.
Proof.
  induction o as [|[k v] o IH].
  - destruct (arrayIndex key); reflexivity.
  - cbn [indexed fst getProperty].
    destruct (arrayIndex k) as [n|] eqn:En.
    + rewrite (getProperty_insertIndexed key n (k, v) _ En (indexed_keys o)).
      cbn [fst snd]. destruct (String.eqb k key) eqn:Ek.
      * apply String.eqb_eq in Ek. subst k. rewrite En. reflexivity.
      * exact IH.
    + rewrite IH. destruct (String.eqb k key) eqn:Ek; [|reflexivity].
      apply String.eqb_eq in Ek. subst k. rewrite En. reflexivity.
Qed.

Lemma getProperty_named key o :
  getProperty key (named o)
  = match arrayIndex key with
    | Some _ => None
    | None => getProperty key o
    end.
Proof.
  unfold named. induction o as [|[k v] o IH].
  - destruct (arrayIndex key); reflexivity.
  - cbn [filter fst getProperty].
    destruct (arrayIndex k) as [n|] eqn:En.
    + rewrite IH. destruct (String.eqb k key) eqn:Ek; [|reflexivity].
      apply String.eqb_eq in Ek. subst k. rewrite En. reflexivity.
    + cbn [getProperty]. destruct (String.eqb k key) eqn:Ek.
      * apply String.eqb_eq in Ek. subst k. rewrite En. reflexivity.
      * exact IH.
Qed.

Lemma getProperty_entries key o :
  getProperty key (entries o) = getProperty key o.
Proof.
  unfold entries. rewrite getProperty_app, getProperty_indexed,
    getProperty_named.
  destruct (arrayIndex key); [|reflexivity].
  destruct (getProperty key o); reflexivity.
Qed.

Lemma NoDup_keys_entries o : NoDup (keys o) -> NoDup (keys (entries o)).
Proof.
  intros H. unfold keys in *.
  apply (Permutation_NoDup (l := map fst o)); [|exact H].
  apply Permutation_map. symmetry. apply Permutation_entries.
Qed.

Lemma entries_not_empty o : o <> [] -> entries o <> [].
Proof.
  intros H E. apply H.
  pose proof (Permutation_entries o) as P. rewrite E in P.
  apply Permutation_nil in P. exact P.
Qed.

Lemma setProperty_not_empty k v o : setProperty k v o <> [].
Proof. destruct o as [|[k' v'] o]; simpl; [|destruct (String.eqb k' k)]; discriminate. Qed.

Lemma spread_not_empty literal source :
  literal <> [] -> spread literal source <> [].
Proof.
  unfold spread. generalize (entries source). intros l. revert literal.
  induction l as [|kv l IH]; intros literal H; simpl; [exact H|].
  apply IH, setProperty_not_empty.
Qed.

Lemma created_bag_not_empty literal source :
  literal <> [] -> entries (spread literal source) <> [].
Proof. intros H. apply entries_not_empty, spread_not_empty, H. Qed.

Lemma own_filter_not_empty q c :
  c <> CEnvironment ->
  categoryEntries q c <> [] ->
  filterByWord (categoryWord c) (collectAttributes q) <> [].
Proof.
  intros Hc Hne.
  destruct (categoryEntries q c) as [|kv rest] eqn:E; [contradiction|].
  assert (Ha : In (mkAttribute (idPrefix c) kv)
                 (filterByWord (categoryWord c) (collectAttributes q))).
  { apply in_own_filter; [exact Hc|]. unfold attributesOf. rewrite E.
    left. reflexivity. }
  intros Hnil. rewrite Hnil in Ha. destruct Ha.
Qed.

(** X3: whatever the test case gives, the request made by
    [createRequest] is encoded, when [js2xmlparser] accepts its
    characters, with exactly three wrappers, for the subject, the
    resource and the action, in this order; and what [buildRequestXml]
    does with it does not depend on the time that [createRequest] puts
    in the environment. *)
Theorem created_request_has_three_wrappers (nowIso nowIso' : string)
        (options : TestCaseRequest) :
  encoded (createRequest nowIso options) (fun doc =>
    map (getAttribute "Category") (wrappers doc)
    = [Some subjectCategory; Some resourceCategory; Some actionCategory])
  /\ buildRequestXml (createRequest nowIso options)
     = buildRequestXml (createRequest nowIso' options).
Proof.
  split; [|reflexivity]. apply encoded_intro.
  set (q := createRequest nowIso options).
  rewrite wrappers_build. unfold buildRequestObj. cbn [Attributes].
  pose proof (own_filter_not_empty q CSubject) as HS.
  pose proof (own_filter_not_empty q CResource) as HR.
  pose proof (own_filter_not_empty q CAction) as HA.
  cbn [categoryWord categoryEntries] in HS, HR, HA.
  assert (S1 : filterByWord "subject" (collectAttributes q) <> []).
  { apply HS; [discriminate|]. apply created_bag_not_empty. discriminate. }
  assert (R1 : filterByWord "resource" (collectAttributes q) <> []).
  { apply HR; [discriminate|]. unfold q. simpl.
    rewrite app_nil_r. apply created_bag_not_empty. discriminate. }
  assert (A1 : filterByWord "action" (collectAttributes q) <> []).
  { apply HA; [discriminate|]. apply created_bag_not_empty. discriminate. }
  destruct (filterByWord "subject" (collectAttributes q)); [contradiction|].
  destruct (filterByWord "resource" (collectAttributes q)); [contradiction|].
  destruct (filterByWord "action" (collectAttributes q)); [contradiction|].
  reflexivity.
Qed.

Lemma getProperty_setProperty k v key o :
  getProperty key (setProperty k v o)
  = if String.eqb k key then Some v else getProperty key o.
Proof.
  induction o as [|[k' v'] o IH]; simpl.
  - reflexivity.
  - destruct (String.eqb k' k) eqn:E; simpl.
    + apply String.eqb_eq in E. subst k'.
      destruct (String.eqb k key); reflexivity.
    + rewrite IH. destruct (String.eqb k' key) eqn:E'; [|reflexivity].
      apply String.eqb_eq in E'. subst k'.
      rewrite String.eqb_sym, E. reflexivity.
Qed.

Lemma getProperty_not_key key (o : JsObject) :
  ~ In key (keys o) -> getProperty key o = None.
Proof.
  induction o as [|[k v] o IH]; simpl; [reflexivity|].
  intros H. destruct (String.eqb k key) eqn:E.
  - apply String.eqb_eq in E. exfalso. apply H. left. exact E.
  - apply IH. intros Hin. apply H. right. exact Hin.
Qed.

(** Spreading an object with distinct keys: its values win, the values
    of the literal stay for the other keys. *)
Lemma getProperty_fold key source :
  NoDup (keys source) ->
  forall literal,
    getProperty key
      (fold_left (fun o kv => setProperty (fst kv) (snd kv) o) source literal)
    = match getProperty key source with
      | Some v => Some v
      | None => getProperty key literal
      end.
Proof.
  induction source as [|[k v] source IH]; intros Hnd literal; simpl;
    [reflexivity|].
  inversion Hnd as [|? ? Hk Hnd']; subst.
  rewrite (IH Hnd'). rewrite getProperty_setProperty.
  destruct (String.eqb k key) eqn:E.
  - apply String.eqb_eq in E. subst k.
    rewrite (getProperty_not_key key source Hk). reflexivity.
  - reflexivity.
Qed.

Lemma getProperty_spread key source :
  NoDup (keys source) ->
  forall literal,
    getProperty key (entries (spread literal source))
    = match getProperty key source with
      | Some v => Some v
      | None => getProperty key literal
      end.
Proof.
  intros Hnd literal. unfold spread.
  rewrite getProperty_entries.
  rewrite (getProperty_fold key _ (NoDup_keys_entries _ Hnd)).
  rewrite getProperty_entries. reflexivity.
Qed.

(** X4: [createRequest] keeps every property the test case gives for the
    subject, an empty or otherwise falsy [id] or [role] included; the
    defaults [anonymous] and the empty role are used only for a key the
    test case does not have. *)
Theorem created_subject_keeps_given (nowIso : string)
        (options : TestCaseRequest) (key : string) :
  NoDup (keys (orEmpty (tcSubject options))) ->
  getProperty key (bagEntries (subject (createRequest nowIso options)))
  = match getProperty key (orEmpty (tcSubject options)) with
    | Some v => Some v
    | None => getProperty key [("id", "anonymous"); ("role", EmptyString)]
    end.
Proof.
  intros Hnd. cbn [createRequest subject bagEntries].
  rewrite (getProperty_spread key _ Hnd).
  destruct (getProperty key (orEmpty (tcSubject options))) as [v|] eqn:E;
    [reflexivity|].
  cbn [getProperty].
  destruct (String.eqb "id" key) eqn:Eid.
  - apply String.eqb_eq in Eid. subst key. rewrite E. reflexivity.
  - destruct (String.eqb "role" key) eqn:Erole; [|reflexivity].
    apply String.eqb_eq in Erole. subst key. rewrite E. reflexivity.
Qed.

Lemma created_subject_keeps_given_witness :
  getProperty "id"
    (bagEntries
       (subject (createRequest "2024-01-01T00:00:00.000Z"
                   {| tcSubject := Some [("id", EmptyString)];
                      tcResource := None; tcAction := None;
                      tcEnvironment := None |})))
  = Some EmptyString.
Proof.
  apply (created_subject_keeps_given "2024-01-01T00:00:00.000Z"
           {| tcSubject := Some [("id", EmptyString)];
              tcResource := None; tcAction := None;
              tcEnvironment := None |} "id").
  simpl. repeat constructor; simpl; tauto.
Defined.

End EncoderMoreFacts.

(** ** The calls to the server *)

Module LifecycleFacts.
Import JsString Dom Encoder Decoder Lifecycle ListFacts DecoderFacts.
Import StringMoreFacts.
Local Open Scope list_scope.

Lemma splitOn_not_empty sep s : splitOn sep s <> [].
Proof.
  destruct s as [|c s]; simpl; [discriminate|].
  destruct (Ascii.eqb c sep); [discriminate|].
  destruct (splitOn sep s); discriminate.
Qed.

(** Joining the segments with the separator gives the text back. *)
Lemma join_splitOn sep s :
  join (String sep EmptyString) (splitOn sep s) = s.
Proof.
  induction s as [|c s IH]; [reflexivity|].
  cbn [splitOn]. destruct (Ascii.eqb c sep) eqn:E.
  - apply Ascii.eqb_eq in E. subst c.
    pose proof (splitOn_not_empty sep s) as Hne.
    destruct (splitOn sep s) as [|x l]; [contradiction|].
    cbn [join]. cbn [join] in IH. rewrite IH. reflexivity.
  - pose proof (splitOn_not_empty sep s) as Hne.
    destruct (splitOn sep s) as [|x l]; [contradiction|].
    destruct l as [|y l]; cbn [join] in *; rewrite <- IH; reflexivity.
Qed.

Lemma includes_char_cons c d s :
  includes (String c EmptyString) (String d s)
  = Ascii.eqb c d || includes (String c EmptyString) s.
Proof. cbn [includes startsWith]. rewrite andb_true_r. reflexivity. Qed.

(** No segment holds the separator. *)
Lemma splitOn_segments sep s :
  Forall (fun seg => includes (String sep EmptyString) seg = false)
    (splitOn sep s).
Proof.
  induction s as [|c s IH]; cbn [splitOn].
  - constructor; [reflexivity | constructor].
  - destruct (Ascii.eqb c sep) eqn:E.
    + constructor; [reflexivity | exact IH].
    + destruct (splitOn sep s) as [|x l]; [constructor; [|constructor]|].
      * rewrite includes_char_cons, Ascii.eqb_sym, E. reflexivity.
      * inversion IH as [|? ? Hx Hl]; subst. constructor; [|exact Hl].
        rewrite includes_char_cons, Ascii.eqb_sym, E. exact Hx.
Qed.

Lemma join_last sep l x :
  l <> [] -> join sep (l ++ [x]) = (join sep l ++ sep ++ x)%string.
Proof.
  induction l as [|a l IH]; [contradiction|]. intros _.
  destruct l as [|b l].
  - reflexivity.
  - change ((a :: b :: l) ++ [x]) with (a :: (b :: l) ++ [x]).
    change (join sep (a :: (b :: l) ++ [x]))
      with (a ++ sep ++ join sep ((b :: l) ++ [x]))%string.
    rewrite IH by discriminate.
    change (join sep (a :: b :: l)) with (a ++ sep ++ join sep (b :: l))%string.
    rewrite !append_assoc. reflexivity.
Qed.

(** [href.split('/').pop()] is what follows the last [/] of [href]. *)
Lemma lastSegment_spec href :
  exists before,
    href = (before ++ lastSegment href)%string
    /\ (before = EmptyString \/ exists p, before = (p ++ "/")%string)
    /\ includes "/" (lastSegment href) = false.
Proof.
  unfold lastSegment.
  pose proof (splitOn_not_empty "/" href) as Hne.
  pose proof (splitOn_segments "/" href) as Hseg.
  pose proof (join_splitOn "/" href) as Hjoin.
  rewrite (app_removelast_last EmptyString Hne) in Hseg, Hjoin.
  remember (List.last (splitOn "/" href) EmptyString) as segment eqn:Es.
  remember (removelast (splitOn "/" href)) as others eqn:Eo.
  clear Es Eo Hne.
  apply Forall_app in Hseg. destruct Hseg as [_ Hseg].
  apply Forall_inv in Hseg. rename Hseg into Hlast.
  destruct others as [|a l].
  - exists EmptyString. simpl in Hjoin. auto.
  - rewrite join_last in Hjoin by discriminate.
    exists (join "/" (a :: l) ++ "/")%string. repeat split.
    + rewrite <- Hjoin, append_assoc. reflexivity.
    + right. eexists. reflexivity.
    + exact Hlast.
Qed.

(** What [linkTail] returns, and that it returns nothing else. *)
Lemma linkTail_returns data noLink noTail t :
  linkTail data noLink noTail = Return t ->
  exists a before,
    select1 (selectAttributes "link" "href" data) = Some a
    /\ snd a = (before ++ t)%string
    /\ (before = EmptyString \/ exists p, before = (p ++ "/")%string)
    /\ t <> EmptyString
    /\ includes "/" t = false.
Proof.
  unfold linkTail, parseXmlToDom.
  destruct (getElementsByTagName "parsererror" data); [|discriminate].
  destruct (select1 (selectAttributes "link" "href" data)) as [a|];
    [|discriminate].
  destruct (truthy (snd a)); [|discriminate].
  cbn [orNull].
  destruct (truthy (lastSegment (snd a))) eqn:Ht; [|discriminate].
  intros H. injection H as <-.
  destruct (lastSegment_spec (snd a)) as [before [H1 [H2 H3]]].
  exists a, before. repeat split; auto.
  intros E. rewrite E in Ht. discriminate.
Qed.

Lemma startsWith_append p m : startsWith p (p ++ m)%string = true.
Proof.
  induction p as [|c p IH]; [reflexivity|].
  simpl. rewrite Ascii.eqb_refl. exact IH.
Qed.

Lemma linkTailOf_returns data noLink noTail t :
  linkTailOf data noLink noTail = Return t ->
  exists tree a before,
    parsed data = Return tree
    /\ select1 (selectAttributes "link" "href" tree) = Some a
    /\ snd a = (before ++ t)%string
    /\ (before = EmptyString \/ exists p, before = (p ++ "/")%string)
    /\ t <> EmptyString
    /\ includes "/" t = false.
Proof.
  unfold linkTailOf. destruct (parsed data) as [tree|m]; [|discriminate].
  intros H. apply linkTail_returns in H. destruct H as [a [before H]].
  exists tree, a, before. auto.
Qed.

Section Client.
Variable World : Type.
Variable post : string -> requestBody -> World -> reply * World.
Variable get : string -> World -> reply * World.
Variable bodyError : option string -> string.
Variable requestError : XacmlRequest -> string.

Local Abbreviation createDomain := (createDomain World post bodyError).
Local Abbreviation addPolicy := (addPolicy World post).
Local Abbreviation evaluateRequest := (evaluateRequest World post requestError).

(** X5: [createDomain] either returns the part of the first link's
    [href] that follows its last [/], which is never empty, taken from
    the response to the one request it sent; or it throws.  When the
    body cannot be written (an [externalId] with a character that XML
    does not allow) nothing is sent and the error of [js2xmlparser]
    leaves the function as it is; every other error (of the request, of
    the parser, a missing link, an [href] that is empty or ends with
    [/]) has a message that starts with [Failed to create domain:]. *)
Theorem createDomain_returns_link_tail (domainId : option string)
        (w : World) :
  match createDomain domainId w with
  | (Return id, w') =>
      exists body status data tree a before,
        domainPropertiesXml domainId = Some body
        /\ post "/domains" (XmlTree body) w = (Replied status data, w')
        /\ parsed data = Return tree
        /\ select1 (selectAttributes "link" "href" tree) = Some a
        /\ snd a = (before ++ id)%string
        /\ (before = EmptyString \/ exists p, before = (p ++ "/")%string)
        /\ id <> EmptyString
        /\ includes "/" id = false
  | (Throw m, w') =>
      match domainPropertiesXml domainId with
      | None => m = bodyError domainId /\ w' = w
      | Some body =>
          startsWith "Failed to create domain: " m = true
          /\ w' = snd (post "/domains" (XmlTree body) w)
      end
  end.
Proof.
  unfold Lifecycle.createDomain.
  destruct (domainPropertiesXml domainId) as [body|]; [|auto].
  destruct (post "/domains" (XmlTree body) w) as [[status data|m r] w']
    eqn:Ep.
  - destruct (linkTailOf data _ _) as [t|m] eqn:E.
    + apply linkTailOf_returns in E.
      destruct E as [tree [a [before H]]].
      exists body, status, data, tree, a, before.
      split; [reflexivity|]. split; [exact Ep | exact H].
    + split; [apply startsWith_append | reflexivity].
  - split; [apply startsWith_append | reflexivity].
Qed.

(** X6: [addPolicy] posts the policy text as it is and either returns the
    part of the first link's [href] that follows its last [/] as the
    version, never an empty one; or it throws.  The message of the error
    starts with [Failed to add policy], the policy id and a colon,
    except when the request failed with an error that has a [response]
    whose data is not a string: then the TypeError of the [catch] block's
    own [formatXml] call leaves the function. *)
Theorem addPolicy_returns_link_tail (domainId policyXml policyId : string)
        (w : World) :
  let sent :=
    post ("/domains/" ++ domainId ++ "/pap/policies")%string
      (XmlText policyXml) w in
  match addPolicy domainId policyXml policyId w with
  | (Return version, w') =>
      exists status data tree a before,
        sent = (Replied status data, w')
        /\ formatError data = None
        /\ parsed data = Return tree
        /\ select1 (selectAttributes "link" "href" tree) = Some a
        /\ snd a = (before ++ version)%string
        /\ (before = EmptyString \/ exists p, before = (p ++ "/")%string)
        /\ version <> EmptyString
        /\ includes "/" version = false
  | (Throw m, w') =>
      w' = snd sent
      /\ match fst sent with
         | Failed _ (Some errorData) =>
             match formatError errorData with
             | Some e => m = e
             | None =>
                 startsWith ("Failed to add policy " ++ policyId ++ ": ")%string
                   m = true
             end
         | _ =>
             startsWith ("Failed to add policy " ++ policyId ++ ": ")%string
               m = true
         end
  end.
Proof.
  cbv zeta. unfold Lifecycle.addPolicy. cbv zeta.
  destruct (post _ (XmlText policyXml) w) as [[status data|m [d|]] w'];
    cbn [fst snd].
  - unfold formatXml. destruct (formatError data) as [e|] eqn:Ef.
    + split; [reflexivity | apply startsWith_append].
    + destruct (linkTailOf data _ _) as [t|m] eqn:E; cbn [rethrow].
      * apply linkTailOf_returns in E.
        destruct E as [tree [a [before H]]].
        exists status, data, tree, a, before.
        split; [reflexivity|]. split; [exact Ef | exact H].
      * split; [reflexivity | apply startsWith_append].
  - unfold formatXml. destruct (formatError d) as [e|].
    + split; reflexivity.
    + split; [reflexivity | apply startsWith_append].
  - split; [reflexivity | apply startsWith_append].
Qed.

(** X7: when the server answers an evaluation with a document that has
    no element of local name [Decision], [evaluateRequest] throws
    (with [Failed to evaluate request:] before the cause); it returns no
    decision. *)
Theorem evaluateRequest_needs_a_decision (domainId : string)
        (request : XacmlRequest) (requestXml : node) (w w' : World)
        (status : nat) (data : responseData) (tree : node) :
  buildRequestXml request = Some requestXml ->
  post ("/domains/" ++ domainId ++ "/pdp")%string (XmlTree requestXml) w
  = (Replied status data, w') ->
  parsed data = Return tree ->
  selectByLocalName "Decision" tree = [] ->
  exists cause,
    evaluateRequest domainId request w
    = (Throw ("Failed to evaluate request: " ++ cause)%string, w').
Proof.
  intros Hxml Hpost Htree Hnone. unfold Lifecycle.evaluateRequest.
  rewrite Hxml, Hpost, Htree.
  apply selectTexts_without_element in Hnone.
  unfold formatXml. destruct (formatError data) as [e|].
  { eexists. reflexivity. }
  unfold parseDecisionResponse, parseXmlToDom.
  destruct (getElementsByTagName "parsererror" tree).
  - rewrite Hnone. eexists. reflexivity.
  - eexists. reflexivity.
Qed.

End Client.

Lemma evaluateRequest_needs_a_decision_witness :
  exists cause,
    evaluateRequest unit
      (fun _ _ w =>
         (Replied 200 (xmlData (Element EmptyString "Response" [] [])), w))
      (fun _ => "invalid"%string)
      "d" exampleQuery tt
    = (Throw ("Failed to evaluate request: " ++ cause)%string, tt).
Proof.
  apply (evaluateRequest_needs_a_decision unit
           (fun _ _ w =>
              (Replied 200 (xmlData (Element EmptyString "Response" [] [])),
               w))
           (fun _ => "invalid"%string)
           "d" exampleQuery (requestDocument exampleQuery) tt tt 200
           (xmlData (Element EmptyString "Response" [] []))
           (Element EmptyString "Response" [] []));
    reflexivity.
Defined.

(** X8: the id or version taken from a response does not depend on the
    namespace prefixes of its elements, as long as both documents pass
    the parser-error check. *)
Theorem linkTail_ignores_prefixes (f : string -> string) (data : node)
        (noLink noTail : string) :
  getElementsByTagName "parsererror" data = [] ->
  getElementsByTagName "parsererror" (mapPrefix f data) = [] ->
  linkTail (mapPrefix f data) noLink noTail = linkTail data noLink noTail.
Proof.
  intros H0 H1. unfold linkTail, parseXmlToDom.
  rewrite H0, H1, selectAttributes_mapPrefix. reflexivity.
Qed.

Lemma linkTail_ignores_prefixes_witness :
  linkTail (mapPrefix (fun _ => "ns5") (linkResponse "domains/abc")) "a" "b"
  = linkTail (linkResponse "domains/abc") "a" "b".
Proof.
  apply (linkTail_ignores_prefixes (fun _ => "ns5")
           (linkResponse "domains/abc") "a" "b"); reflexivity.
Defined.

End LifecycleFacts.

(** ** More on the readiness poll *)

Module ReadinessFacts.
Import XacmlTestUtils Readiness Lifecycle.
Local Open Scope list_scope.
Local Open Scope Z_scope.

Section Poll.
Variable World : Type.
Variable now : World -> Z.
Variable condition : World -> pollResult * World.
Variable sleep : Z -> World -> World.

Local Abbreviation waitLoop := (waitLoop World now condition sleep).

(** A run throws only if the condition does. *)
Lemma waitLoop_returns_unless_rejected fuel startTime timeout interval :
  (forall w e, fst (condition w) <> Rejects e) ->
  forall w trace out trace' w',
    waitLoop fuel startTime timeout interval w trace = Some (out, trace', w') ->
    exists b, out = Return b.
Proof.
  intros Hnever.
  induction fuel as [|fuel IH]; intros w trace out trace' w' H;
    [discriminate|].
  cbn [XacmlTestUtils.waitLoop] in H. cbv zeta in H.
  destruct (now w - startTime <? timeout).
  - pose proof (Hnever w) as Hw.
    destruct (condition w) as [[| |e] w1].
    + injection H as <- _ _. eexists. reflexivity.
    + apply IH in H. exact H.
    + exfalso. apply (Hw e). reflexivity.
  - injection H as <- _ _. eexists. reflexivity.
Qed.

(** The clock does not go back while the condition runs, and a sleep
    lasts at least as long as asked. *)
Hypothesis condition_clock : forall w, now w <= now (snd (condition w)).
Hypothesis sleep_lasts : forall ms w, now w + ms <= now (sleep ms w).

Lemma waitLoop_spaced fuel startTime timeout interval :
  forall w trace n out trace' w',
    n * interval <= now w - startTime ->
    waitLoop fuel startTime timeout interval w trace = Some (out, trace', w') ->
    exists suffix, trace' = trace ++ suffix /\ spaced interval n suffix.
Proof.
  induction fuel as [|fuel IH]; intros w trace n out trace' w' Hn H;
    [discriminate|].
  cbn [XacmlTestUtils.waitLoop] in H. cbv zeta in H.
  destruct (now w - startTime <? timeout).
  - pose proof (condition_clock w) as Hc.
    destruct (condition w) as [[| |e] w1]; simpl in Hc.
    + injection H as _ <- _. eexists. split; [reflexivity|].
      simpl. auto.
    + pose proof (sleep_lasts interval w1) as Hs.
      apply (IH _ _ (n + 1)) in H; [|lia].
      destruct H as [suffix [-> Hsp]].
      exists ([Poll (now w - startTime) Falsy; Sleep interval] ++ suffix).
      rewrite <- app_assoc. split; [reflexivity|]. simpl. auto.
    + injection H as _ <- _. eexists. split; [reflexivity|].
      simpl. auto.
  - injection H as _ <- _. exists []. rewrite app_nil_r. simpl. auto.
Qed.

End Poll.

Lemma spaced_nth interval trace :
  forall n k e,
    spaced interval n trace ->
    nth_error (pollTimes trace) k = Some e ->
    (n + Z.of_nat k) * interval <= e.
Proof.
  induction trace as [|[elapsed r|ms] rest IH]; intros n k e Hsp Hk.
  - destruct k; discriminate.
  - simpl in Hsp. destruct Hsp as [He Hrest].
    destruct k as [|k]; simpl in Hk.
    + injection Hk as <-. replace (n + Z.of_nat 0) with n by lia. exact He.
    + specialize (IH (n + 1) k e Hrest Hk). lia.
  - simpl in Hsp, Hk. apply IH; assumption.
Qed.

Lemma paced_nth_bounded timeout interval (bound : nat) :
  forall trace k e,
    (List.length trace <= bound)%nat ->
    paced timeout interval trace ->
    nth_error (pollTimes trace) k = Some e ->
    e < timeout.
Proof.
  induction bound as [|bound IH]; intros trace k e Hlen Hp Hk.
  - destruct trace; [destruct k; discriminate | simpl in Hlen; lia].
  - destruct trace as [|[elapsed r|ms] rest]; simpl in Hp.
    + destruct k; discriminate.
    + destruct Hp as [He Hrest]. destruct k as [|k]; simpl in Hk.
      * injection Hk as <-. exact He.
      * destruct r.
        -- destruct rest; [destruct k; discriminate | destruct Hrest].
        -- destruct rest as [|[e' r'|ms] rest']; try destruct Hrest.
           simpl in Hk. simpl in Hlen.
           apply (IH rest' k e); [lia | tauto | exact Hk].
        -- destruct rest; [destruct k; discriminate | destruct Hrest].
    + destruct Hp.
Qed.

Lemma paced_nth timeout interval trace k e :
  paced timeout interval trace ->
  nth_error (pollTimes trace) k = Some e ->
  e < timeout.
Proof. apply (paced_nth_bounded timeout interval (List.length trace)). lia. Qed.

(** X9: with a timeout of zero or less the condition is not called at
    all, not even once, and the result is [false]. *)
Theorem waitForCondition_without_time (World : Type) (now : World -> Z)
        (condition : World -> pollResult * World)
        (sleep : Z -> World -> World)
        (fuel : nat) (timeout interval : Z) (w : World) :
  timeout <= 0 ->
  waitForCondition World now condition sleep (S fuel) timeout interval w
  = Some (Return false, [], w).
Proof.
  intros Ht. unfold waitForCondition. cbn [XacmlTestUtils.waitLoop]. cbv zeta.
  replace (now w - now w <? timeout) with false; [reflexivity|].
  symmetry. apply Z.ltb_ge. lia.
Qed.

Lemma waitForCondition_without_time_witness :
  waitForCondition Z (fun w => w) (readyFrom 0) timerSleep 1 0 100 5
  = Some (Return false, [], 5).
Proof.
  apply (waitForCondition_without_time Z (fun w => w) (readyFrom 0)
           timerSleep 0 0 100 5).
  lia.
Defined.

(** X10: on a clock that the condition does not move back and on which a
    sleep lasts at least as long as asked, the call number [k] (from 0)
    of the condition comes no earlier than [k * interval] after the start
    and before the timeout; so there are never more calls than intervals
    that begin within the timeout. *)
Theorem polls_are_an_interval_apart (World : Type) (now : World -> Z)
        (condition : World -> pollResult * World)
        (sleep : Z -> World -> World)
        (fuel : nat) (timeout interval : Z) (w : World)
        (out : completion bool) (trace : list event) (w' : World)
        (k : nat) (elapsed : Z) :
  (forall w, now w <= now (snd (condition w))) ->
  (forall ms w, now w + ms <= now (sleep ms w)) ->
  waitForCondition World now condition sleep fuel timeout interval w
  = Some (out, trace, w') ->
  nth_error (pollTimes trace) k = Some elapsed ->
  Z.of_nat k * interval <= elapsed < timeout.
Proof.
  intros Hc Hs Hrun Hk. unfold waitForCondition in Hrun. split.
  - destruct (waitLoop_spaced World now condition sleep Hc Hs fuel (now w)
                timeout interval w [] 0 out trace w') as [suffix [E Hsp]];
      [lia | exact Hrun |].
    simpl in E. subst suffix.
    apply (spaced_nth interval trace 0 k elapsed Hsp Hk).
  - destruct (XacmlTestUtilsFacts.waitLoop_run World now condition sleep fuel
                (now w) timeout interval w [] out trace w' Hrun)
      as [suffix [E [Hp _]]].
    simpl in E. subst suffix.
    apply (paced_nth timeout interval trace k elapsed Hp Hk).
Qed.

Lemma polls_are_an_interval_apart_witness :
  2 * 100 <= 200 < 1000.
Proof.
  apply (polls_are_an_interval_apart Z (fun w => w) (readyFrom 200) timerSleep
           1001 1000 100 0 (Return true)
           [Poll 0 Falsy; Sleep 100; Poll 100 Falsy; Sleep 100;
            Poll 200 Truthy] 200 2 200).
  - intros w. unfold readyFrom. simpl. lia.
  - intros ms w. unfold timerSleep. lia.
  - vm_compute. reflexivity.
  - reflexivity.
Defined.

(** X11: the readiness gate on [healthCheck], as the tests use it, never
    throws: [healthCheck] turns every failure of the request into
    [false], so a run that ends returns [true] or [false]. *)
Theorem health_gate_never_throws (World : Type) (now : World -> Z)
        (get : string -> World -> reply * World)
        (sleep : Z -> World -> World)
        (fuel : nat) (timeout interval : Z) (w : World)
        (out : completion bool) (trace : list event) (w' : World) :
  waitForCondition World now (healthCondition World get) sleep
    fuel timeout interval w
  = Some (out, trace, w') ->
  exists b, out = Return b.
Proof.
  unfold waitForCondition.
  apply waitLoop_returns_unless_rejected.
  intros w0 e. unfold healthCondition, healthCheck.
  destruct (get "/domains"%string w0) as [[status data|m r] w1]; simpl.
  - destruct (formatXml data); [|discriminate].
    destruct (Nat.eqb status 200); discriminate.
  - discriminate.
Qed.

Lemma health_gate_never_throws_witness :
  exists b, Return true = Return b.
Proof.
  apply (health_gate_never_throws Z (fun w => w)
           (fun _ w => (if (200 <=? w)
                        then Replied 200 (xmlData (Dom.Text EmptyString))
                        else Failed "connect ECONNREFUSED"%string None, w))
           timerSleep 1001 1000 100 0 (Return true)
           [Poll 0 Falsy; Sleep 100; Poll 100 Falsy; Sleep 100;
            Poll 200 Truthy] 200).
  vm_compute. reflexivity.
Defined.

End ReadinessFacts.

(** ** Policy texts *)

Module PolicyTextFacts.
Import JsString PolicyText StringMoreFacts StringFacts.
Local Open Scope string_scope.

Lemma startsWith_split p s :
  startsWith p s = true -> s = p ++ drop (String.length p) s.
Proof.
  revert s. induction p as [|c p IH]; intros s H; [reflexivity|].
  destruct s as [|d s]; [discriminate|].
  simpl in H. apply andb_true_iff in H. destruct H as [Hc Hp].
  apply Ascii.eqb_eq in Hc. subst d. simpl. f_equal. apply IH, Hp.
Qed.

Lemma startsWith_app p tail : startsWith p (p ++ tail) = true.
Proof.
  induction p as [|c p IH]; [reflexivity|].
  simpl. rewrite Ascii.eqb_refl. exact IH.
Qed.

Lemma startsWith_app_l a b s :
  startsWith (a ++ b) s = true -> startsWith a s = true.
Proof.
  revert s. induction a as [|c a IH]; intros s H; [reflexivity|].
  destruct s as [|d s]; [discriminate|].
  simpl in *. apply andb_true_iff in H. destruct H as [Hc Hp].
  rewrite Hc. apply IH, Hp.
Qed.

Lemma includes_startsWith n s : startsWith n s = true -> includes n s = true.
Proof. intros H. destruct s; simpl in *; rewrite H; reflexivity. Qed.

Lemma includes_cons n c s : includes n s = true -> includes n (String c s) = true.
Proof. intros H. cbn [includes]. rewrite H. apply orb_true_r. Qed.

(** Where [find] finds the double quote: what comes before has none. *)
Lemma find_dquote s k :
  find dquote s = Some k ->
  s = take k s ++ dquote ++ drop (S k) s
  /\ includes dquote (take k s) = false.
Proof.
  revert k. induction s as [|c s IH]; intros k H; [discriminate|].
  cbn [find] in H.
  destruct (startsWith dquote (String c s)) eqn:E.
  - injection H as <-. split; [|reflexivity].
    apply startsWith_split in E. exact E.
  - destruct (find dquote s) as [j|]; [|discriminate].
    injection H as <-. destruct (IH j eq_refl) as [H1 H2].
    split.
    + change (take (S j) (String c s) ++ dquote ++ drop (S (S j)) (String c s))
        with (String c (take j s ++ dquote ++ drop (S j) s)).
      rewrite <- H1. reflexivity.
    + change (take (S j) (String c s)) with (String c (take j s)).
      cbn [includes]. rewrite H2.
      unfold dquote in E |- *. cbn [startsWith] in E |- *.
      rewrite andb_true_r in E. rewrite andb_true_r, E. reflexivity.
Qed.

(** The double quote that ends a text without double quotes is found
    right after it. *)
Lemma find_dquote_past v tail :
  includes dquote v = false ->
  find dquote (v ++ dquote ++ tail) = Some (String.length v).
Proof.
  induction v as [|c v IH]; intros H; [reflexivity|].
  unfold dquote in H. cbn [includes startsWith] in H.
  apply orb_false_iff in H. destruct H as [Hc Hv].
  rewrite andb_true_r in Hc.
  change (String c v ++ dquote ++ tail) with (String c (v ++ dquote ++ tail)).
  cbn [find]. unfold dquote at 1. cbn [startsWith]. rewrite Hc. cbn [andb].
  rewrite (IH Hv). reflexivity.
Qed.

Lemma drop_app_length p s : drop (String.length p) (p ++ s) = s.
Proof. induction p as [|c p IH]; [reflexivity | exact IH]. Qed.

Lemma take_app_length p s : take (String.length p) (p ++ s) = p.
Proof.
  induction p as [|c p IH]; [reflexivity|]. simpl. rewrite IH. reflexivity.
Qed.

Lemma quotedAttribute_shape name v :
  quotedAttribute name v = (name ++ "=" ++ dquote) ++ v ++ dquote.
Proof. unfold quotedAttribute. rewrite !append_assoc. reflexivity. Qed.

(** What the pattern captures stands in the text, between the quotes of
    the attribute. *)
Lemma matchQuoted_sound name s v :
  matchQuoted name s = Some v ->
  v <> EmptyString
  /\ includes dquote v = false
  /\ includes (quotedAttribute name v) s = true.
Proof.
  induction s as [|c s IH]; [discriminate|].
  cbn [matchQuoted].
  assert (Hlater : matchQuoted name s = Some v ->
                   v <> EmptyString
                   /\ includes dquote v = false
                   /\ includes (quotedAttribute name v) (String c s) = true).
  { intros H. destruct (IH H) as [H1 [H2 H3]].
    repeat split; auto. apply includes_cons, H3. }
  clear IH.
  destruct (startsWith (name ++ "=" ++ dquote) (String c s)) eqn:E;
    [|exact Hlater].
  apply startsWith_split in E.
  remember (drop (String.length (name ++ "=" ++ dquote)) (String c s))
    as rest eqn:Erest.
  clear Erest.
  destruct (find dquote rest) as [[|k]|] eqn:F; try exact Hlater.
  clear Hlater. intros H.
  assert (Hv : take (S k) rest = v) by (injection H as H; exact H).
  clear H.
  destruct (find_dquote rest (S k) F) as [Hrest Hnone].
  rewrite Hv in Hrest, Hnone.
  repeat split.
  - rewrite <- Hv. destruct rest; [discriminate F | discriminate].
  - exact Hnone.
  - apply includes_startsWith.
    rewrite E, Hrest, quotedAttribute_shape.
    rewrite <- (append_assoc v dquote).
    rewrite <- (append_assoc (name ++ "=" ++ dquote) (v ++ dquote)).
    apply startsWith_app.
Qed.

(** An attribute with a quoted value that is not empty is matched. *)
Lemma matchQuoted_complete name s v :
  v <> EmptyString ->
  includes dquote v = false ->
  includes (quotedAttribute name v) s = true ->
  matchQuoted name s <> None.
Proof.
  intros Hv Hq.
  induction s as [|c s IH]; intros H.
  - exfalso. unfold quotedAttribute in H.
    destruct name; discriminate H.
  - cbn [matchQuoted].
    destruct (startsWith (quotedAttribute name v) (String c s)) eqn:E.
    + apply startsWith_split in E.
      remember (drop (String.length (quotedAttribute name v)) (String c s))
        as tail eqn:Etail.
      clear Etail. rewrite quotedAttribute_shape in E.
      rewrite (append_assoc (name ++ "=" ++ dquote)) in E.
      rewrite (append_assoc v dquote) in E.
      rewrite E, startsWith_app, drop_app_length, (find_dquote_past _ _ Hq).
      destruct v; [contradiction|]. discriminate.
    + cbn [includes] in H. rewrite E in H. cbn [orb] in H.
      specialize (IH H).
      destruct (startsWith (name ++ "=" ++ dquote) (String c s));
        [|exact IH].
      destruct (find dquote _) as [[|k]|]; [exact IH | discriminate | exact IH].
Qed.

(** X12: the id that [extractPolicyId] returns is never empty, has no
    double quote, and stands in the text as the quoted value of a
    [PolicySetId] or [PolicyId] attribute. *)
Theorem extracted_id_is_in_the_text (policyXml id : string) :
  extractPolicyId policyXml = Some id ->
  id <> EmptyString
  /\ includes dquote id = false
  /\ (includes (quotedAttribute "PolicySetId" id) policyXml = true
      \/ includes (quotedAttribute "PolicyId" id) policyXml = true).
Proof.
  unfold extractPolicyId.
  destruct (matchQuoted "PolicySetId" policyXml) as [v|] eqn:E.
  - intros H. injection H as <-.
    destruct (matchQuoted_sound _ _ _ E) as [H1 [H2 H3]]. auto.
  - intros H. destruct (matchQuoted_sound _ _ _ H) as [H1 [H2 H3]]. auto.
Qed.

Lemma extracted_id_is_in_the_text_witness :
  "root" <> EmptyString
  /\ includes dquote "root" = false
  /\ (includes (quotedAttribute "PolicySetId" "root")
        ("<PolicySet PolicySetId=" ++ dquote ++ "root" ++ dquote ++ ">") = true
      \/ includes (quotedAttribute "PolicyId" "root")
           ("<PolicySet PolicySetId=" ++ dquote ++ "root" ++ dquote ++ ">")
         = true).
Proof.
  apply (extracted_id_is_in_the_text
           ("<PolicySet PolicySetId=" ++ dquote ++ "root" ++ dquote ++ ">")
           "root").
  reflexivity.
Defined.

(** X13: a [PolicySetId] attribute with a quoted value that is not empty
    decides the result, wherever it stands: the id returned is then the
    value of a [PolicySetId] attribute of the text, also when a
    [PolicyId] attribute comes before it. *)
Theorem policySetId_takes_priority (policyXml v : string) :
  v <> EmptyString ->
  includes dquote v = false ->
  includes (quotedAttribute "PolicySetId" v) policyXml = true ->
  exists id,
    extractPolicyId policyXml = Some id
    /\ includes (quotedAttribute "PolicySetId" id) policyXml = true.
Proof.
  intros Hv Hq Hin. unfold extractPolicyId.
  pose proof (matchQuoted_complete "PolicySetId" policyXml v Hv Hq Hin) as Hc.
  destruct (matchQuoted "PolicySetId" policyXml) as [id|] eqn:E;
    [|contradiction].
  exists id. split; [reflexivity|].
  apply (matchQuoted_sound _ _ _ E).
Qed.

Lemma policySetId_takes_priority_witness :
  exists id,
    extractPolicyId
      ("<Policy PolicyId=" ++ dquote ++ "p" ++ dquote
       ++ "/><PolicySet PolicySetId=" ++ dquote ++ "root" ++ dquote ++ ">")
    = Some id
    /\ includes (quotedAttribute "PolicySetId" id)
         ("<Policy PolicyId=" ++ dquote ++ "p" ++ dquote
          ++ "/><PolicySet PolicySetId=" ++ dquote ++ "root" ++ dquote ++ ">")
       = true.
Proof.
  apply (policySetId_takes_priority _ "root").
  - discriminate.
  - reflexivity.
  - reflexivity.
Defined.

(** X14: [extractPolicyId] returns null only for a text that has neither
    a [PolicySetId] nor a [PolicyId] attribute with a quoted value that
    is not empty. *)
Theorem no_id_only_without_attribute (policyXml v : string) :
  extractPolicyId policyXml = None ->
  v <> EmptyString ->
  includes dquote v = false ->
  includes (quotedAttribute "PolicySetId" v) policyXml = false
  /\ includes (quotedAttribute "PolicyId" v) policyXml = false.
Proof.
  unfold extractPolicyId. intros H Hv Hq.
  destruct (matchQuoted "PolicySetId" policyXml) eqn:E1; [discriminate|].
  split.
  - destruct (includes (quotedAttribute "PolicySetId" v) policyXml) eqn:E;
      [|reflexivity].
    exfalso. apply (matchQuoted_complete _ _ _ Hv Hq E). exact E1.
  - destruct (includes (quotedAttribute "PolicyId" v) policyXml) eqn:E;
      [|reflexivity].
    exfalso. apply (matchQuoted_complete _ _ _ Hv Hq E). exact H.
Qed.

Lemma no_id_only_without_attribute_witness :
  includes (quotedAttribute "PolicySetId" "x")
    ("<Policy PolicyId=" ++ dquote ++ dquote ++ ">") = false
  /\ includes (quotedAttribute "PolicyId" "x")
       ("<Policy PolicyId=" ++ dquote ++ dquote ++ ">") = false.
Proof.
  apply (no_id_only_without_attribute
           ("<Policy PolicyId=" ++ dquote ++ dquote ++ ">") "x").
  - reflexivity.
  - discriminate.
  - reflexivity.
Defined.

Lemma includes_shorter_needle a b s :
  includes (a ++ b) s = true -> includes a s = true.
Proof.
  induction s as [|c s IH]; cbn [includes]; intros H.
  - rewrite orb_false_r in *. apply startsWith_app_l in H. rewrite H.
    reflexivity.
  - apply orb_true_iff in H. destruct H as [H|H].
    + apply startsWith_app_l in H. rewrite H. reflexivity.
    + rewrite (IH H). apply orb_true_r.
Qed.

(** X15: [validatePolicyXml] reports a text as valid exactly when it has
    no error to report, and that is exactly when the text contains
    [<Policy] and [PolicyId]; a missing [xmlns] only gives a warning.  A
    policy set that is identified by [PolicySetId] alone is therefore
    reported as invalid. *)
Theorem valid_iff_no_errors (policyXml : string) :
  let validation := validatePolicyXml policyXml in
  (isValid validation = true <-> errors validation = [])
  /\ isValid validation
     = includes "<Policy" policyXml && includes "PolicyId" policyXml
  /\ (warnings validation = [] <-> includes "xmlns" policyXml = true).
Proof.
  unfold validatePolicyXml.
  pose proof (includes_shorter_needle "<Policy" "Set" policyXml) as Hset.
  change ("<Policy" ++ "Set") with "<PolicySet" in Hset.
  destruct (includes "<Policy" policyXml),
    (includes "<PolicySet" policyXml),
    (includes "xmlns" policyXml),
    (includes "PolicyId" policyXml); simpl;
    try (specialize (Hset eq_refl); discriminate Hset);
    repeat split; intros; try reflexivity; try discriminate.
Qed.

End PolicyTextFacts.

(** ** More on the decoder *)

Module DecoderMoreFacts.
Import JsString Dom Decoder ListFacts DecoderFacts.
Local Open Scope list_scope.

(** Every selected text is the data of a text child of an element of the
    document that has the local name asked for. *)
Lemma textsGo_from_element name d n :
  forall under,
    In d (textsGo name under n) ->
    (under = true /\ n = Text d)
    \/ exists p attrs cs,
        In (Element p name attrs cs) (descendantsOrSelf n)
        /\ In (Text d) cs.
Proof.
  induction n as [d' | p l attrs cs IH] using node_induction;
    intros under H.
  - simpl in H. destruct under; [|destruct H].
    destruct H as [<- | []]. left. auto.
  - right. cbn [textsGo] in H. apply in_flat_map in H.
    destruct H as [c [Hc Hd]].
    rewrite Forall_forall in IH.
    destruct (IH c Hc _ Hd) as [[Hu ->] | [p' [attrs' [cs' [Hin Hchild]]]]].
    + apply String.eqb_eq in Hu. subst l.
      exists p, attrs, cs. split; [left; reflexivity | exact Hc].
    + exists p', attrs', cs'. split; [|exact Hchild].
      cbn [descendantsOrSelf]. right. apply in_flat_map.
      exists c. auto.
Qed.

(** X16: whenever [parseDecisionResponse] returns, the decision is not
    empty: it is the (escaped) data of a text child of an element of the
    response whose local name is [Decision].  An empty decision is never
    returned, and neither is one that is not in the response. *)
Theorem returned_decision_is_in_the_response (doc : node)
        (r : XacmlDecisionResponse) :
  parseDecisionResponse doc = Return r ->
  decision r <> EmptyString
  /\ exists p attrs cs d,
      In (Element p "Decision" attrs cs) (descendantsOrSelf doc)
      /\ In (Text d) cs
      /\ decision r = textToString d.
Proof.
  unfold parseDecisionResponse, parseXmlToDom.
  destruct (getElementsByTagName "parsererror" doc); [|discriminate].
  destruct (select1 (selectTexts "Decision" doc)) as [d|] eqn:E;
    [|discriminate].
  cbn [option_map orNull].
  destruct (truthy (textToString d)) eqn:T; [|discriminate].
  intros H. injection H as <-. cbn [decision]. split.
  - intros E0. rewrite E0 in T. discriminate.
  - unfold select1, selectTexts in E.
    assert (Hin : In d (textsGo "Decision" false doc)).
    { destruct (textsGo "Decision" false doc); [discriminate|].
      injection E as ->. left. reflexivity. }
    apply textsGo_from_element in Hin.
    destruct Hin as [[Hf _] | [p [attrs [cs [H1 H2]]]]]; [discriminate|].
    exists p, attrs, cs, d. auto.
Qed.

Lemma returned_decision_is_in_the_response_witness :
  "Permit" <> EmptyString
  /\ exists p attrs cs d,
      In (Element p "Decision" attrs cs) (descendantsOrSelf permitResponse)
      /\ In (Text d) cs
      /\ "Permit" = textToString d.
Proof.
  apply (returned_decision_is_in_the_response permitResponse
           {| decision := "Permit";
              status := Some (" Value=" ++ dquote ++ statusOk ++ dquote)%string;
              obligations := [];
              advice := [] |}).
  reflexivity.
Defined.

End DecoderMoreFacts.

(** ** The assertions of the tests *)

Module AssertionFacts.
Import JsString Dom Decoder Assertions DecoderFacts.
Local Open Scope list_scope.

(** X24: on a result of [parseDecisionResponse], an expectation that
    gives a status passes [assertDecision] only when that status is the
    serialized [Value] attribute of the first StatusCode (a blank, the
    name, the quoted value); an expectation that gives the value of the
    attribute itself never passes. *)
Theorem expected_status_is_never_the_value (E : Type)
        (equals : node -> E -> bool) (doc : node)
        (r : XacmlDecisionResponse) (expected : ExpectedDecision E)
        (s : string) :
  parseDecisionResponse doc = Return r ->
  expectedStatus expected = Some s ->
  truthy s = true ->
  assertDecision E equals r expected = Passed ->
  exists a,
    select1 (selectAttributes "StatusCode" "Value" doc) = Some a
    /\ s = attrToString a
    /\ s <> snd a.
Proof.
  intros Hr Hs Ht. unfold assertDecision. rewrite Hs, Ht.
  destruct (negb (toBe (Some (decision r)) (expectedDecision expected)));
    [discriminate|].
  cbn [andb].
  destruct (toBe (status r) s) eqn:Hb; cbn [negb]; [|discriminate].
  intros _.
  destruct (returned_fields doc r Hr) as [Hst _].
  rewrite Hst in Hb.
  destruct (select1 (selectAttributes "StatusCode" "Value" doc)) as [a|];
    [|discriminate].
  cbn [option_map toBe] in Hb. apply String.eqb_eq in Hb.
  exists a. repeat split; [congruence|].
  intros Heq. pose proof (attrToString_longer a) as Hlen.
  rewrite Hb, Heq in Hlen. lia.
Qed.

Lemma expected_status_is_never_the_value_witness :
  exists a,
    select1 (selectAttributes "StatusCode" "Value" permitResponse) = Some a
    /\ (" Value=" ++ dquote ++ statusOk ++ dquote)%string = attrToString a
    /\ (" Value=" ++ dquote ++ statusOk ++ dquote)%string <> snd a.
Proof.
  apply (expected_status_is_never_the_value unit (fun _ _ => true)
           permitResponse
           {| decision := "Permit";
              status := Some (" Value=" ++ dquote ++ statusOk ++ dquote)%string;
              obligations := [];
              advice := [] |}
           {| expectedDecision := "Permit";
              expectedStatus :=
                Some (" Value=" ++ dquote ++ statusOk ++ dquote)%string;
              expectedObligations := None;
              expectedAdvice := None |});
    reflexivity.
Defined.

End AssertionFacts.

(** ** More on the build script *)

Module BuildXacmlMoreFacts.
Import JsString BuildXacml BuildXacmlMore StringFacts StringMoreFacts.
Import BuildXacmlFacts PolicyTextFacts.
Local Open Scope string_scope.

Lemma find_none n s : includes n s = false -> find n s = None.
Proof.
  induction s as [|c s IH]; cbn [includes find]; intros H.
  - rewrite orb_false_r in H. rewrite H. reflexivity.
  - apply orb_false_iff in H. destruct H as [H1 H2].
    rewrite H1, (IH H2). reflexivity.
Qed.

Lemma find_some n s : includes n s = true -> exists k, find n s = Some k.
Proof.
  induction s as [|c s IH]; cbn [includes find]; intros H.
  - rewrite orb_false_r in H. rewrite H. eexists. reflexivity.
  - destruct (startsWith n (String c s)); [eexists; reflexivity|].
    destruct (IH H) as [k Hk]. rewrite Hk. eexists. reflexivity.
Qed.

Lemma find_startsWith n s k :
  find n s = Some k -> startsWith n (drop k s) = true.
Proof.
  revert k. induction s as [|c s IH]; intros k; cbn [find].
  - destruct (startsWith n EmptyString) eqn:E; [|discriminate].
    intros H. injection H as <-. exact E.
  - destruct (startsWith n (String c s)) eqn:E.
    + intros H. injection H as <-. exact E.
    + destruct (find n s) as [j|]; [|discriminate].
      intros H. injection H as <-. apply IH. reflexivity.
Qed.

Lemma drop_drop a b s : drop (a + b) s = drop b (drop a s).
Proof.
  revert s. induction a as [|a IH]; intros s; [reflexivity|].
  destruct s as [|c s]; simpl; [destruct b; reflexivity | apply IH].
Qed.

(** X17: a text without any [<] is formatted to the empty text: what is
    not inside an element is dropped. *)
Theorem formatXML_drops_bare_text (xmlString : string) :
  includes "<" xmlString = false ->
  formatXML xmlString = Some (Return EmptyString).
Proof.
  intros H. unfold formatXML. cbn [formatLoop].
  destruct (Nat.ltb 0 (String.length xmlString)); [|reflexivity].
  unfold iterate, indexOf. cbn [drop]. rewrite (find_none _ _ H). reflexivity.
Qed.

Lemma formatXML_drops_bare_text_witness :
  formatXML "no tags here" = Some (Return EmptyString).
Proof. apply (formatXML_drops_bare_text "no tags here"). reflexivity. Defined.

(** X18: when the first tag of the text is a closing tag, [formatXML]
    throws (the indentation count falls below zero); it returns
    nothing. *)
Theorem formatXML_rejects_leading_closing_tag (before rest : string) :
  includes "<" before = false ->
  includes ">" rest = true ->
  formatXML (before ++ "</" ++ rest) = Some (Throw "Invalid count value: -1").
Proof.
  intros Hb Hr. unfold formatXML.
  set (s := before ++ "</" ++ rest).
  assert (Hlen : (0 <? String.length s)%nat = true).
  { apply Nat.ltb_lt. unfold s. rewrite length_append. simpl. lia. }
  cbn [formatLoop]. rewrite Hlen.
  destruct (find_some ">" rest Hr) as [k Hk].
  assert (H1 : indexOf s "<" 0 = Some (String.length before)).
  { unfold indexOf, s. cbn [drop].
    rewrite (find_past_text EmptyString before _ Hb). reflexivity. }
  assert (Hd : drop (String.length before) s = "</" ++ rest).
  { unfold s. apply drop_app_length. }
  assert (H2 : indexOf s ">" (String.length before)
               = Some (String.length before + S (S k))).
  { unfold indexOf. rewrite Hd.
    change (find ">" ("</" ++ rest))
      with (option_map S (option_map S (find ">" rest))).
    rewrite Hk. reflexivity. }
  unfold iterate. rewrite H1, H2.
  assert (Hf : substring s (String.length before)
                 (String.length before + S (S k) + 1)
               = "</" ++ take (S k) rest).
  { unfold substring. rewrite Hd.
    replace (String.length before + S (S k) + 1 - String.length before)%nat
      with (S (S (S k))) by lia.
    reflexivity. }
  rewrite Hf. reflexivity.
Qed.

Lemma formatXML_rejects_leading_closing_tag_witness :
  formatXML (" " ++ "</" ++ "B><A/>") = Some (Throw "Invalid count value: -1").
Proof.
  apply (formatXML_rejects_leading_closing_tag " " "B><A/>"); reflexivity.
Defined.

(** *** The lines of the output *)

Lemma trimStart_indent n x : trimStart (indent n ++ x) = trimStart x.
Proof. induction n as [|n IH]; [reflexivity | exact IH]. Qed.

Lemma isTagLine_indent n x :
  startsWith "<" x = true -> isTagLine (indent n ++ x) = true.
Proof.
  intros H. unfold isTagLine. rewrite trimStart_indent.
  destruct x as [|c x]; [discriminate|].
  cbn [startsWith] in H. apply andb_true_iff in H. destruct H as [Hc _].
  apply Ascii.eqb_eq in Hc. subst c. reflexivity.
Qed.

Lemma startsWith_append_l n x y :
  startsWith n x = true -> startsWith n (x ++ y) = true.
Proof.
  revert x. induction n as [|c n IH]; intros x H; [reflexivity|].
  destruct x as [|d x]; [discriminate|].
  simpl in *. apply andb_true_iff in H. destruct H as [Hc Hn].
  rewrite Hc. apply IH, Hn.
Qed.

(** The tag that a pass cuts out starts with [<]. *)
Lemma fullTag_starts s i tagStart tagEnd :
  indexOf s "<" i = Some tagStart ->
  indexOf s ">" tagStart = Some tagEnd ->
  startsWith "<" (substring s tagStart (tagEnd + 1)) = true.
Proof.
  intros H1 H2. pose proof (indexOf_ge _ _ _ _ H2) as Hge.
  unfold indexOf in H1.
  destruct (find "<" (drop i s)) as [k|] eqn:F; [|discriminate].
  injection H1 as <-. apply find_startsWith in F.
  rewrite <- drop_drop in F.
  unfold substring.
  destruct (drop (i + k) s) as [|c r]; [discriminate|].
  replace (tagEnd + 1 - (i + k))%nat with (S (tagEnd - (i + k))) by lia.
  exact F.
Qed.

Lemma Forall_snoc {A} (P : A -> Prop) l x :
  Forall P l -> P x -> Forall P (l ++ [x])%list.
Proof. intros Hl Hx. apply Forall_app. split; [exact Hl | repeat constructor; exact Hx]. Qed.



(** *** White space after [transformXacmlNamespace] *)

(** The last step of [transformXacmlNamespace]. *)
Local Abbreviation collapse := (replaceAll matchWhitespace " ").

Lemma replaceAllGo_skip matchAt by_ s :
  forall k,
    replaceAllGo matchAt by_ k s = replaceAllGo matchAt by_ 0 (drop k s).
Proof.
  induction s as [|c s IH]; intros k.
  - destruct k; reflexivity.
  - destruct k as [|k]; [reflexivity|]. cbn [replaceAllGo drop]. apply IH.
Qed.

Lemma collapse_cons c s :
  collapse (String c s)
  = if isWhitespace c
    then String " " (collapse (drop (whitespaceRun s) s))
    else String c (collapse s).
Proof.
  unfold replaceAll. cbn [replaceAllGo]. unfold matchWhitespace.
  cbn [whitespaceRun]. destruct (isWhitespace c); [|reflexivity].
  rewrite replaceAllGo_skip. reflexivity.
Qed.

Lemma drop_run_head s : headNotWhitespace (drop (whitespaceRun s) s) = true.
Proof.
  induction s as [|c s IH]; [reflexivity|].
  cbn [whitespaceRun]. destruct (isWhitespace c) eqn:E.
  - exact IH.
  - simpl. rewrite E. reflexivity.
Qed.

Lemma drop_length_le k s : (String.length (drop k s) <= String.length s)%nat.
Proof.
  revert s. induction k as [|k IH]; intros s; [apply Nat.le_refl|].
  destruct s as [|c s]; [apply Nat.le_refl|].
  simpl. specialize (IH s). lia.
Qed.

Lemma collapse_head s :
  headNotWhitespace s = true -> headNotWhitespace (collapse s) = true.
Proof.
  destruct s as [|c s]; [reflexivity|].
  simpl headNotWhitespace. intros H. rewrite collapse_cons.
  apply negb_true_iff in H. rewrite H. simpl. rewrite H. reflexivity.
Qed.

Lemma collapse_singleBlanks_bounded (bound : nat) :
  forall s, (String.length s <= bound)%nat -> singleBlanks (collapse s) = true.
Proof.
  induction bound as [|bound IH]; intros s Hlen.
  - destruct s; [reflexivity | simpl in Hlen; lia].
  - destruct s as [|c s]; [reflexivity|].
    simpl in Hlen. rewrite collapse_cons.
    destruct (isWhitespace c) eqn:E.
    + pose proof (drop_length_le (whitespaceRun s) s) as Hd.
      pose proof (collapse_head _ (drop_run_head s)) as Hh.
      cbn [singleBlanks]. rewrite IH by lia.
      unfold headNotWhitespace in Hh.
      destruct (collapse (drop (whitespaceRun s) s)); [reflexivity|].
      rewrite Hh. reflexivity.
    + cbn [singleBlanks]. rewrite E, IH by lia. reflexivity.
Qed.

(** X20: in what [transformXacmlNamespace] returns, every white space
    character is a blank, and no blank is next to another white space
    character: line breaks, tabs and runs of blanks of the input are
    gone, inside attribute values too. *)
Theorem transformed_text_has_single_blanks (xmlContent : string) :
  singleBlanks (transformXacmlNamespace xmlContent) = true.
Proof.
  unfold transformXacmlNamespace.
  apply (collapse_singleBlanks_bounded _ _ (Nat.le_refl _)).
Qed.

Lemma whitespaceRun_app a c b :
  isWhitespace c = false ->
  whitespaceRun (a ++ String c b) = whitespaceRun a.
Proof.
  intros Hc. induction a as [|d a IH]; simpl.
  - rewrite Hc. reflexivity.
  - destruct (isWhitespace d); [rewrite IH|]; reflexivity.
Qed.

Lemma whitespaceRun_le s : (whitespaceRun s <= String.length s)%nat.
Proof.
  induction s as [|c s IH]; simpl; [lia|].
  destruct (isWhitespace c); lia.
Qed.

Lemma drop_app_le k a b :
  (k <= String.length a)%nat -> drop k (a ++ b) = drop k a ++ b.
Proof.
  revert a. induction k as [|k IH]; intros a H; [reflexivity|].
  destruct a as [|c a]; [simpl in H; lia|].
  simpl. apply IH. simpl in H. lia.
Qed.

(** Collapsing goes through a place where a character that is not white
    space follows. *)
Lemma collapse_app_bounded (bound : nat) c b :
  isWhitespace c = false ->
  forall a,
    (String.length a <= bound)%nat ->
    collapse (a ++ String c b) = collapse a ++ collapse (String c b).
Proof.
  intros Hc. induction bound as [|bound IH]; intros a Hlen.
  - destruct a; [reflexivity | simpl in Hlen; lia].
  - destruct a as [|d a]; [reflexivity|].
    simpl in Hlen.
    change (String d a ++ String c b) with (String d (a ++ String c b)).
    rewrite (collapse_cons d (a ++ String c b)), (collapse_cons d a).
    destruct (isWhitespace d).
    + rewrite (whitespaceRun_app a c b Hc).
      rewrite (drop_app_le _ _ _ (whitespaceRun_le a)).
      pose proof (drop_length_le (whitespaceRun a) a) as Hd.
      rewrite IH by lia. reflexivity.
    + rewrite IH by lia. reflexivity.
Qed.

Lemma includes_app_r n a b : includes n b = true -> includes n (a ++ b) = true.
Proof.
  intros H. induction a as [|c a IH]; [exact H|].
  apply (includes_cons n c (a ++ b) IH).
Qed.

(** X21: whenever the text, once the [xacml3] declaration and prefixes
    are removed, contains [<PolicySet] followed by a blank, the text that
    [transformXacmlNamespace] returns contains [<PolicySet] with the
    default namespace of XACML 3.0 as its first attribute. *)
Theorem default_namespace_is_installed (xmlContent : string) :
  includes "<PolicySet " (stripXacml3 xmlContent) = true ->
  includes ("<PolicySet " ++ defaultNamespaceDecl)
    (transformXacmlNamespace xmlContent) = true.
Proof.
  intros H. unfold transformXacmlNamespace. fold (stripXacml3 xmlContent).
  destruct (find_some _ _ H) as [k Hk].
  unfold replaceFirst. rewrite Hk.
  set (before := take k (stripXacml3 xmlContent)).
  set (rest := drop (k + String.length "<PolicySet ")
                 (stripXacml3 xmlContent)).
  change (("<PolicySet " ++ defaultNamespaceDecl ++ " ") ++ rest)
    with (String "<" ("PolicySet " ++ defaultNamespaceDecl ++ " " ++ rest)).
  rewrite (collapse_app_bounded _ "<" _ eq_refl before (Nat.le_refl _)).
  apply includes_app_r, includes_startsWith.
  reflexivity.
Qed.

Lemma default_namespace_is_installed_witness :
  includes ("<PolicySet " ++ defaultNamespaceDecl)
    (transformXacmlNamespace oneLinePolicySet) = true.
Proof.
  apply (default_namespace_is_installed oneLinePolicySet). reflexivity.
Defined.

(** *** Formatting what was formatted *)

Lemma indexOf_shift s needle i k :
  indexOf s needle (i + k) = option_map (Nat.add i) (indexOf (drop i s) needle k).
Proof.
  unfold indexOf. rewrite drop_drop.
  destruct (find needle (drop k (drop i s))); simpl; [|reflexivity].
  f_equal. lia.
Qed.

Lemma substring_shift s i a b :
  substring s (i + a) (i + b) = substring (drop i s) a b.
Proof.
  unfold substring. rewrite drop_drop. f_equal. lia.
Qed.

Lemma iterate_shift s i lvl res :
  iterate s i lvl res = shift i (iterate (drop i s) 0 lvl res).
Proof.
  unfold iterate.
  rewrite <- (Nat.add_0_r i) at 1. rewrite indexOf_shift.
  destruct (indexOf (drop i s) "<" 0) as [tagStart|]; [|reflexivity].
  cbn [option_map]. rewrite indexOf_shift.
  destruct (indexOf (drop i s) ">" tagStart) as [tagEnd|]; [|reflexivity].
  cbn [option_map].
  replace (i + tagEnd + 1) with (i + (tagEnd + 1)) by lia.
  rewrite substring_shift.
  set (fullTag := substring (drop i s) tagStart (tagEnd + 1)).
  destruct (startsWith "<?" fullTag || startsWith "<!--" fullTag);
    [reflexivity|].
  destruct (startsWith "</" fullTag); [destruct lvl; reflexivity|].
  destruct (endsWith "/>" fullTag); [reflexivity|].
  destruct (matchTagName fullTag) as [name|]; [|reflexivity].
  rewrite indexOf_shift.
  destruct (indexOf (drop i s) ("</" ++ name ++ ">") (tagEnd + 1))
    as [closingTagStart|]; [|reflexivity].
  cbn [option_map]. rewrite substring_shift.
  destruct (_ && _); cbn [shift]; [|reflexivity].
  f_equal. lia.
Qed.

Lemma formatLoop_shift fuel :
  forall s i lvl res,
    formatLoop fuel s i lvl res = formatLoop fuel (drop i s) 0 lvl res.
Proof.
  induction fuel as [|fuel IH]; intros s i lvl res; [reflexivity|].
  cbn [formatLoop]. rewrite iterate_shift.
  assert (Hlt : (i <? String.length s)%nat
                = (0 <? String.length (drop i s))%nat).
  { clear. revert s. induction i as [|i IH]; intros s; [reflexivity|].
    destruct s as [|c s]; [reflexivity|]. simpl drop. rewrite <- IH.
    reflexivity. }
  rewrite Hlt. destruct (0 <? String.length (drop i s))%nat; [|reflexivity].
  destruct (iterate (drop i s) 0 lvl res) as [j lvl' res'| |m];
    cbn [shift]; try reflexivity.
  rewrite (IH s (i + j)), (IH (drop i s) j), drop_drop. reflexivity.
Qed.

Lemma formatLoop_more_fuel s fuel extra :
  forall i lvl res r,
    formatLoop fuel s i lvl res = Some r ->
    formatLoop (fuel + extra) s i lvl res = Some r.
Proof.
  induction fuel as [|fuel IH]; intros i lvl res r H; [discriminate|].
  cbn [formatLoop Nat.add] in *.
  destruct (i <? String.length s)%nat; [|exact H].
  destruct (iterate s i lvl res); try exact H. apply IH, H.
Qed.

(** Any number of passes that is enough gives what [formatXML] gives. *)
Lemma formatXML_from_run s fuel result :
  formatLoop fuel s 0 0 [] = Some (Return result) ->
  formatXML s = Some (Return (join newline result)).
Proof.
  intros H. unfold formatXML.
  pose proof (formatLoop_enough_fuel s (S (String.length s)) 0 0 []) as Ht.
  destruct (formatLoop (S (String.length s)) s 0 0 []) as [r|] eqn:E.
  - apply (formatLoop_more_fuel _ _ fuel) in E.
    apply (formatLoop_more_fuel _ _ (S (String.length s))) in H.
    rewrite Nat.add_comm in H. rewrite H in E. injection E as <-.
    reflexivity.
  - exfalso. apply Ht; [lia | reflexivity].
Qed.

Lemma find_take_char c text :
  forall m,
    find (String c EmptyString) text = Some m ->
    find (String c EmptyString) (take (S m) text) = Some m
    /\ String.length (take (S m) text) = S m.
Proof.
  induction text as [|d text IH]; intros m H; [discriminate|].
  cbn [find] in H. cbn [startsWith] in H. rewrite andb_true_r in H.
  change (take (S m) (String d text)) with (String d (take m text)).
  cbn [find startsWith String.length]. rewrite andb_true_r.
  destruct (Ascii.eqb c d).
  - injection H as <-. split; reflexivity.
  - destruct (find (String c EmptyString) text) as [j|] eqn:F;
      [|discriminate].
    injection H as <-. destruct (IH j eq_refl) as [H1 H2].
    rewrite H1, H2. split; reflexivity.
Qed.

Lemma fullTag_cut s i tagStart tagEnd :
  indexOf s "<" i = Some tagStart ->
  indexOf s ">" tagStart = Some tagEnd ->
  isCutTag (substring s tagStart (tagEnd + 1)).
Proof.
  intros H1 H2. split; [apply (fullTag_starts s i); assumption|].
  unfold indexOf in H2.
  destruct (find ">" (drop tagStart s)) as [m|] eqn:F; [|discriminate].
  injection H2 as <-. unfold substring.
  replace (tagStart + m + 1 - tagStart) with (S m) by lia.
  destruct (find_take_char _ _ _ F) as [Hf Hl].
  rewrite Hl, Hf. f_equal. lia.
Qed.

Lemma iterate_emits s i lvl res i' lvl' res' :
  iterate s i lvl res = Next i' lvl' res' ->
  exists line, res' = (res ++ [line])%list /\ emits lvl line lvl'.
Proof.
  unfold iterate.
  destruct (indexOf s "<" i) as [tagStart|] eqn:E1; [|discriminate].
  destruct (indexOf s ">" tagStart) as [tagEnd|] eqn:E2; [|discriminate].
  pose proof (fullTag_cut s i tagStart tagEnd E1 E2) as Hcut.
  set (fullTag := substring s tagStart (tagEnd + 1)) in *.
  destruct (startsWith "<?" fullTag || startsWith "<!--" fullTag) eqn:Ed.
  { intros H. injection H as _ <- <-. eexists. split; [reflexivity|].
    apply emits_declaration; assumption. }
  destruct (startsWith "</" fullTag) eqn:Ec.
  { destruct lvl; [discriminate|]. intros H. injection H as _ <- <-.
    eexists. split; [reflexivity|]. apply emits_closing; assumption. }
  destruct (endsWith "/>" fullTag) eqn:Es.
  { intros H. injection H as _ <- <-. eexists. split; [reflexivity|].
    apply emits_selfClosing; assumption. }
  assert (Hopen : isOpeningTag fullTag = true).
  { unfold isOpeningTag. rewrite Ed, Ec, Es. reflexivity. }
  destruct (matchTagName fullTag) as [name|] eqn:En; [|discriminate].
  assert (Hregular :
            Next (tagEnd + 1) (S lvl) (res ++ [(indent lvl ++ fullTag)%string])%list
            = Next i' lvl' res' ->
            exists line, res' = (res ++ [line])%list /\ emits lvl line lvl').
  { intros H. injection H as _ <- <-. eexists. split; [reflexivity|].
    apply emits_regular with name; assumption. }
  destruct (indexOf s _ (tagEnd + 1)) as [closingTagStart|];
    [|exact Hregular].
  destruct (negb (includes "<" _)) eqn:Ht; [|exact Hregular].
  destruct (truthy (trim _)) eqn:Hb; [|exact Hregular].
  cbn [andb]. intros H. injection H as _ <- <-.
  eexists. split; [reflexivity|].
  apply emits_inline; try assumption.
  - apply negb_true_iff in Ht. exact Ht.
  - rewrite <- truthy_trim. exact Hb.
Qed.

Lemma run_chain s fuel :
  forall i lvl res result,
    formatLoop fuel s i lvl res = Some (Return result) ->
    exists added, result = (res ++ added)%list /\ chain lvl added.
Proof.
  induction fuel as [|fuel IH]; intros i lvl res result H; [discriminate|].
  cbn [formatLoop] in H.
  assert (Hstop : Some (Return res) = Some (Return result) ->
                  exists added, result = (res ++ added)%list /\ chain lvl added).
  { intros E. injection E as <-. exists []. rewrite app_nil_r.
    split; [reflexivity | exact I]. }
  destruct (i <? String.length s)%nat; [|exact (Hstop H)].
  destruct (iterate s i lvl res) as [i' lvl' res'| |m] eqn:E;
    [|exact (Hstop H)|discriminate].
  apply iterate_emits in E. destruct E as [line [-> Hline]].
  apply IH in H. destruct H as [added [-> Hchain]].
  exists (line :: added). rewrite <- app_assoc. split; [reflexivity|].
  simpl. exists lvl'. auto.
Qed.

Lemma find_startsWith_0 n s : startsWith n s = true -> find n s = Some 0.
Proof. intros H. destruct s; cbn [find]; rewrite H; reflexivity. Qed.

Lemma find_char_app c a b :
  forall k,
    find (String c EmptyString) a = Some k ->
    find (String c EmptyString) (a ++ b) = Some k.
Proof.
  induction a as [|d a IH]; intros k H; [discriminate|].
  change (String d a ++ b) with (String d (a ++ b)).
  cbn [find startsWith] in *. rewrite andb_true_r in *.
  destruct (Ascii.eqb c d); [exact H|].
  destruct (find (String c EmptyString) a) as [j|]; [|discriminate].
  rewrite (IH j eq_refl). exact H.
Qed.

Lemma includes_char_app c a b :
  includes (String c EmptyString) (a ++ b)
  = includes (String c EmptyString) a || includes (String c EmptyString) b.
Proof.
  induction a as [|d a IH].
  - simpl. destruct (includes (String c EmptyString) b); reflexivity.
  - change (String d a ++ b) with (String d (a ++ b)).
    cbn [includes startsWith]. rewrite !andb_true_r, IH.
    apply orb_assoc.
Qed.

Lemma includes_lt_indent n : includes "<" (indent n) = false.
Proof. induction n as [|n IH]; [reflexivity | exact IH]. Qed.

Lemma hasNonWhitespace_app a b :
  hasNonWhitespace (a ++ b) = hasNonWhitespace a || hasNonWhitespace b.
Proof.
  induction a as [|d a IH]; [reflexivity|].
  simpl. rewrite IH. apply orb_assoc.
Qed.

Lemma hasNonWhitespace_indent n : hasNonWhitespace (indent n) = false.
Proof. induction n as [|n IH]; [reflexivity | exact IH]. Qed.

Lemma blank_has_no_lt blank :
  hasNonWhitespace blank = false -> includes "<" blank = false.
Proof.
  induction blank as [|c blank IH]; [reflexivity|].
  simpl hasNonWhitespace. intros H. apply orb_false_iff in H.
  destruct H as [Hc Hb]. apply negb_false_iff in Hc.
  cbn [includes startsWith]. rewrite andb_true_r, (IH Hb), orb_false_r.
  destruct (Ascii.eqb "<" c) eqn:E; [|reflexivity].
  apply Ascii.eqb_eq in E. subst c. discriminate Hc.
Qed.

Lemma cutTag_length tag : isCutTag tag -> 1 <= String.length tag.
Proof. intros [H _]. destruct tag; [discriminate | simpl; lia]. Qed.

(** Where a pass finds a cut tag that stands behind a text without [<]. *)
Lemma cut_found before tag after :
  includes "<" before = false ->
  isCutTag tag ->
  let s := before ++ tag ++ after in
  indexOf s "<" 0 = Some (String.length before)
  /\ indexOf s ">" (String.length before)
     = Some (String.length before + (String.length tag - 1))
  /\ substring s (String.length before)
       (String.length before + (String.length tag - 1) + 1) = tag
  /\ drop (String.length before + (String.length tag - 1) + 1) s = after.
Proof.
  intros Hb Hcut s. pose proof (cutTag_length tag Hcut) as Hlen.
  destruct Hcut as [Hlt Hgt].
  assert (Hd : drop (String.length before) s = tag ++ after)
    by apply drop_app_length.
  repeat split.
  - unfold indexOf, s. cbn [drop].
    rewrite (find_past_text EmptyString before _ Hb).
    rewrite (find_startsWith_0 "<" (tag ++ after));
      [reflexivity | apply startsWith_append_l, Hlt].
  - unfold indexOf. rewrite Hd, (find_char_app _ _ _ _ Hgt). reflexivity.
  - unfold substring. rewrite Hd.
    replace (String.length before + (String.length tag - 1) + 1
             - String.length before) with (String.length tag) by lia.
    apply take_app_length.
  - replace (String.length before + (String.length tag - 1) + 1)
      with (String.length before + String.length tag) by lia.
    rewrite drop_drop, Hd. apply drop_app_length.
Qed.

(** The pass on a text that begins, after a text without [<], with a cut
    tag. *)
Lemma iterate_on_cut before tag after lvl res :
  includes "<" before = false ->
  isCutTag tag ->
  let A := String.length before + String.length tag in
  iterate (before ++ tag ++ after) 0 lvl res
  = if startsWith "<?" tag || startsWith "<!--" tag then
      Next A lvl (res ++ [tag])
    else if startsWith "</" tag then
      match lvl with
      | O => Raise "Invalid count value: -1"
      | S lvl' => Next A lvl' (res ++ [indent lvl' ++ tag])
      end
    else if endsWith "/>" tag then Next A lvl (res ++ [indent lvl ++ tag])
    else
      match matchTagName tag with
      | None => Raise "Failed to extract tag name from XML."
      | Some name =>
          let closingTag := "</" ++ name ++ ">" in
          let regular := Next A (S lvl) (res ++ [indent lvl ++ tag]) in
          match find closingTag after with
          | Some q =>
              let inner := take q after in
              if negb (includes "<" inner) && truthy (trim inner) then
                Next (A + q + String.length closingTag) lvl
                  (res ++ [indent lvl ++ tag ++ inner ++ closingTag])
              else regular
          | None => regular
          end
      end.
Proof.
  intros Hb Hcut A. pose proof (cutTag_length tag Hcut) as Hlen.
  destruct (cut_found before tag after Hb Hcut) as [H1 [H2 [H3 H4]]].
  unfold iterate. rewrite H1, H2, H3.
  assert (HA : String.length before + (String.length tag - 1) + 1 = A)
    by (unfold A; lia).
  rewrite HA in *.
  destruct (startsWith "<?" tag || startsWith "<!--" tag); [reflexivity|].
  destruct (startsWith "</" tag); [reflexivity|].
  destruct (endsWith "/>" tag); [reflexivity|].
  destruct (matchTagName tag) as [name|]; [|reflexivity].
  cbv zeta. unfold indexOf. rewrite H4.
  destruct (find ("</" ++ name ++ ">") after) as [q|]; [|reflexivity].
  cbn [option_map]. unfold substring. rewrite H4.
  replace (A + q - A) with q by lia. reflexivity.
Qed.

Lemma find_in_empty n c : find (String c n) EmptyString = None.
Proof. reflexivity. Qed.

(** An opening tag that is followed by nothing, or by blanks and a tag,
    is not taken as an element with text. *)
Lemma regular_before_blank name after (yes : nat -> iteration)
      (no : iteration) :
  headBlank after ->
  match find ("</" ++ name ++ ">") after with
  | Some q =>
      if negb (includes "<" (take q after)) && truthy (trim (take q after))
      then yes q else no
  | None => no
  end = no.
Proof.
  intros [-> | [blank [r [-> Hblank]]]]; [reflexivity|].
  change ("</" ++ name ++ ">") with (String "<" ("/" ++ name ++ ">")).
  rewrite (find_past_text _ _ _ (blank_has_no_lt _ Hblank)).
  destruct (find _ (String "<" r)) as [[|q]|]; cbn [option_map];
    [| |reflexivity].
  - cbn [Nat.add]. rewrite take_app_length, truthy_trim, Hblank.
    rewrite andb_false_r. reflexivity.
  - replace (S q + String.length blank)
      with (String.length blank + S q) by lia.
    assert (E : take (String.length blank + S q) (blank ++ String "<" r)
                = blank ++ String "<" (take q r)).
    { clear. induction blank as [|c blank IH]; [reflexivity|].
      simpl. rewrite <- IH. reflexivity. }
    rewrite E, includes_char_app.
    replace (includes "<" (String "<" (take q r))) with true by reflexivity.
    rewrite orb_true_r. reflexivity.
Qed.

Lemma emits_step gap line after lvl lvl' res :
  includes "<" gap = false ->
  headBlank after ->
  emits lvl line lvl' ->
  iterate (gap ++ line ++ after) 0 lvl res
  = Next (String.length (gap ++ line)) lvl' (res ++ [line]).
Proof.
  intros Hgap Hafter Hemits.
  assert (Hpre : forall n, includes "<" (gap ++ indent n) = false).
  { intros n. rewrite includes_char_app, Hgap, includes_lt_indent.
    reflexivity. }
  destruct Hemits as [lvl tag Hcut Hd
                     | lvl tag Hcut Hd Hc
                     | lvl tag Hcut Hd Hc Hs
                     | lvl tag name inner Hcut Hopen Hname Htext Hblank
                     | lvl tag name Hcut Hopen Hname].
  - rewrite (iterate_on_cut gap tag after lvl res Hgap Hcut), Hd.
    rewrite length_append. reflexivity.
  - rewrite append_assoc, <- (append_assoc gap).
    rewrite (iterate_on_cut _ tag after (S lvl) res (Hpre lvl) Hcut), Hd, Hc.
    rewrite !length_append, Nat.add_assoc. reflexivity.
  - rewrite append_assoc, <- (append_assoc gap).
    rewrite (iterate_on_cut _ tag after lvl res (Hpre lvl) Hcut), Hd, Hc, Hs.
    rewrite !length_append, Nat.add_assoc. reflexivity.
  - unfold isOpeningTag in Hopen.
    apply andb_true_iff in Hopen. destruct Hopen as [Hopen Hs].
    apply andb_true_iff in Hopen. destruct Hopen as [Hd Hc].
    apply negb_true_iff in Hd, Hc, Hs.
    replace (gap ++ (indent lvl ++ tag ++ inner ++ "</" ++ name ++ ">") ++ after)
      with ((gap ++ indent lvl) ++ tag
            ++ (inner ++ ("</" ++ name ++ ">") ++ after))
      by (rewrite !append_assoc; reflexivity).
    rewrite (iterate_on_cut _ tag _ lvl res (Hpre lvl) Hcut), Hd, Hc, Hs, Hname.
    cbv zeta.
    change ("</" ++ name ++ ">") with (String "<" ("/" ++ name ++ ">")).
    rewrite (find_past_text _ _ _ Htext).
    rewrite (find_startsWith_0 _ _ (startsWith_app _ after)).
    cbn [option_map Nat.add].
    rewrite take_app_length, Htext, truthy_trim, Hblank. cbn [negb andb].
    f_equal. rewrite !length_append. lia.
  - unfold isOpeningTag in Hopen.
    apply andb_true_iff in Hopen. destruct Hopen as [Hopen Hs].
    apply andb_true_iff in Hopen. destruct Hopen as [Hd Hc].
    apply negb_true_iff in Hd, Hc, Hs.
    rewrite append_assoc, <- (append_assoc gap).
    rewrite (iterate_on_cut _ tag after lvl res (Hpre lvl) Hcut), Hd, Hc, Hs,
      Hname.
    cbv zeta.
    rewrite (regular_before_blank name after _ _ Hafter).
    rewrite !length_append, Nat.add_assoc. reflexivity.
Qed.

Lemma emits_shape lvl line lvl' :
  emits lvl line lvl' ->
  exists n r, line = indent n ++ String "<" r.
Proof.
  assert (Htag : forall tag, isCutTag tag -> exists r, tag = String "<" r).
  { intros tag [H _]. destruct tag as [|c tag]; [discriminate|].
    cbn [startsWith] in H. apply andb_true_iff in H. destruct H as [H _].
    apply Ascii.eqb_eq in H. subst c. eexists. reflexivity. }
  intros [lvl0 tag Hcut _
         | lvl0 tag Hcut _ _
         | lvl0 tag Hcut _ _ _
         | lvl0 tag name inner Hcut _ _ _ _
         | lvl0 tag name Hcut _ _];
    destruct (Htag tag Hcut) as [r ->].
  - exists 0, r. reflexivity.
  - exists lvl0, r. reflexivity.
  - exists lvl0, r. reflexivity.
  - exists lvl0. eexists. reflexivity.
  - exists lvl0, r. reflexivity.
Qed.

Lemma join_cons line rest :
  join newline (line :: rest) = line ++ continuation rest.
Proof.
  destruct rest; simpl; [rewrite append_empty_r|]; reflexivity.
Qed.

Lemma continuation_headBlank lvl rest :
  chain lvl rest -> headBlank (continuation rest).
Proof.
  destruct rest as [|line rest]; [left; reflexivity|].
  intros [lvl' [Hline _]]. right.
  destruct (emits_shape _ _ _ Hline) as [n [r ->]].
  exists (newline ++ indent n), (r ++ continuation rest). split.
  - unfold continuation at 1. rewrite join_cons, !append_assoc. reflexivity.
  - rewrite hasNonWhitespace_app, hasNonWhitespace_indent. reflexivity.
Qed.

Lemma chain_stable lines :
  forall lvl res gap,
    includes "<" gap = false ->
    chain lvl lines ->
    exists fuel,
      formatLoop fuel (gap ++ join newline lines) 0 lvl res
      = Some (Return (res ++ lines)%list).
Proof.
  induction lines as [|line rest IH]; intros lvl res gap Hgap Hchain.
  - exists 1. cbn [formatLoop join]. rewrite append_empty_r, app_nil_r.
    destruct (0 <? String.length gap)%nat; [|reflexivity].
    unfold iterate, indexOf. cbn [drop]. rewrite (find_none _ _ Hgap).
    reflexivity.
  - destruct Hchain as [lvl' [Hline Hrest]].
    pose proof (continuation_headBlank _ _ Hrest) as Hhead.
    assert (Hgap' : exists gap',
               continuation rest = gap' ++ join newline rest
               /\ includes "<" gap' = false).
    { destruct rest; [exists EmptyString | exists newline];
        split; reflexivity. }
    destruct Hgap' as [gap' [Hcont Hgap']].
    destruct (IH lvl' (res ++ [line])%list gap' Hgap' Hrest) as [fuel Hfuel].
    exists (S fuel). rewrite join_cons.
    pose proof (emits_step gap line (continuation rest) lvl lvl' res
                  Hgap Hhead Hline) as Hstep.
    assert (Hlen : 0 < String.length (gap ++ line ++ continuation rest)).
    { destruct (emits_shape _ _ _ Hline) as [n [r ->]].
      rewrite !length_append. simpl. lia. }
    rewrite (formatLoop_next _ _ _ _ _ _ _ _ Hlen Hstep).
    rewrite formatLoop_shift.
    rewrite <- (append_assoc gap line), drop_app_length, Hcont, Hfuel.
    rewrite <- app_assoc. reflexivity.
Qed.

(** X22: formatting is idempotent: what [formatXML] returns is left as
    it is when it is formatted again. *)
Theorem formatXML_idempotent (xmlString out : string) :
  formatXML xmlString = Some (Return out) ->
  formatXML out = Some (Return out).
Proof.
  unfold formatXML at 1.
  destruct (formatLoop _ xmlString 0 0 []) as [[result|m]|] eqn:E;
    try discriminate.
  intros H. injection H as <-.
  apply run_chain in E. destruct E as [added [E Hchain]].
  simpl in E. subst added.
  destruct (chain_stable result 0 [] EmptyString eq_refl Hchain)
    as [fuel Hfuel].
  apply (formatXML_from_run _ fuel). exact Hfuel.
Qed.

Lemma formatXML_idempotent_witness :
  formatXML ("<B>" ++ newline ++ "  <A>text</A>" ++ newline ++ "</B>")
  = Some (Return ("<B>" ++ newline ++ "  <A>text</A>" ++ newline ++ "</B>")).
Proof.
  apply (formatXML_idempotent "<B><A>text</A></B>"). reflexivity.
Defined.

(** *** The lines of the output, for a text without line breaks *)

Lemma no_char_take c s :
  includes (String c EmptyString) s = false ->
  forall k, includes (String c EmptyString) (take k s) = false.
Proof.
  induction s as [|d s IH]; intros H k.
  - destruct k; reflexivity.
  - rewrite LifecycleFacts.includes_char_cons in H. apply orb_false_iff in H.
    destruct H as [H1 H2]. destruct k; [reflexivity|].
    cbn [take]. rewrite LifecycleFacts.includes_char_cons, H1, (IH H2). reflexivity.
Qed.

Lemma no_char_drop c s :
  includes (String c EmptyString) s = false ->
  forall k, includes (String c EmptyString) (drop k s) = false.
Proof.
  induction s as [|d s IH]; intros H k.
  - destruct k; reflexivity.
  - destruct k; [exact H|].
    rewrite LifecycleFacts.includes_char_cons in H. apply orb_false_iff in H.
    cbn [drop]. apply IH, H.
Qed.

Lemma no_char_substring c s a b :
  includes (String c EmptyString) s = false ->
  includes (String c EmptyString) (substring s a b) = false.
Proof. intros H. unfold substring. apply no_char_take, no_char_drop, H. Qed.

Lemma no_char_takeWhile c p s :
  includes (String c EmptyString) s = false ->
  includes (String c EmptyString) (takeWhile p s) = false.
Proof.
  induction s as [|d s IH]; intros H; [reflexivity|].
  rewrite LifecycleFacts.includes_char_cons in H. apply orb_false_iff in H.
  destruct H as [H1 H2]. cbn [takeWhile]. destruct (p d); [|reflexivity].
  rewrite LifecycleFacts.includes_char_cons, H1, (IH H2). reflexivity.
Qed.

Lemma no_char_tagName c fullTag name :
  includes (String c EmptyString) fullTag = false ->
  matchTagName fullTag = Some name ->
  includes (String c EmptyString) name = false.
Proof.
  intros H. unfold matchTagName. destruct fullTag as [|d rest]; [discriminate|].
  destruct (Ascii.eqb d "<"); [|discriminate].
  rewrite LifecycleFacts.includes_char_cons in H. apply orb_false_iff in H.
  destruct H as [_ H]. pose proof (no_char_takeWhile c isNameChar rest H) as Hn.
  destruct (takeWhile isNameChar rest); [discriminate|].
  intros E. injection E as <-. exact Hn.
Qed.

Lemma no_newline_indent n : includes newline (indent n) = false.
Proof. induction n as [|n IH]; [reflexivity|]. exact IH. Qed.

Lemma newline_app a b :
  includes newline (a ++ b) = includes newline a || includes newline b.
Proof. apply includes_char_app. Qed.

Lemma newline_cons c s :
  includes newline (String c s)
  = Ascii.eqb (ascii_of_nat 10) c || includes newline s.
Proof. apply LifecycleFacts.includes_char_cons. Qed.

Lemma no_newline_substring s a b :
  includes newline s = false -> includes newline (substring s a b) = false.
Proof. apply no_char_substring. Qed.

Lemma no_newline_tagName fullTag name :
  includes newline fullTag = false ->
  matchTagName fullTag = Some name ->
  includes newline name = false.
Proof. apply no_char_tagName. Qed.

Lemma iterate_tagLine s i lvl res i' lvl' res' :
  includes newline s = false ->
  Forall tagLine res ->
  iterate s i lvl res = Next i' lvl' res' ->
  Forall tagLine res'.
Proof.
  intros Hs Hres. unfold iterate.
  destruct (indexOf s "<" i) as [tagStart|] eqn:E1; [|discriminate].
  destruct (indexOf s ">" tagStart) as [tagEnd|] eqn:E2; [|discriminate].
  pose proof (fullTag_starts s i tagStart tagEnd E1 E2) as Hfull.
  pose proof (no_newline_substring s tagStart (tagEnd + 1) Hs) as Hnl.
  set (fullTag := substring s tagStart (tagEnd + 1)) in *.
  assert (Hline : forall n, tagLine (indent n ++ fullTag)).
  { intros n. split; [apply isTagLine_indent, Hfull|].
    rewrite newline_app, no_newline_indent. exact Hnl. }
  destruct (startsWith "<?" fullTag || startsWith "<!--" fullTag).
  { intros H. injection H as _ _ <-. apply Forall_snoc; [assumption|].
    apply (Hline 0). }
  destruct (startsWith "</" fullTag).
  { destruct lvl; [discriminate|]. intros H. injection H as _ _ <-.
    apply Forall_snoc; [assumption | apply Hline]. }
  destruct (endsWith "/>" fullTag).
  { intros H. injection H as _ _ <-.
    apply Forall_snoc; [assumption | apply Hline]. }
  destruct (matchTagName fullTag) as [name|] eqn:En; [|discriminate].
  destruct (indexOf s _ (tagEnd + 1)) as [closingTagStart|].
  - destruct (_ && _); intros H; injection H as _ _ <-;
      apply Forall_snoc; try assumption; [|apply Hline].
    split.
    + apply isTagLine_indent, startsWith_append_l, Hfull.
    + rewrite !newline_app, no_newline_indent, Hnl.
      rewrite (no_newline_substring s _ _ Hs).
      change ("</" ++ name ++ ">") with (String "<" (String "/" (name ++ ">"))).
      rewrite !newline_cons, newline_app.
      rewrite (no_newline_tagName _ _ Hnl En).
      reflexivity.
  - intros H. injection H as _ _ <-.
    apply Forall_snoc; [assumption | apply Hline].
Qed.

Lemma formatLoop_tagLine s fuel :
  includes newline s = false ->
  forall i lvl res result,
    Forall tagLine res ->
    formatLoop fuel s i lvl res = Some (Return result) ->
    Forall tagLine result.
Proof.
  intros Hs.
  induction fuel as [|fuel IH]; intros i lvl res result Hres H;
    [discriminate|].
  cbn [formatLoop] in H.
  destruct (i <? String.length s)%nat.
  - destruct (iterate s i lvl res) as [i' lvl' res'| |m] eqn:E.
    + apply (IH _ _ _ _ (iterate_tagLine _ _ _ _ _ _ _ Hs Hres E) H).
    + injection H as <-. exact Hres.
    + discriminate.
  - injection H as <-. exact Hres.
Qed.

Lemma splitOn_no_sep sep x :
  includes (String sep EmptyString) x = false -> Lifecycle.splitOn sep x = [x].
Proof.
  induction x as [|c x IH]; intros H; [reflexivity|].
  rewrite LifecycleFacts.includes_char_cons in H. apply orb_false_iff in H.
  destruct H as [H1 H2]. cbn [Lifecycle.splitOn].
  rewrite Ascii.eqb_sym, H1, (IH H2). reflexivity.
Qed.

Lemma splitOn_app sep x t :
  includes (String sep EmptyString) x = false ->
  Lifecycle.splitOn sep (x ++ String sep t) = x :: Lifecycle.splitOn sep t.
Proof.
  induction x as [|c x IH]; intros H.
  - cbn [append Lifecycle.splitOn]. rewrite Ascii.eqb_refl. reflexivity.
  - rewrite LifecycleFacts.includes_char_cons in H. apply orb_false_iff in H.
    destruct H as [H1 H2]. cbn [append Lifecycle.splitOn].
    rewrite Ascii.eqb_sym, H1, (IH H2). reflexivity.
Qed.

Lemma splitOn_join sep entries :
  entries <> [] ->
  Forall (fun e => includes (String sep EmptyString) e = false) entries ->
  Lifecycle.splitOn sep (join (String sep EmptyString) entries) = entries.
Proof.
  induction entries as [|x rest IH]; intros Hne H; [contradiction|].
  apply Forall_cons_iff in H. destruct H as [Hx Hrest].
  destruct rest as [|y rest].
  - apply splitOn_no_sep, Hx.
  - cbn [join]. cbn [append].
    rewrite (splitOn_app _ _ _ Hx). f_equal. apply IH; [discriminate|exact Hrest].
Qed.

(** X19: when the text has no line break, every line of what
    [formatXML] returns is blanks followed by a tag: it begins, after its
    indentation, with [<]; text is only kept behind an opening tag on
    the same line.  (The result may be the empty text.) *)
Theorem formatXML_lines_are_tags (xmlString out : string) :
  includes newline xmlString = false ->
  formatXML xmlString = Some (Return out) ->
  out = EmptyString
  \/ Forall (fun line => isTagLine line = true) (linesOf out).
Proof.
  intros Hs. unfold formatXML.
  destruct (formatLoop _ xmlString 0 0 []) as [[result|m]|] eqn:E;
    try discriminate.
  intros H. injection H as <-.
  pose proof (formatLoop_tagLine _ _ Hs _ _ _ _ (Forall_nil _) E) as Hall.
  destruct result as [|x rest]; [left; reflexivity|]. right.
  unfold linesOf. change (ascii_of_nat 10) with "010"%char.
  unfold newline. change (ascii_of_nat 10) with "010"%char.
  rewrite splitOn_join; [| discriminate |].
  - eapply Forall_impl; [|exact Hall]. intros l [Hl _]. exact Hl.
  - eapply Forall_impl; [|exact Hall]. intros l [_ Hl]. exact Hl.
Qed.

Lemma formatXML_lines_are_tags_witness :
  ("<B>" ++ newline ++ "  <A>text</A>" ++ newline ++ "</B>") = EmptyString
  \/ Forall (fun line => isTagLine line = true)
       (linesOf ("<B>" ++ newline ++ "  <A>text</A>" ++ newline ++ "</B>")).
Proof.
  apply (formatXML_lines_are_tags "<B><A>text</A></B>"); reflexivity.
Defined.

(** X25: [formatXML] ends on every text: each pass moves the scan
    position forward, so the loop is left after at most as many passes as
    the text has characters, and the call returns or throws. *)
Theorem formatXML_returns_or_throws (xmlString : string) :
  exists outcome, formatXML xmlString = Some outcome.
Proof.
  destruct (formatXML xmlString) as [outcome|] eqn:E; [eauto|].
  exfalso. exact (formatXML_total xmlString E).
Qed.

End BuildXacmlMoreFacts.

(** ** Text leaves in the build script *)

Module BuildXacmlLeafFacts.
Import JsString BuildXacml BuildXacmlMore StringFacts
  StringMoreFacts BuildXacmlFacts PolicyTextFacts BuildXacmlMoreFacts.
Local Open Scope string_scope.

Lemma find_char_past c v tail :
  includes (String c EmptyString) v = false ->
  find (String c EmptyString) (v ++ String c tail)%string
  = Some (String.length v).
Proof.
  induction v as [|d v IH]; intros H.
  - cbn. rewrite Ascii.eqb_refl. reflexivity.
  - cbn [includes startsWith] in H. apply orb_false_iff in H.
    destruct H as [H1 H2]. rewrite andb_true_r in H1.
    change (String d v ++ String c tail)%string
      with (String d (v ++ String c tail)%string).
    cbn [find startsWith]. rewrite H1. cbn [andb].
    rewrite (IH H2). reflexivity.
Qed.

Lemma nameChar_not c d :
  isNameChar d = false -> isNameChar c = true -> Ascii.eqb d c = false.
Proof.
  intros Hd Hc. destruct (Ascii.eqb d c) eqn:E; [|reflexivity].
  apply Ascii.eqb_eq in E. subst. congruence.
Qed.

Lemma allChars_no_char p c s :
  p c = false -> allChars p s = true ->
  includes (String c EmptyString) s = false.
Proof.
  intros Hc. induction s as [|d s IH]; intros H; [reflexivity|].
  cbn [allChars] in H. apply andb_true_iff in H. destruct H as [Hd Hs].
  cbn [includes startsWith]. rewrite (IH Hs), andb_true_r, orb_false_r.
  destruct (Ascii.eqb c d) eqn:E; [|reflexivity].
  apply Ascii.eqb_eq in E. subst. congruence.
Qed.

Lemma takeWhile_name name rest :
  allChars isNameChar name = true ->
  match rest with
  | EmptyString => true
  | String c _ => negb (isNameChar c)
  end = true ->
  takeWhile isNameChar (name ++ rest)%string = name.
Proof.
  intros Hn Hr. induction name as [|c name IH].
  - destruct rest as [|c r]; [reflexivity|].
    cbn [append takeWhile]. apply negb_true_iff in Hr. rewrite Hr.
    reflexivity.
  - cbn [allChars] in Hn. apply andb_true_iff in Hn. destruct Hn as [Hc Hn].
    cbn [append takeWhile]. rewrite Hc, (IH Hn). reflexivity.
Qed.

Lemma length_drop k s : String.length (drop k s) = String.length s - k.
Proof.
  revert s. induction k as [|k IH]; intros s.
  - cbn. lia.
  - destruct s as [|c s]; [reflexivity|]. cbn [drop String.length].
    rewrite IH. lia.
Qed.

Lemma endsWith_app p a b :
  String.length p <= String.length b ->
  endsWith p (a ++ b)%string = endsWith p b.
Proof.
  intros H. unfold endsWith. rewrite length_append.
  replace (String.length p <=? String.length a + String.length b)%nat
    with true by (symmetry; apply Nat.leb_le; lia).
  replace (String.length p <=? String.length b)%nat with true
    by (symmetry; apply Nat.leb_le; lia).
  replace (String.length a + String.length b - String.length p)
    with (String.length a + (String.length b - String.length p)) by lia.
  rewrite drop_drop, drop_app_length. reflexivity.
Qed.

Lemma append_cancel_r q :
  forall d p, (d ++ q = p ++ q)%string -> d = p.
Proof.
  induction d as [|c d IH]; intros [|c' p] H.
  - reflexivity.
  - apply (f_equal String.length) in H.
    cbn [append String.length] in H. rewrite length_append in H. lia.
  - apply (f_equal String.length) in H.
    cbn [append String.length] in H. rewrite length_append in H. lia.
  - cbn [append] in H. injection H as -> H. f_equal. apply IH, H.
Qed.

Lemma endsWith_same_tail p x q :
  endsWith (p ++ q) (x ++ q)%string = endsWith p x.
Proof.
  unfold endsWith. rewrite !length_append.
  destruct (String.length p <=? String.length x)%nat eqn:E.
  - apply Nat.leb_le in E.
    replace (String.length p + String.length q
             <=? String.length x + String.length q)%nat with true
      by (symmetry; apply Nat.leb_le; lia).
    replace (String.length x + String.length q
             - (String.length p + String.length q))
      with (String.length x - String.length p) by lia.
    rewrite drop_app_le by lia. cbn [andb].
    destruct (String.eqb (drop (String.length x - String.length p) x) p)
      eqn:E2.
    + apply String.eqb_eq in E2. rewrite E2. apply String.eqb_refl.
    + apply String.eqb_neq. intros H. apply append_cancel_r in H.
      apply String.eqb_neq in E2. contradiction.
  - apply Nat.leb_gt in E.
    replace (String.length p + String.length q
             <=? String.length x + String.length q)%nat with false
      by (symmetry; apply Nat.leb_gt; lia).
    reflexivity.
Qed.

Lemma endsWith_other_char (p : ascii -> bool) d s :
  p d = false -> allChars p s = true -> endsWith (String d EmptyString) s = false.
Proof.
  intros Hd. induction s as [|c s IH]; intros H; [reflexivity|].
  cbn [allChars] in H. apply andb_true_iff in H. destruct H as [Hc Hs].
  destruct s as [|c' s'].
  - unfold endsWith. cbn. destruct (Ascii.eqb c d) eqn:E; [|reflexivity].
    apply Ascii.eqb_eq in E. subst. congruence.
  - change (String c (String c' s'))
      with (String c EmptyString ++ String c' s')%string.
    rewrite endsWith_app by (cbn; lia). apply IH, Hs.
Qed.

Section Leaf.
Variables name attrs text : string.
Hypothesis Hname : isPlainName name = true.
Hypothesis Hattrs : isTagRest attrs = true.

Lemma name_cons : exists c n, name = String c n /\ isNameChar c = true
                              /\ allChars isNameChar name = true.
Proof.
  unfold isPlainName in Hname. apply andb_true_iff in Hname.
  destruct Hname as [H1 H2]. destruct name as [|c n]; [discriminate|].
  exists c, n. split; [reflexivity|]. split; [|exact H2].
  cbn [allChars] in H2. apply andb_true_iff in H2. tauto.
Qed.

Lemma attrs_parts :
  match attrs with
  | EmptyString => true
  | String c _ => negb (isNameChar c)
  end = true
  /\ includes ">" attrs = false /\ endsWith "/" attrs = false.
Proof.
  unfold isTagRest in Hattrs.
  apply andb_true_iff in Hattrs. destruct Hattrs as [H H3].
  apply andb_true_iff in H. destruct H as [H1 H2].
  apply negb_true_iff in H2, H3. auto.
Qed.

Lemma openingTag_cut : isCutTag (openingTag name attrs).
Proof.
  destruct name_cons as [c [n [_ [_ Hall]]]].
  destruct attrs_parts as [_ [Hgt _]].
  unfold isCutTag, openingTag. split; [reflexivity|].
  assert (Hno : includes ">" ("<" ++ name ++ attrs)%string = false).
  { change ("<" ++ name ++ attrs)%string
      with (String "<" (name ++ attrs)%string).
    cbn [includes startsWith]. cbn [Ascii.eqb Bool.eqb andb orb].
    rewrite includes_char_app, Hgt, orb_false_r.
    apply (allChars_no_char isNameChar); [reflexivity | exact Hall]. }
  replace ("<" ++ name ++ attrs ++ ">")%string
    with (("<" ++ name ++ attrs) ++ ">")%string.
  2:{ cbn [append]. rewrite <- append_assoc. reflexivity. }
  rewrite (find_char_past _ _ _ Hno).
  rewrite (length_append ("<" ++ name ++ attrs) ">").
  change (String.length ">") with 1. f_equal. lia.
Qed.

Lemma openingTag_guards :
  startsWith "<?" (openingTag name attrs)
  || startsWith "<!--" (openingTag name attrs) = false
  /\ startsWith "</" (openingTag name attrs) = false
  /\ endsWith "/>" (openingTag name attrs) = false
  /\ matchTagName (openingTag name attrs) = Some name.
Proof.
  destruct name_cons as [c [n [En [Hc Hall]]]].
  destruct attrs_parts as [Hhead [Hgt Hslash]].
  unfold openingTag. repeat split.
  - rewrite En. cbn [append startsWith].
    rewrite (nameChar_not c "?"), (nameChar_not c "!"); auto.
  - rewrite En. cbn [append startsWith].
    rewrite (nameChar_not c "/"); auto.
  - replace ("<" ++ name ++ attrs ++ ">")%string
      with ((("<" ++ name) ++ attrs) ++ ">")%string.
    2:{ cbn [append]. rewrite <- !append_assoc. reflexivity. }
    rewrite (endsWith_same_tail "/" _ ">").
    destruct attrs as [|a attrs'].
    + rewrite append_empty_r.
      rewrite endsWith_app by (rewrite En; cbn; lia).
      apply (endsWith_other_char isNameChar); [reflexivity | exact Hall].
    + rewrite endsWith_app by (cbn; lia). exact Hslash.
  - cbn [append matchTagName]. cbn [Ascii.eqb Bool.eqb andb].
    rewrite (takeWhile_name name (attrs ++ ">")%string Hall).
    + rewrite En. reflexivity.
    + destruct attrs; [reflexivity | exact Hhead].
Qed.

Hypothesis Htext : isInlineText text = true.

Lemma leaf_pass before after i lvl res :
  i <= String.length before ->
  includes "<" (drop i before) = false ->
  iterate (before ++ textLeaf name attrs text ++ after) i lvl res
  = Next (String.length before + String.length (textLeaf name attrs text))
      lvl (res ++ [(indent lvl ++ textLeaf name attrs text)%string])%list.
Proof.
  intros Hi Hgap.
  unfold isInlineText in Htext. apply andb_true_iff in Htext.
  destruct Htext as [Hlt Hblank]. apply negb_true_iff in Hlt.
  destruct openingTag_guards as [G1 [G2 [G3 G4]]].
  rewrite iterate_shift, drop_app_le by exact Hi.
  unfold textLeaf. rewrite !append_assoc.
  rewrite (iterate_on_cut _ _ _ lvl res Hgap openingTag_cut).
  rewrite G1, G2, G3, G4. cbv zeta.
  change ("</" ++ name ++ ">")%string with (closingTag name).
  assert (F : find (closingTag name) (text ++ closingTag name ++ after)
              = Some (0 + String.length text)).
  { unfold closingTag.
    change ("</" ++ name ++ ">")%string
      with (String "<" ("/" ++ name ++ ">")%string).
    rewrite (find_past_text _ _ _ Hlt).
    rewrite find_startsWith_0; [reflexivity | apply startsWith_app]. }
  rewrite F. cbn [Nat.add]. rewrite take_app_length, Hlt, truthy_trim, Hblank.
  cbn [negb andb shift]. f_equal.
  rewrite length_drop, !length_append. lia.
Qed.

End Leaf.

Lemma regular_before_tag name c rest (yes : nat -> iteration)
      (no : iteration) :
  Ascii.eqb "/" c = false ->
  let after := String "<" (String c rest) in
  match find ("</" ++ name ++ ">") after with
  | Some q =>
      if negb (includes "<" (take q after)) && truthy (trim (take q after))
      then yes q else no
  | None => no
  end = no.
Proof.
  intros Hc after. unfold after.
  change ("</" ++ name ++ ">")%string
    with (String "<" (String "/" (name ++ ">")%string)).
  remember (String "<" (String "/" (name ++ ">")%string)) as needle.
  assert (F : find needle (String "<" (String c rest))
              = option_map S (find needle (String c rest))).
  { subst needle. cbn [find startsWith]. rewrite Hc.
    rewrite andb_false_r. reflexivity. }
  rewrite F.
  destruct (find needle (String c rest)) as [q|]; [|reflexivity].
  cbn [option_map take includes startsWith].
  rewrite Ascii.eqb_refl. reflexivity.
Qed.

Lemma closingTag_pass name before lvl res :
  isPlainName name = true ->
  iterate (before ++ closingTag name) (String.length before) (S lvl) res
  = Next (String.length before + String.length (closingTag name)) lvl
      (res ++ [(indent lvl ++ closingTag name)%string])%list.
Proof.
  intros Hname.
  destruct (name_cons name Hname) as [c [n [En [Hc Hall]]]].
  assert (Hcut : isCutTag (closingTag name)).
  { unfold isCutTag, closingTag. split; [reflexivity|].
    assert (Hno : includes ">" ("</" ++ name)%string = false).
    { cbn [append includes startsWith]. cbn [Ascii.eqb Bool.eqb andb orb].
      apply (allChars_no_char isNameChar); [reflexivity | exact Hall]. }
    replace ("</" ++ name ++ ">")%string with (("</" ++ name) ++ ">")%string
      by (cbn [append]; reflexivity).
    rewrite (find_char_past _ _ _ Hno).
    rewrite (length_append ("</" ++ name) ">").
    change (String.length ">") with 1. f_equal. lia. }
  replace (String.length before) with (String.length before + 0) at 1 by lia.
  rewrite iterate_shift, Nat.add_0_r, drop_app_length.
  pose proof (iterate_on_cut EmptyString (closingTag name) EmptyString
                (S lvl) res eq_refl Hcut) as H.
  cbn [append] in H. rewrite append_empty_r in H. rewrite H.
  unfold closingTag at 1 2 3. cbn [append startsWith].
  cbn [Ascii.eqb Bool.eqb andb orb]. cbn [shift String.length Nat.add].
  reflexivity.
Qed.

Lemma leaf_in_any_parent pname pattrs name attrs text :
  isPlainName pname = true ->
  isTagRest pattrs = true ->
  isPlainName name = true ->
  isTagRest attrs = true ->
  isInlineText text = true ->
  formatXML (openingTag pname pattrs ++ textLeaf name attrs text
             ++ closingTag pname)
  = Some (Return (openingTag pname pattrs ++ newline
                  ++ ("  " ++ textLeaf name attrs text) ++ newline
                  ++ closingTag pname)).
Proof.
  intros Hp Hpa Hn Ha Ht.
  set (s := (openingTag pname pattrs ++ textLeaf name attrs text
             ++ closingTag pname)%string).
  set (leaf := textLeaf name attrs text).
  destruct (openingTag_guards pname pattrs Hp Hpa) as [G1 [G2 [G3 G4]]].
  destruct (name_cons name Hn) as [c [n [En [Hc _]]]].
  assert (P1 : iterate s 0 0 []
               = Next (String.length (openingTag pname pattrs)) 1
                   [openingTag pname pattrs]).
  { assert (Eafter : exists rest,
               leaf ++ closingTag pname = String "<" (String c rest)).
    { unfold leaf, textLeaf, openingTag. rewrite En. cbn [append].
      eexists. reflexivity. }
    destruct Eafter as [rest Eafter].
    change (iterate s 0 0 [])
      with (iterate (EmptyString ++ openingTag pname pattrs
                     ++ (leaf ++ closingTag pname)) 0 0 []).
    rewrite (iterate_on_cut EmptyString (openingTag pname pattrs)
               (leaf ++ closingTag pname) 0 [] eq_refl
               (openingTag_cut pname pattrs Hp Hpa)).
    rewrite G1, G2, G3, G4, Eafter. cbv zeta.
    rewrite regular_before_tag by (apply nameChar_not; auto).
    reflexivity. }
  assert (P2 : iterate s (String.length (openingTag pname pattrs)) 1
                 [openingTag pname pattrs]
               = Next (String.length (openingTag pname pattrs)
                       + String.length leaf) 1
                   [openingTag pname pattrs; ("  " ++ leaf)%string]).
  { unfold s. rewrite (leaf_pass name attrs text Hn Ha Ht); [reflexivity|lia|].
    rewrite <- (append_empty_r (openingTag pname pattrs)) at 2.
    rewrite drop_app_length. reflexivity. }
  assert (P3 : iterate s (String.length (openingTag pname pattrs)
                          + String.length leaf) 1
                 [openingTag pname pattrs; ("  " ++ leaf)%string]
               = Next (String.length s) 0
                   [openingTag pname pattrs; ("  " ++ leaf)%string;
                    closingTag pname]).
  { unfold s. rewrite <- append_assoc, <- length_append.
    rewrite (closingTag_pass pname _ 0 _ Hp).
    rewrite <- length_append. reflexivity. }
  assert (Hlen : String.length s
                 = String.length (openingTag pname pattrs)
                   + String.length leaf + String.length (closingTag pname)).
  { unfold s. rewrite !length_append. fold leaf. lia. }
  assert (L0 : 1 <= String.length (openingTag pname pattrs))
    by (unfold openingTag; cbn; lia).
  assert (L1 : 1 <= String.length leaf)
    by (unfold leaf, textLeaf, openingTag; cbn; lia).
  assert (L2 : 1 <= String.length (closingTag pname))
    by (unfold closingTag; cbn; lia).
  change (openingTag pname pattrs ++ newline
          ++ ("  " ++ leaf) ++ newline ++ closingTag pname)
    with (join newline [openingTag pname pattrs; "  " ++ leaf;
                        closingTag pname]).
  apply (formatXML_from_run s 4).
  assert (B1 : 0 < String.length s) by lia.
  assert (B2 : String.length (openingTag pname pattrs) < String.length s)
    by lia.
  assert (B3 : String.length (openingTag pname pattrs) + String.length leaf
               < String.length s) by lia.
  rewrite (formatLoop_next _ _ _ _ _ _ _ _ B1 P1).
  rewrite (formatLoop_next _ _ _ _ _ _ _ _ B2 P2).
  rewrite (formatLoop_next _ _ _ _ _ _ _ _ B3 P3).
  rewrite formatLoop_done by lia. reflexivity.
Qed.




End BuildXacmlLeafFacts.

